(** * The chat assistant front end: dialogue controller, widgets and renderer

    A shallow embedding of [src/App.jsx] (the React front end of the API chat
    assistant): the [fetchApi] helper, the input widgets whose handlers carry
    logic ([ChatTagsInput], [ChatJsonInput]), the [OperationSelector], the
    [handleUserInput] controller of [ChatInterface] and its render functions.

    React state is modelled by explicit state passing: a handler is a list of
    state-setter calls (in program order) that is then run over the component
    state; an [await] splits a handler in the part before the call and the part
    that resumes with the outcome. *)

From Stdlib Require Import ZArith String Ascii List Bool Lia DecimalString.
Import ListNotations.
Open Scope string_scope.

Set Warnings "-register-all".

(** ** JavaScript values and the built-ins the program uses *)
Module JS.

(** Numbers as they come out of [parseFloat] and JSON: zero, a finite
    non-zero decimal [digits * 10^exp10] or an infinity; [NaN] is the [None]
    of [parseFloat].  [digits] has no leading and no trailing zero, so that
    structural equality is [===].  Rounding to a double is not modelled: a
    literal stands for its exact decimal value, and [-0] is [0]. *)
Inductive jsnum : Type :=
| NZero
| NFin (neg : bool) (digits : string) (exp10 : Z)
| NInf (neg : bool).

Inductive jsval : Type :=
| VUndefined
| VNull
| VBool (b : bool)
| VNum (n : jsnum)
| VStr (s : string)
| VArr (items : list jsval)
| VObj (fields : list (string * jsval)).

(** What a JavaScript expression evaluates to: a value or a thrown error,
    kept by its kind and message. *)
Inductive error : Type :=
| Error (message : string)
| TypeError (message : string)
| SyntaxError (message : string)
| ReferenceError (message : string).

Inductive result (A : Type) : Type :=
| Ok (a : A)
| Throw (e : error).
Arguments Ok {A} a.
Arguments Throw {A} e.

Definition bind {A B} (r : result A) (k : A -> result B) : result B :=
  match r with
  | Ok a => k a
  | Throw e => Throw e
  end.

Definition error_message (e : error) : string :=
  match e with
  | Error m | TypeError m | SyntaxError m | ReferenceError m => m
  end.

(** *** Strings *)

Definition dquote : string := String (ascii_of_nat 34) EmptyString.

Definition is_digit (c : ascii) : bool :=
  let n := nat_of_ascii c in (48 <=? n)%nat && (n <=? 57)%nat.

(** White space and line terminators among the ASCII characters. *)
Definition is_space (c : ascii) : bool :=
  let n := nat_of_ascii c in
  ((9 <=? n)%nat && (n <=? 13)%nat) || (n =? 32)%nat.

Fixpoint trimStart (s : string) : string :=
  match s with
  | EmptyString => EmptyString
  | String c rest => if is_space c then trimStart rest else s
  end.

Fixpoint string_rev_onto (s acc : string) : string :=
  match s with
  | EmptyString => acc
  | String c rest => string_rev_onto rest (String c acc)
  end.

Definition string_rev (s : string) : string := string_rev_onto s EmptyString.

Definition trimEnd (s : string) : string :=
  string_rev (trimStart (string_rev s)).

(** [String.prototype.trim]. *)
Definition trim (s : string) : string := trimEnd (trimStart s).

Definition is_empty (s : string) : bool :=
  match s with
  | EmptyString => true
  | String _ _ => false
  end.

(** The longest prefix of characters satisfying [p], and the rest. *)
Fixpoint span (p : ascii -> bool) (s : string) : string * string :=
  match s with
  | EmptyString => (EmptyString, EmptyString)
  | String c rest =>
      if p c then let (a, b) := span p rest in (String c a, b)
      else (EmptyString, s)
  end.

Fixpoint repeat_char (c : ascii) (n : nat) : string :=
  match n with
  | O => EmptyString
  | S k => String c (repeat_char c k)
  end.

Definition zeros (n : nat) : string := repeat_char "0"%char n.

Fixpoint take (n : nat) (s : string) : string :=
  match n, s with
  | S k, String c rest => String c (take k rest)
  | _, _ => EmptyString
  end.

Fixpoint drop (n : nat) (s : string) : string :=
  match n, s with
  | S k, String _ rest => drop k rest
  | _, _ => s
  end.

Definition string_of_Z (z : Z) : string :=
  NilZero.string_of_int (Z.to_int z).

Fixpoint digits_value (s : string) (acc : Z) : Z :=
  match s with
  | EmptyString => acc
  | String c rest =>
      digits_value rest (10 * acc + Z.of_nat (nat_of_ascii c - 48))%Z
  end.

(** *** Numbers *)

Definition is_zero_char (c : ascii) : bool := (nat_of_ascii c =? 48)%nat.

(** The number [mantissa * 10^e] for a string of decimal digits, in the
    canonical form: leading zeros dropped, each trailing zero moved into the
    exponent. *)
Definition make_num (neg : bool) (mantissa : string) (e : Z) : jsnum :=
  let m1 := snd (span is_zero_char mantissa) in
  let '(tz, rev_sig) := span is_zero_char (string_rev m1) in
  let sig := string_rev rev_sig in
  if is_empty sig then NZero
  else NFin neg sig (e + Z.of_nat (String.length tz))%Z.

(** [Number::toString], radix 10: with [k] digits and the decimal point after
    digit [n], plain notation for [-6 < n <= 21] and exponent notation
    otherwise. *)
Definition num_to_string (x : jsnum) : string :=
  match x with
  | NZero => "0"
  | NInf neg => if neg then "-Infinity" else "Infinity"
  | NFin neg ds e =>
      let k := Z.of_nat (String.length ds) in
      let n := (e + k)%Z in
      let body :=
        if ((k <=? n) && (n <=? 21))%Z then ds ++ zeros (Z.to_nat (n - k))
        else if ((0 <? n) && (n <=? 21))%Z then
          take (Z.to_nat n) ds ++ "." ++ drop (Z.to_nat n) ds
        else if ((-6 <? n) && (n <=? 0))%Z then
          "0." ++ zeros (Z.to_nat (- n)) ++ ds
        else
          let ex := (n - 1)%Z in
          let sgn := if (ex <? 0)%Z then "-" else "+" in
          let mant := if (k =? 1)%Z then ds else take 1 ds ++ "." ++ drop 1 ds in
          mant ++ "e" ++ sgn ++ string_of_Z (Z.abs ex)
      in if neg then "-" ++ body else body
  end.

Definition starts_with (p s : string) : bool := String.prefix p s.

(** An optional sign: whether it is a minus, and the rest. *)
Definition read_sign (s : string) : bool * string :=
  match s with
  | String "-"%char rest => (true, rest)
  | String "+"%char rest => (false, rest)
  | _ => (false, s)
  end.

(** The exponent part after a mantissa: [e] or [E], an optional sign and at
    least one digit; anything else leaves the exponent at 0. *)
Definition read_exponent (s : string) : Z :=
  match s with
  | String c rest =>
      if (Ascii.eqb c "e" || Ascii.eqb c "E")%bool then
        let (neg, r) := read_sign rest in
        let (ds, _) := span is_digit r in
        if is_empty ds then 0%Z
        else if neg then (- digits_value ds 0)%Z else digits_value ds 0
      else 0%Z
  | EmptyString => 0%Z
  end.

(** [parseFloat]: the longest prefix of the trimmed string that is a decimal
    literal; [None] is [NaN]. *)
Definition parseFloat (s : string) : option jsnum :=
  let (neg, r) := read_sign (trimStart s) in
  if starts_with "Infinity" r then Some (NInf neg)
  else
    let (ip, r1) := span is_digit r in
    let (fp, r2) :=
      match r1 with
      | String "."%char r1' => span is_digit r1'
      | _ => (EmptyString, r1)
      end in
    if is_empty ip && is_empty fp then None
    else
      Some (make_num neg (ip ++ fp)
              (read_exponent r2 - Z.of_nat (String.length fp))%Z).

Definition jsnum_eqb (a b : jsnum) : bool :=
  match a, b with
  | NZero, NZero => true
  | NFin n1 d1 e1, NFin n2 d2 e2 =>
      Bool.eqb n1 n2 && String.eqb d1 d2 && (e1 =? e2)%Z
  | NInf n1, NInf n2 => Bool.eqb n1 n2
  | _, _ => false
  end.

(** *** Values *)

(** [ToBoolean]. *)
Definition truthy (v : jsval) : bool :=
  match v with
  | VUndefined | VNull => false
  | VBool b => b
  | VNum n => negb (jsnum_eqb n NZero)
  | VStr s => negb (is_empty s)
  | VArr _ | VObj _ => true
  end.

Definition nullish (v : jsval) : bool :=
  match v with
  | VUndefined | VNull => true
  | _ => false
  end.

Definition is_string (v : jsval) : bool :=
  match v with
  | VStr _ => true
  | _ => false
  end.

(** [typeof v === 'object']: objects, arrays and [null]. *)
Definition typeof_object (v : jsval) : bool :=
  match v with
  | VNull | VArr _ | VObj _ => true
  | _ => false
  end.

Definition isArray (v : jsval) : bool :=
  match v with
  | VArr _ => true
  | _ => false
  end.

Fixpoint lookup (k : string) (fields : list (string * jsval)) : jsval :=
  match fields with
  | [] => VUndefined
  | (k', v) :: rest => if String.eqb k k' then v else lookup k rest
  end.

(** [v.k] where [v] is not [null] or [undefined]: a key of an object, and
    [undefined] for a key no JSON value has. *)
Definition prop (v : jsval) (k : string) : jsval :=
  match v with
  | VObj fields => lookup k fields
  | _ => VUndefined
  end.

(** [v.k] in general: reading a property of [null] or [undefined] throws. *)
Definition get_prop (v : jsval) (k : string) : result jsval :=
  match v with
  | VUndefined =>
      Throw (TypeError ("Cannot read properties of undefined (reading '" ++ k ++ "')"))
  | VNull =>
      Throw (TypeError ("Cannot read properties of null (reading '" ++ k ++ "')"))
  | _ => Ok (prop v k)
  end.

Definition has_key (k : string) (fields : list (string * jsval)) : bool :=
  existsb (fun kv => String.eqb (fst kv) k) fields.

Definition cannot_convert : error :=
  TypeError "Cannot convert object to primitive value".

(** [ToString].  An object prints as [[object Object]] through the [toString]
    it inherits; an own [toString] key, never callable in a JSON value, hides
    that method, the inherited [valueOf] returns the object itself, and the
    conversion throws.  An array prints its items as [join] does. *)
Fixpoint to_string (v : jsval) : result string :=
  match v with
  | VUndefined => Ok "undefined"
  | VNull => Ok "null"
  | VBool b => Ok (if b then "true" else "false")
  | VNum n => Ok (num_to_string n)
  | VStr s => Ok s
  | VArr items =>
      bind
        ((fix item_texts (l : list jsval) : result (list string) :=
            match l with
            | [] => Ok []
            | x :: rest =>
                bind (if nullish x then Ok EmptyString else to_string x)
                  (fun s => bind (item_texts rest) (fun ss => Ok (s :: ss)))
            end) items)
        (fun parts => Ok (String.concat "," parts))
  | VObj fields =>
      if has_key "toString" fields then Throw cannot_convert
      else Ok "[object Object]"
  end.

(** The texts [Array.prototype.join] joins: the empty text for [null] and
    [undefined], [ToString] of any other item, from the first item on. *)
Fixpoint item_texts (l : list jsval) : result (list string) :=
  match l with
  | [] => Ok []
  | x :: rest =>
      bind (if nullish x then Ok EmptyString else to_string x)
        (fun s => bind (item_texts rest) (fun ss => Ok (s :: ss)))
  end.

Definition join (sep : string) (items : list jsval) : result string :=
  bind (item_texts items) (fun parts => Ok (String.concat sep parts)).

(** [===] when one side is a string or a number (also the comparison of
    [Array.prototype.includes] for such a value): an array or an object is
    never equal to it. *)
Definition strict_eqb (a b : jsval) : bool :=
  match a, b with
  | VUndefined, VUndefined => true
  | VNull, VNull => true
  | VBool x, VBool y => Bool.eqb x y
  | VNum x, VNum y => jsnum_eqb x y
  | VStr x, VStr y => String.eqb x y
  | _, _ => false
  end.

Definition includes (items : list jsval) (v : jsval) : bool :=
  existsb (fun x => strict_eqb x v) items.

(** The list without its element at index [i]
    ([l.filter((_, index) => index !== i)]). *)
Fixpoint remove_at {A} (i : nat) (l : list A) : list A :=
  match l, i with
  | [], _ => []
  | _ :: rest, O => rest
  | x :: rest, S k => x :: remove_at k rest
  end.

End JS.
Import JS.

(** ** [fetchApi]: one HTTP exchange turned into a value or an error *)
Module Api.

Definition API_BASE_URL : string := "http://localhost:8000/api/v1".
Definition CHAT_ENDPOINT : string := API_BASE_URL ++ "/chat/message".
Definition OPERATIONS_ENDPOINT : string := API_BASE_URL ++ "/operations".
Definition USER_ID : string := "ui_user_enh".

(** What [fetch] resolves to: the status and what [response.json()] gives when
    it is called (the parsed body, or the [SyntaxError] of a body that is not
    JSON). *)
Record Response : Type := mkResponse {
  status : Z;
  json : result jsval
}.

(** [response.ok]. *)
Definition ok (r : Response) : bool :=
  ((200 <=? status r) && (status r <=? 299))%Z.

(** A run of [fetchApi]: whether [response.json()] was called, and the value
    returned or the error thrown. *)
Record Run : Type := mkRun {
  body_read : bool;
  outcome : result jsval
}.

Fixpoint map_result {A B} (f : A -> result B) (l : list A) : result (list B) :=
  match l with
  | [] => Ok []
  | x :: rest =>
      bind (f x) (fun y => bind (map_result f rest) (fun ys => Ok (y :: ys)))
  end.

(** [err.loc?.join('.')]: [undefined] when [loc] is [null] or [undefined]; only
    an array has a [join] to call. *)
Definition loc_join (err : jsval) : result jsval :=
  bind (get_prop err "loc") (fun loc =>
    if nullish loc then Ok VUndefined
    else match loc with
         | VArr items => bind (join "." items) (fun s => Ok (VStr s))
         | _ => Throw (TypeError "err.loc?.join is not a function")
         end).

(** The arrow function mapped over an array [detail]. *)
Definition detail_line (err : jsval) : result string :=
  bind (loc_join err) (fun l =>
    bind (to_string l) (fun path =>
      bind (get_prop err "msg") (fun msg =>
        bind (to_string msg) (fun text =>
          Ok (path ++ ": " ++ text))))).

(** The body of the [try] block from the parsed error body on: the value
    [errorDetail] holds when the block ends or throws ([default] is the
    [API Error: <status>] it starts with). *)
Definition error_detail (errorData default : jsval) : jsval :=
  match get_prop errorData "detail" with
  | Throw _ => default
  | Ok detail =>
      let errorDetail := if truthy detail then detail else default in
      match detail with
      | VArr items =>
          match map_result detail_line items with
          | Ok lines => VStr (String.concat "; " lines)
          | Throw _ => errorDetail
          end
      | _ => errorDetail
      end
  end.

Definition fetchApi (fetched : result Response) : Run :=
  match fetched with
  | Throw e => mkRun false (Throw e)
  | Ok response =>
      if negb (ok response) then
        let default := VStr ("API Error: " ++ string_of_Z (status response)) in
        let errorDetail :=
          match json response with
          | Ok errorData => error_detail errorData default
          | Throw _ => default
          end in
        mkRun true
          (match to_string errorDetail with
           | Ok message => Throw (Error message)
           | Throw e => Throw e
           end)
      else if (status response =? 204)%Z then mkRun false (Ok VNull)
      else mkRun true (json response)
  end.

(** The words of the specification: each [{loc, msg}] pair printed as the
    location path, a colon and the message, the lines joined with [; ]. *)
Definition pair_line (p : list string * string) : string :=
  String.concat "." (fst p) ++ ": " ++ snd p.

Definition joined_detail (pairs : list (list string * string)) : string :=
  String.concat "; " (map pair_line pairs).

(** An item of [detail] that is the pair [p]: an object whose [loc] is the
    array of the path's strings and whose [msg] is the message. *)
Definition is_pair (item : jsval) (p : list string * string) : Prop :=
  exists fields,
    item = VObj fields /\
    lookup "loc" fields = VArr (map VStr (fst p)) /\
    lookup "msg" fields = VStr (snd p).

Definition scenario_E : Response :=
  mkResponse 422
    (Ok (VObj [("detail",
                VArr [VObj [("loc", VArr [VStr "body"; VStr "priority"]);
                            ("msg", VStr "must be >=1")]])])).

End Api.


(** ** The widgets whose handlers carry logic *)

(** What an event handler of a widget does besides setting its own state, in
    program order. *)
Inductive ui_effect : Type :=
| PreventDefault
| Alert (msg : string)
| ConsoleError (msg : string)
| OnSubmit (parameter_name value : jsval).

Definition submitted (e : ui_effect) : bool :=
  match e with
  | OnSubmit _ _ => true
  | _ => false
  end.

Definition alerted (e : ui_effect) : bool :=
  match e with
  | Alert _ => true
  | _ => false
  end.

Module ChatTagsInput.

Record State : Type := mkState {
  inputValue : string;
  tags : list jsval
}.

(** [item_type = 'string'] of the destructuring: the default stands for
    [undefined] only. *)
Definition item_type (componentDetails : jsval) : jsval :=
  match prop componentDetails "item_type" with
  | VUndefined => VStr "string"
  | v => v
  end.

Definition parameter_name (componentDetails : jsval) : jsval :=
  prop componentDetails "parameter_name".

Definition initial (componentDetails : jsval) : State :=
  mkState EmptyString
    (match prop componentDetails "default" with
     | VArr items => items
     | _ => []
     end).

Definition handleInputChange (text : string) (st : State) : State :=
  mkState text (tags st).

Definition is_numeric (ty : jsval) : bool :=
  strict_eqb ty (VStr "integer") || strict_eqb ty (VStr "number").

(** The text of the alert.  It is raised in the numeric branch only, where
    [item_type] is one of two strings, so that its conversion returns. *)
Definition invalid_tag_alert (newTagValue : string) (ty : jsval) : string :=
  "Tag " ++ dquote ++ newTagValue ++ dquote ++ " is not a valid "
  ++ (match to_string ty with
      | Ok name => name
      | Throw _ => EmptyString
      end)
  ++ ".".

(** [handleKeyDown] for an event whose [e.key] is [key]. *)
Definition handleKeyDown (componentDetails : jsval) (key : string) (st : State)
  : State * list ui_effect :=
  if existsb (String.eqb key) ["Enter"; ","; " "]
     && negb (is_empty (trim (inputValue st)))
  then
    let newTagValue := trim (inputValue st) in
    let ty := item_type componentDetails in
    let processed :=
      if is_numeric ty then option_map VNum (parseFloat newTagValue)
      else Some (VStr newTagValue) in
    match processed with
    | None => (st, [PreventDefault; Alert (invalid_tag_alert newTagValue ty)])
    | Some processedTag =>
        if negb (includes (tags st) processedTag) then
          let newTags := (tags st ++ [processedTag])%list in
          (mkState EmptyString newTags,
           [PreventDefault;
            OnSubmit (parameter_name componentDetails) (VArr newTags)])
        else (mkState EmptyString (tags st), [PreventDefault])
    end
  else if String.eqb key "Backspace" && is_empty (inputValue st)
          && (0 <? List.length (tags st))%nat
  then
    let newTags := removelast (tags st) in
    (mkState (inputValue st) newTags,
     [PreventDefault; OnSubmit (parameter_name componentDetails) (VArr newTags)])
  else (st, []).

Definition removeTag (componentDetails : jsval) (indexToRemove : nat) (st : State)
  : State * list ui_effect :=
  let newTags := remove_at indexToRemove (tags st) in
  (mkState (inputValue st) newTags,
   [OnSubmit (parameter_name componentDetails) (VArr newTags)]).

(** A key that commits the staged token. *)
Definition is_delimiter (key : string) : bool :=
  existsb (String.eqb key) ["Enter"; ","; " "].

(** The value a token is committed as: a number for a numeric [item_type]
    ([None] when it does not parse to one), the token itself otherwise. *)
Definition coerce (componentDetails : jsval) (token : string) : option jsval :=
  if is_numeric (item_type componentDetails)
  then option_map VNum (parseFloat token)
  else Some (VStr token).

Definition integer_tags : jsval :=
  VObj [("type", VStr "tags_input"); ("parameter_name", VStr "ids");
        ("item_type", VStr "integer")].

End ChatTagsInput.

Module ChatJsonInput.

Record State : Type := mkState {
  value : string;
  isValidJson : bool
}.

Definition parameter_name (componentDetails : jsval) : jsval :=
  prop componentDetails "parameter_name".

Definition must_fix_alert : string := "Please fix invalid JSON.".
Definition warning_alert : string :=
  "Warning: Submitting potentially invalid JSON string.".

Section WithParser.

(** [JSON.parse], a built-in of the platform: the parsed document, or the
    [SyntaxError] it throws. *)
Variable JSON_parse : string -> result jsval.

Definition handleChange (textValue : string) (st : State) : State :=
  mkState textValue
    (match JSON_parse textValue with
     | Ok _ => true
     | Throw _ => is_empty (trim textValue)
     end).

(** The first [if] of [handleSubmit]: the value to submit, the [parseError]
    flag, the validity flag that is set, and the effects on the way. *)
Definition read_value (st : State) : jsval * bool * bool * list ui_effect :=
  if is_empty (trim (value st)) then (VNull, false, true, [])
  else
    match JSON_parse (value st) with
    | Ok v => (v, false, true, [])
    | Throw e =>
        (VStr (value st), true, false,
         [ConsoleError ("Invalid JSON submitted: " ++ error_message e);
          Alert warning_alert])
    end.

Definition is_null (v : jsval) : bool :=
  match v with
  | VNull => true
  | _ => false
  end.

Definition handleSubmit (componentDetails : jsval) (st : State)
  : State * list ui_effect :=
  let '(submittedValue, parseError, valid, effects) := read_value st in
  (mkState (value st) valid,
   (PreventDefault :: effects ++
   (if negb parseError || is_null submittedValue || is_string submittedValue
    then [OnSubmit (parameter_name componentDetails) submittedValue]
    else [Alert must_fix_alert]))%list).

End WithParser.

(** The value the specification gives each case of a submit. *)
Definition expected_value (JSON_parse : string -> result jsval) (text : string)
  : jsval :=
  if is_empty (trim text) then VNull
  else match JSON_parse text with
       | Ok v => v
       | Throw _ => VStr text
       end.

(** A parser that knows one document, for running the handler. *)
Definition toy_parse (s : string) : result jsval :=
  if String.eqb s "{}" then Ok (VObj [])
  else Throw (SyntaxError "Unexpected token").

Definition json_widget : jsval :=
  VObj [("type", VStr "json_input"); ("parameter_name", VStr "payload")].

End ChatJsonInput.

(** ** What React shows for the children of an element *)
Module React.

(** React refuses a plain object among the children of an element (its
    message goes on to list the keys of the object). *)
Definition invalid_child : error :=
  Error "Objects are not valid as a React child".

(** The texts React shows for a child that is data: the string or the number
    itself, nothing for a boolean, [null] and [undefined], the texts of its
    items for an array; a plain object makes the render throw. *)
Fixpoint child_texts (child : jsval) : result (list string) :=
  match child with
  | VStr s => Ok [s]
  | VNum n => Ok [num_to_string n]
  | VUndefined | VNull | VBool _ => Ok []
  | VArr items =>
      (fix items_texts (l : list jsval) : result (list string) :=
         match l with
         | [] => Ok []
         | item :: rest =>
             bind (child_texts item) (fun texts =>
               bind (items_texts rest) (fun more => Ok (texts ++ more)%list))
         end) items
  | VObj _ => Throw invalid_child
  end.

(** The children between the tags of an element, in order. *)
Definition children_texts (children : list jsval) : result (list string) :=
  child_texts (VArr children).

(** The [key] React gives an element: none for [undefined], the value
    converted to a string otherwise. *)
Definition element_key (key : jsval) : result (option string) :=
  match key with
  | VUndefined => Ok None
  | _ => bind (to_string key) (fun k => Ok (Some k))
  end.

End React.

(** ** The operation selector *)
Module OperationSelector.

(** The object [handleChange] passes to [onSelectOperation], and the one
    [handleDynamicInputSubmit] builds: a key that is absent reads as
    [undefined]. *)
Record Input : Type := mkInput {
  type : jsval;
  value : jsval;
  apiDetails : jsval;
  parameterName : jsval
}.

(** [operations.find(op => op.id === opId)]: [undefined] when no entry
    matches; reading [id] of a [null] entry throws. *)
Fixpoint find_by_id (operations : list jsval) (opId : string) : result jsval :=
  match operations with
  | [] => Ok VUndefined
  | op :: rest =>
      bind (get_prop op "id") (fun id =>
        if strict_eqb id (VStr opId) then Ok op else find_by_id rest opId)
  end.

(** [handleChange] for a change event whose [e.target.value] is [opId]: the
    argument of the call of [onSelectOperation], if it is called. *)
Definition handleChange (operations : list jsval) (opId : string)
  : option Input :=
  match find_by_id operations opId with
  | Ok selectedOp =>
      if truthy selectedOp then
        Some (mkInput (VStr "intent") (prop selectedOp "summary")
                (VObj [("path", prop selectedOp "path");
                       ("method", prop selectedOp "method")])
                VUndefined)
      else None
  | Throw _ => None
  end.

(** [String.prototype.toUpperCase] on the letters of ASCII. *)
Definition upper_char (c : ascii) : ascii :=
  let n := nat_of_ascii c in
  if (97 <=? n)%nat && (n <=? 122)%nat then ascii_of_nat (n - 32) else c.

Fixpoint toUpperCase (s : string) : string :=
  match s with
  | EmptyString => EmptyString
  | String c rest => String (upper_char c) (toUpperCase rest)
  end.

(** [method.toUpperCase()]: only a string has the method to call. *)
Definition call_toUpperCase (method : jsval) : result string :=
  match method with
  | VStr s => Ok (toUpperCase s)
  | VUndefined =>
      Throw (TypeError
               "Cannot read properties of undefined (reading 'toUpperCase')")
  | VNull =>
      Throw (TypeError
               "Cannot read properties of null (reading 'toUpperCase')")
  | _ => Throw (TypeError "op.method.toUpperCase is not a function")
  end.

(** The [<option>] the render of the selector builds for the entry [op]: its
    [key] and [value] are [op.id], its children the summary and, in brackets,
    the method in capitals and the path. *)
Definition option_children (op : jsval) : result (list jsval) :=
  bind (get_prop op "id") (fun id =>
    bind (get_prop op "summary") (fun summary =>
      bind (get_prop op "method") (fun method =>
        bind (call_toUpperCase method) (fun shown_method =>
          bind (get_prop op "path") (fun path =>
            bind (React.element_key id) (fun _ =>
              Ok [VStr " "; summary; VStr " ("; VStr shown_method; VStr " ";
                  path; VStr ") "])))))).

(** The texts React shows in the option. *)
Definition option_texts (op : jsval) : result (list string) :=
  bind (option_children op) React.children_texts.

(** The options of the catalog on the page, in order: the first entry whose
    option throws ends the render of the selector. *)
Definition options (operations : list jsval) : result (list (list string)) :=
  Api.map_result option_texts operations.

(** The [disabled] attribute of the [select] element. *)
Definition select_disabled (operations : list jsval) (disabled : bool) : bool :=
  disabled || (List.length operations =? 0)%nat.

End OperationSelector.

(** ** The chat interface: state, controller and render *)
Module ChatInterface.

Import OperationSelector.

Inductive Sender : Type := user | assistant.

(** A message of the log.  Its [id] ([Date.now() + Math.random()]) is read by
    the render as a list key only and is left out. *)
Record Message : Type := mkMessage {
  sender : Sender;
  content : jsval
}.

(** The [useState] cells of the component. *)
Record State : Type := mkState {
  messages : list Message;
  isAssistantTyping : bool;
  currentInteractionDisabled : bool;
  availableOperations : jsval;
  fetchError : jsval;
  currentApiOperation : jsval
}.

Definition initial_state : State :=
  mkState [] false false (VArr []) VNull VNull.

(** The calls a handler makes, in program order: the state setters, and the
    call of [fetchApi] at which it awaits. *)
Inductive action : Type :=
| addMessage (s : Sender) (c : jsval)
| setIsAssistantTyping (b : bool)
| setCurrentInteractionDisabled (b : bool)
| setAvailableOperations (v : jsval)
| setFetchError (v : jsval)
| setCurrentApiOperation (v : jsval)
| callFetchApi (url : string) (requestBody : jsval).

Definition apply_action (a : action) (st : State) : State :=
  match a with
  | addMessage s c =>
      mkState (messages st ++ [mkMessage s c]) (isAssistantTyping st)
        (currentInteractionDisabled st) (availableOperations st)
        (fetchError st) (currentApiOperation st)
  | setIsAssistantTyping b =>
      mkState (messages st) b (currentInteractionDisabled st)
        (availableOperations st) (fetchError st) (currentApiOperation st)
  | setCurrentInteractionDisabled b =>
      mkState (messages st) (isAssistantTyping st) b
        (availableOperations st) (fetchError st) (currentApiOperation st)
  | setAvailableOperations v =>
      mkState (messages st) (isAssistantTyping st)
        (currentInteractionDisabled st) v (fetchError st)
        (currentApiOperation st)
  | setFetchError v =>
      mkState (messages st) (isAssistantTyping st)
        (currentInteractionDisabled st) (availableOperations st) v
        (currentApiOperation st)
  | setCurrentApiOperation v =>
      mkState (messages st) (isAssistantTyping st)
        (currentInteractionDisabled st) (availableOperations st)
        (fetchError st) v
  | callFetchApi _ _ => st
  end.

Definition run (actions : list action) (st : State) : State :=
  fold_left (fun s a => apply_action a s) actions st.

Definition is_call (a : action) : bool :=
  match a with
  | callFetchApi _ _ => true
  | _ => false
  end.

(** The network calls among the actions. *)
Definition calls (actions : list action) : list action :=
  filter is_call actions.

(** [{ prompt: p, ui_component: null }]. *)
Definition text_instruction (p : jsval) : jsval :=
  VObj [("prompt", p); ("ui_component", VNull)].

Definition unmapped_text (label : string) : string :=
  "Sorry, I couldn't map '" ++ label
  ++ "' to a known API action. Please select from the list.".

Definition is_intent (input : Input) : bool :=
  strict_eqb (type input) (VStr "intent").

Definition is_parameter (input : Input) : bool :=
  strict_eqb (type input) (VStr "parameter").

(** [!input.apiDetails || !input.apiDetails.path || !input.apiDetails.method]. *)
Definition unresolved (input : Input) : bool :=
  negb (truthy (apiDetails input))
  || negb (truthy (prop (apiDetails input) "path"))
  || negb (truthy (prop (apiDetails input) "method")).

Definition intent_body (input : Input) : jsval :=
  VObj [("user_id", VStr Api.USER_ID); ("type", VStr "intent");
        ("intent_string", value input);
        ("target_api_path", prop (apiDetails input) "path");
        ("target_api_method", prop (apiDetails input) "method")].

Definition parameter_body (input : Input) : jsval :=
  VObj [("user_id", VStr Api.USER_ID); ("type", VStr "parameter_response");
        ("parameter_name", parameterName input);
        ("parameter_value", value input)].

(** [handleUserInput] up to its [await] (the call of [fetchApi] is the last
    action then), up to the early [return], or up to the template literal of
    the early branch when the conversion of [input.value] in it throws: the
    handler ends there, outside any [try], with nothing more done. *)
Definition handleUserInput (input : Input) : list action :=
  (if is_intent input
   then [addMessage user (value input);
         setCurrentApiOperation (apiDetails input)]
   else [])
  ++ [setIsAssistantTyping true; setCurrentInteractionDisabled true;
      setFetchError VNull]
  ++ (if is_intent input then
        if unresolved input then
          match to_string (value input) with
          | Ok label =>
              [addMessage assistant
                 (text_instruction (VStr (unmapped_text label)));
               setIsAssistantTyping false; setCurrentInteractionDisabled false;
               setCurrentApiOperation VNull]
          | Throw _ => []
          end
        else [callFetchApi Api.CHAT_ENDPOINT (intent_body input)]
      else if is_parameter input then
        [callFetchApi Api.CHAT_ENDPOINT (parameter_body input)]
      else [callFetchApi Api.CHAT_ENDPOINT VUndefined]).

(** The [if] chain on [backendResponse.type], inside the [try]. *)
Definition on_response (backendResponse : jsval) : result (list action) :=
  bind (get_prop backendResponse "type") (fun ty =>
    if strict_eqb ty (VStr "ui_instruction") then
      Ok [addMessage assistant (prop backendResponse "data");
          setCurrentInteractionDisabled false]
    else if strict_eqb ty (VStr "final_message")
            || strict_eqb ty (VStr "error_message") then
      Ok [addMessage assistant (text_instruction (prop backendResponse "text"));
          setCurrentInteractionDisabled false;
          setCurrentApiOperation VNull]
    else Ok []).

(** The [catch] block. *)
Definition on_error (e : error) : list action :=
  [addMessage assistant
     (text_instruction (VStr ("Error: " ++ error_message e)));
   setCurrentInteractionDisabled false;
   setCurrentApiOperation VNull].

(** [handleUserInput] from the point where the awaited [fetchApi] settles with
    [r], through [try], [catch] and [finally]. *)
Definition handleUserInput_resume (r : result jsval) : list action :=
  (match bind r on_response with
   | Ok actions => actions
   | Throw e => on_error e
   end)
  ++ [setIsAssistantTyping false].

(** [handleDynamicInputSubmit]. *)
Definition handleDynamicInputSubmit (parameterName value : jsval) : list action :=
  handleUserInput (mkInput (VStr "parameter") value VUndefined parameterName).

Definition catalog_error_text (e : error) : string :=
  "Failed to load available API operations: " ++ error_message e.

(** [fetchOps] of the mount effect, before and after its [await]. *)
Definition fetchOps : list action :=
  [setFetchError VNull; callFetchApi Api.OPERATIONS_ENDPOINT VUndefined].

Definition fetchOps_resume (r : result jsval) : list action :=
  match r with
  | Ok ops => [setAvailableOperations (if truthy ops then ops else VArr [])]
  | Throw e =>
      [setFetchError (VStr (catalog_error_text e));
       addMessage assistant (text_instruction (VStr (catalog_error_text e)))]
  end.

Definition greeting : action :=
  addMessage assistant
    (text_instruction
       (VStr "Hello! Please select an API operation above to begin.")).

(** The entries of the catalog as the selector maps over them (a catalog that
    is not an array is outside the model: the selector fails on it). *)
Definition operations (st : State) : list jsval :=
  match availableOperations st with
  | VArr items => items
  | _ => []
  end.

(** The [disabled] prop the component passes to the selector. *)
Definition selector_disabled (st : State) : bool :=
  isAssistantTyping st || currentInteractionDisabled st
  || truthy (currentApiOperation st).

(** The reply types the [if] chain of [handleUserInput] names. *)
Definition terminal_type (ty : jsval) : bool :=
  strict_eqb ty (VStr "final_message") || strict_eqb ty (VStr "error_message").

Definition known_type (ty : jsval) : bool :=
  strict_eqb ty (VStr "ui_instruction") || terminal_type ty.

Definition scenario_C : jsval :=
  VObj [("type", VStr "final_message"); ("text", VStr "Pet created")].

Definition collecting_state : State :=
  mkState [mkMessage user (VStr "Create Pet")] true true
    (VArr []) VNull (VObj [("path", VStr "/pets"); ("method", VStr "post")]).

Definition pathless_intent : Input :=
  mkInput (VStr "intent") (VStr "Ping")
    (VObj [("path", VUndefined); ("method", VStr "get")]) VUndefined.

(** An intent with no path whose label is an object with an own [toString]
    key. *)
Definition unconvertible_intent : Input :=
  mkInput (VStr "intent") (VObj [("toString", VNum (NFin false "1" 0))])
    (VObj [("path", VUndefined); ("method", VStr "get")]) VUndefined.

Definition unrecognized_reply : jsval :=
  VObj [("type", VStr "progress"); ("text", VStr "working")].

(** The request body [handleUserInput] sends for [input]. *)
Definition body_of (input : Input) : jsval :=
  if is_intent input then intent_body input
  else if is_parameter input then parameter_body input
  else VUndefined.

Definition short_circuits (input : Input) : bool :=
  is_intent input && unresolved input.

(** The early branch is taken and its template literal throws. *)
Definition aborts (input : Input) : bool :=
  short_circuits input
  && match to_string (value input) with
     | Ok _ => false
     | Throw _ => true
     end.

(** The setters that come before the call, in program order. *)
Definition prelude (input : Input) : list action :=
  ((if is_intent input
    then [addMessage user (value input);
          setCurrentApiOperation (apiDetails input)]
    else [])
   ++ [setIsAssistantTyping true; setCurrentInteractionDisabled true;
       setFetchError VNull])%list.

(** The shapes of the run after the call settles: the append of the reply
    comes first and the unlock after it, or the lock is not touched. *)
Definition appends_then_unlocks (actions : list action) : Prop :=
  exists c rest,
    actions = addMessage assistant c :: setCurrentInteractionDisabled false :: rest
    /\ ~ In (setCurrentInteractionDisabled true) rest.

Definition leaves_lock (actions : list action) : Prop :=
  forall b, ~ In (setCurrentInteractionDisabled b) actions.

(** [null], or a value that is truthy. *)
Definition null_or_truthy (v : jsval) : Prop :=
  v = VNull \/ truthy v = true.

Definition cells_invariant (st : State) : Prop :=
  null_or_truthy (currentApiOperation st) /\ null_or_truthy (fetchError st).

End ChatInterface.

(** ** The component in its environment: user events and settling calls *)
Module System.

Import OperationSelector ChatInterface.

(** Who awaits an outstanding call of [fetchApi]. *)
Inductive continuation : Type := ResumeFetchOps | ResumeHandleUserInput.

Record Pending : Type := mkPending {
  url : string;
  requestBody : jsval;
  resume : continuation
}.

Record World : Type := mkWorld {
  ui : State;
  inflight : list Pending
}.

Fixpoint pendings (k : continuation) (actions : list action) : list Pending :=
  match actions with
  | [] => []
  | callFetchApi u b :: rest => mkPending u b k :: pendings k rest
  | _ :: rest => pendings k rest
  end.

(** A handler runs: its setters update the state, its call is outstanding. *)
Definition dispatch (k : continuation) (actions : list action) (w : World)
  : World :=
  mkWorld (run actions (ui w)) (inflight w ++ pendings k actions).

(** What happens to the mounted component.  A control that carries the
    [disabled] attribute dispatches no event, so the change of the selector is
    guarded by its [disabled] attribute and the [onSubmit] of a widget by the
    [disabled] prop that all its controls carry. *)
Inductive event : Type :=
| SelectOperation (opId : string)
| WidgetSubmit (parameterName value : jsval)
| Settle (i : nat) (fetched : result Api.Response).

(** After the mount effects: [fetchOps] awaits the catalog and the greeting
    is in the log. *)
Definition mounted : World :=
  dispatch ResumeFetchOps (fetchOps ++ [greeting]) (mkWorld initial_state []).

Definition settle (p : Pending) (r : result jsval) : list action :=
  match resume p with
  | ResumeFetchOps => fetchOps_resume r
  | ResumeHandleUserInput => handleUserInput_resume r
  end.

Definition step (w : World) (ev : event) : World :=
  match ev with
  | SelectOperation opId =>
      if select_disabled (operations (ui w)) (selector_disabled (ui w)) then w
      else
        match handleChange (operations (ui w)) opId with
        | Some input => dispatch ResumeHandleUserInput (handleUserInput input) w
        | None => w
        end
  | WidgetSubmit parameterName value =>
      if currentInteractionDisabled (ui w) then w
      else dispatch ResumeHandleUserInput
             (handleDynamicInputSubmit parameterName value) w
  | Settle i fetched =>
      match nth_error (inflight w) i with
      | None => w
      | Some p =>
          mkWorld
            (run (settle p (Api.outcome (Api.fetchApi fetched))) (ui w))
            (remove_at i (inflight w))
      end
  end.

Definition steps (w : World) (evs : list event) : World :=
  fold_left step evs w.

Definition is_chat (p : Pending) : bool :=
  match resume p with
  | ResumeHandleUserInput => true
  | ResumeFetchOps => false
  end.

(** The chat round trips that are outstanding. *)
Definition outstanding (w : World) : list Pending :=
  filter is_chat (inflight w).

(** At most one chat round trip is outstanding, and input is locked while one
    is. *)
Definition lock_invariant (w : World) : Prop :=
  (List.length (outstanding w) <= 1)%nat
  /\ (outstanding w <> [] -> currentInteractionDisabled (ui w) = true).

(** The catalog of scenario A and the events that bind its operation. *)
Definition catalog_A : jsval :=
  VArr [VObj [("id", VStr "op1"); ("method", VStr "post");
              ("path", VStr "/pets"); ("summary", VStr "Create Pet")]].

(** The reply of scenario A: a text widget for [name]. *)
Definition name_instruction : jsval :=
  VObj [("type", VStr "ui_instruction");
        ("data",
         VObj [("prompt", VStr "What is the name?");
               ("ui_component",
                VObj [("type", VStr "text_input");
                      ("parameter_name", VStr "name")])])].

Definition bind_op1 : list event :=
  [Settle 0 (Ok (Api.mkResponse 200 (Ok catalog_A))); SelectOperation "op1"].

Definition catalog_down : list event :=
  [Settle 0 (Throw (TypeError "Failed to fetch"))].

End System.

(** ** Rendering *)
Module Render.

Import ChatInterface.

Inductive widget : Type :=
| ChatTextInput | ChatDropdown | ChatNumberInput | ChatCheckbox
| ChatDatePickerNative | ChatJsonInput | ChatDateTimePicker | ChatTagsInput.

(** The elements the render functions return, as they are handed to React
    (what React makes of them is [Page.mount] below): a paragraph with its
    children, a paragraph showing [JSON.stringify] of a value, a widget with
    its [componentDetails] and [disabled] props (its [onSubmit] is always
    [handleDynamicInputSubmit]), and a [div] whose children may be [null]. *)
Inductive element : Type :=
| P (className : string) (children : list jsval)
| PJson (className : string) (v : jsval)
| Widget (w : widget) (componentDetails : jsval) (disabled : bool)
| Div (children : list (option element)).

Definition invalid_marker : element :=
  P "text-red-500 italic" [VStr "[Invalid Message Format]"].

Definition unsupported_marker (componentType : jsval) : element :=
  P "text-sm text-red-500 italic"
    [VStr "(Unsupported UI type: "; componentType; VStr ")"].

Definition known_types : list (string * widget) :=
  [("text_input", ChatTextInput); ("dropdown", ChatDropdown);
   ("number_input", ChatNumberInput); ("checkbox", ChatCheckbox);
   ("date_picker", ChatDatePickerNative); ("json_input", ChatJsonInput);
   ("datetime_picker", ChatDateTimePicker); ("tags_input", ChatTagsInput)].

Fixpoint assoc {A} (k : string) (l : list (string * A)) : option A :=
  match l with
  | [] => None
  | (k', v) :: rest => if String.eqb k k' then Some v else assoc k rest
  end.

(** The [case] labels of the [switch]: strict equality with a string. *)
Definition widget_of (componentType : jsval) : option widget :=
  match componentType with
  | VStr s => assoc s known_types
  | _ => None
  end.

Definition renderDynamicComponent (currentInteractionDisabled : bool)
  (instructionContent : jsval) : result (option element) :=
  if is_string instructionContent then
    Ok (Some (P EmptyString [instructionContent]))
  else if negb (truthy instructionContent) then Ok (Some invalid_marker)
  else
    bind (get_prop instructionContent "prompt") (fun prompt =>
    bind (get_prop instructionContent "ui_component") (fun ui_component =>
      if negb (truthy prompt) && negb (truthy ui_component) then
        Ok (Some invalid_marker)
      else
        let promptElement :=
          if truthy prompt then Some (P "mb-1" [prompt]) else None in
        if negb (truthy ui_component) then Ok promptElement
        else
          bind (get_prop ui_component "type") (fun componentType =>
            let inputElement :=
              match widget_of componentType with
              | Some w => Widget w ui_component currentInteractionDisabled
              | None => unsupported_marker componentType
              end in
            Ok (Some (Div [promptElement; Some inputElement]))))).

(** The bubble of one message of the log. *)
Definition render_message (currentInteractionDisabled : bool) (msg : Message)
  : result (option element) :=
  match sender msg with
  | assistant =>
      if typeof_object (content msg) then
        renderDynamicComponent currentInteractionDisabled (content msg)
      else Ok (Some (P "text-sm" [content msg]))
  | user =>
      if typeof_object (content msg) then Ok (Some (PJson "text-sm" (content msg)))
      else Ok (Some (P "text-sm" [content msg]))
  end.

(** What an identifier is bound to: a value the render can inspect, or a
    function, component or module object. *)
Inductive binding : Type :=
| Data (v : jsval)
| Code.

Definition binding_truthy (b : binding) : bool :=
  match b with
  | Data v => truthy v
  | Code => true
  end.

Definition code (names : list string) : list (string * binding) :=
  map (fun n => (n, Code)) names.

(** The imports and the top-level declarations of the module. *)
Definition module_scope : list (string * binding) :=
  code ["React"; "useState"; "useEffect"; "useCallback"; "useRef";
        "DatePicker"; "formatDate"; "parseISO";
        "Send"; "Bot"; "User"; "Loader2"; "CheckSquare"; "Calendar"; "Code";
        "Tags"; "Clock"; "List"]
  ++ [("API_BASE_URL", Data (VStr Api.API_BASE_URL));
      ("CHAT_ENDPOINT", Data (VStr Api.CHAT_ENDPOINT));
      ("OPERATIONS_ENDPOINT", Data (VStr Api.OPERATIONS_ENDPOINT));
      ("USER_ID", Data (VStr Api.USER_ID))]
  ++ code ["logger"; "fetchApi"; "ChatTextInput"; "ChatDropdown";
           "ChatNumberInput"; "ChatCheckbox"; "ChatDatePickerNative";
           "ChatJsonInput"; "ChatDateTimePicker"; "ChatTagsInput";
           "OperationSelector"; "ChatInterface"].

(** The globals of the host that the module names. *)
Definition host_scope : list (string * binding) :=
  code ["console"; "fetch"; "Date"; "Math"; "JSON"; "Array"; "String"; "Error";
        "isNaN"; "parseFloat"; "alert"].

Definition message_value (msg : Message) : jsval :=
  VObj [("sender", VStr (match sender msg with
                         | user => "user"
                         | assistant => "assistant"
                         end));
        ("content", content msg)].

(** The declarations of the body of [ChatInterface], with the values of the
    state cells in [st]. *)
Definition component_scope (st : State) : list (string * binding) :=
  [("messages", Data (VArr (map message_value (messages st))));
   ("setMessages", Code);
   ("isAssistantTyping", Data (VBool (isAssistantTyping st)));
   ("setIsAssistantTyping", Code);
   ("currentInteractionDisabled", Data (VBool (currentInteractionDisabled st)));
   ("setCurrentInteractionDisabled", Code);
   ("availableOperations", Data (availableOperations st));
   ("setAvailableOperations", Code);
   ("fetchError", Data (fetchError st));
   ("setFetchError", Code);
   ("currentApiOperation", Data (currentApiOperation st));
   ("setCurrentApiOperation", Code)]
  ++ code ["chatEndRef"; "scrollToBottom"; "addMessage"; "handleUserInput";
           "handleDynamicInputSubmit"; "renderDynamicComponent"].

Definition scope (st : State) : list (string * binding) :=
  component_scope st ++ module_scope ++ host_scope.

(** Evaluating an identifier: a name bound nowhere throws. *)
Definition read (st : State) (name : string) : result binding :=
  match assoc name (scope st) with
  | Some b => Ok b
  | None => Throw (ReferenceError (name ++ " is not defined"))
  end.

(** [{fetchError && !isLoading && <p className="error">{fetchError}</p>}]:
    the paragraph, or nothing when an operand is falsy. *)
Definition banner (st : State) : result (option element) :=
  bind (read st "fetchError") (fun fe =>
    if binding_truthy fe then
      bind (read st "isLoading") (fun loading =>
        if negb (binding_truthy loading) then
          bind (read st "fetchError") (fun fe' =>
            match fe' with
            | Data v => Ok (Some (P "error" [v]))
            | Code => Ok None
            end)
        else Ok None)
    else Ok None).

(** What [ChatInterface] returns: the props of the selector, the banner, the
    bubbles of the log and whether the typing indicator shows. *)
Record View : Type := mkView {
  selector_operations : jsval;
  selector_disabled_prop : bool;
  selector_currentSelection : jsval;
  error_banner : option element;
  bubbles : list (Sender * option element);
  typing_indicator : bool
}.

Definition render_bubble (st : State) (msg : Message)
  : result (Sender * option element) :=
  bind (render_message (currentInteractionDisabled st) msg) (fun e =>
    Ok (sender msg, e)).

Definition render (st : State) : result View :=
  bind (banner st) (fun b =>
    bind (Api.map_result (render_bubble st) (messages st)) (fun bs =>
      Ok (mkView (availableOperations st) (selector_disabled st)
            (currentApiOperation st) b bs (isAssistantTyping st)))).

(** The prompt paragraph of an instruction, if its prompt is usable. *)
Definition prompt_element (instructionContent : jsval) : option element :=
  if truthy (prop instructionContent "prompt")
  then Some (P "mb-1" [prop instructionContent "prompt"])
  else None.

Definition scenario_F : jsval :=
  VObj [("prompt", VNull); ("ui_component", VNull)].

Definition slider_instruction : jsval :=
  VObj [("prompt", VStr "How many?");
        ("ui_component",
         VObj [("type", VStr "slider"); ("parameter_name", VStr "count")])].

End Render.

(** ** What React makes of the elements of the message list *)
Module Page.

Import ChatInterface Render React.

Section Mount.

(** The render of the widget components is a parameter: [render_widget] is
    what the component of a widget renders from its props, or the error its
    render throws. *)
Variable dom : Type.
Variable render_widget : widget -> jsval -> bool -> result dom.

(** What is on the page for an element. *)
Inductive node : Type :=
| Paragraph (className : string) (texts : list string)
| JsonParagraph (className : string) (v : jsval)
| Block (children : list node)
| Component (d : dom).

(** React mounts an element: the children in document order, a [null] child
    giving nothing; the first child that throws ends the render. *)
Fixpoint mount (e : element) : result node :=
  match e with
  | P className children =>
      bind (children_texts children) (fun texts =>
        Ok (Paragraph className texts))
  | PJson className v => Ok (JsonParagraph className v)
  | Widget w componentDetails disabled =>
      bind (render_widget w componentDetails disabled) (fun d =>
        Ok (Component d))
  | Div children =>
      bind ((fix mount_children (l : list (option element))
               : result (list node) :=
               match l with
               | [] => Ok []
               | None :: rest => mount_children rest
               | Some child :: rest =>
                   bind (mount child) (fun n =>
                     bind (mount_children rest) (fun ns => Ok (n :: ns)))
               end) children)
        (fun ns => Ok (Block ns))
  end.

Definition mount_content (content : option element) : result (option node) :=
  match content with
  | Some e => bind (mount e) (fun n => Ok (Some n))
  | None => Ok None
  end.

(** The message list on the page: the banner and the bubbles of the log. *)
Definition mount_messages (v : View)
  : result (option node * list (option node)) :=
  bind (mount_content (error_banner v)) (fun b =>
    bind (Api.map_result (fun bubble => mount_content (snd bubble)) (bubbles v))
      (fun bs => Ok (b, bs))).

(** The message list of the component in the state [st]: the render of
    [ChatInterface], then React on what it returned. *)
Definition message_list (st : State)
  : result (option node * list (option node)) :=
  bind (render st) mount_messages.

(** The paragraph of the prompt of an instruction on the page: none for a
    prompt that is not usable. *)
Definition prompt_nodes (instructionContent : jsval) : result (list node) :=
  if truthy (prop instructionContent "prompt") then
    bind (child_texts (prop instructionContent "prompt")) (fun texts =>
      Ok [Paragraph "mb-1" texts])
  else Ok [].

End Mount.

Arguments Paragraph {dom} className texts.
Arguments JsonParagraph {dom} className v.
Arguments Block {dom} children.
Arguments Component {dom} d.

(** Widgets that render nothing of their own: a stand-in where no widget is
    on the page. *)
Definition plain_widgets : widget -> jsval -> bool -> result unit :=
  fun _ _ _ => Ok tt.

(** A reply that announces an instruction and brings none. *)
Definition dataless_reply : jsval :=
  VObj [("type", VStr "ui_instruction")].

(** An instruction whose widget has an object for its type. *)
Definition object_type_instruction : jsval :=
  VObj [("ui_component",
         VObj [("type", VObj [("a", VNum (NFin false "1" 0))])])].

End Page.

From Stdlib Require Import DecimalPos.

(** ** Vocabulary for the further properties of [fetchApi] *)
Module ApiText.

Import Api.

(** The text [fetchApi] starts [errorDetail] with. *)
Definition default_text (response : Response) : string :=
  "API Error: " ++ string_of_Z (status response).

(** Whether [ToString] returns for a value: no object with an own
    [toString] key is met on the way. *)
Fixpoint printable (v : jsval) : bool :=
  match v with
  | VObj fields => negb (has_key "toString" fields)
  | VArr items => forallb (fun x => nullish x || printable x) items
  | _ => true
  end.

(** The text [ToString] returns, where it returns. *)
Definition text (v : jsval) : string :=
  match to_string v with
  | Ok s => s
  | Throw _ => EmptyString
  end.

(** Induction over values that reaches the items of arrays. *)
Fixpoint jsval_items_ind (P : jsval -> Prop)
  (Hundefined : P VUndefined) (Hnull : P VNull)
  (Hbool : forall b, P (VBool b)) (Hnum : forall n, P (VNum n))
  (Hstr : forall s, P (VStr s))
  (Harr : forall items, Forall P items -> P (VArr items))
  (Hobj : forall fields, P (VObj fields)) (v : jsval) : P v :=
  match v with
  | VUndefined => Hundefined
  | VNull => Hnull
  | VBool b => Hbool b
  | VNum n => Hnum n
  | VStr s => Hstr s
  | VArr items =>
      Harr items
        ((fix all (l : list jsval) : Forall P l :=
            match l with
            | [] => Forall_nil P
            | x :: rest =>
                Forall_cons x
                  (jsval_items_ind P Hundefined Hnull Hbool Hnum Hstr Harr
                     Hobj x)
                  (all rest)
            end) items)
  | VObj fields => Hobj fields
  end.

(** A [loc] on which [err.loc?.join('.')] throws: a value that is neither
    absent nor an array (it has no [join] to call), or an array with an item
    that does not print. *)
Definition bad_loc (loc : jsval) : bool :=
  negb (nullish loc) && (negb (isArray loc) || negb (printable loc)).

(** An item of an array [detail] on which the arrow function throws: [null]
    (reading [loc] of it), a bad [loc], or a [msg] that does not print. *)
Definition bad_item (item : jsval) : bool :=
  nullish item || bad_loc (prop item "loc")
  || negb (printable (prop item "msg")).

(** The text [join] returns, where it returns. *)
Definition joined (sep : string) (items : list jsval) : string :=
  match join sep items with
  | Ok s => s
  | Throw _ => EmptyString
  end.

(** The line the arrow function prints for an item that is not bad. *)
Definition line_text (item : jsval) : string :=
  (match prop item "loc" with
   | VArr path => joined "." path
   | _ => "undefined"
   end)
  ++ ": " ++ text (prop item "msg").

End ApiText.

(** ** Vocabulary for the further properties of the controller *)
Module Flow.

Import OperationSelector ChatInterface System.

(** The messages a run of actions appends, in order. *)
Fixpoint appended (actions : list action) : list Message :=
  match actions with
  | [] => []
  | addMessage s c :: rest => mkMessage s c :: appended rest
  | _ :: rest => appended rest
  end.

(** Whether a chat round trip is outstanding. *)
Definition busy (w : World) : bool :=
  match outstanding w with
  | [] => false
  | _ :: _ => true
  end.

(** The calls for the catalog that are outstanding. *)
Definition catalog_calls (w : World) : list Pending :=
  filter (fun p => negb (is_chat p)) (inflight w).

(** The two request bodies of the chat endpoint. *)
Definition intent_request (body : jsval) : Prop :=
  prop body "type" = VStr "intent"
  /\ truthy (prop body "target_api_path") = true
  /\ truthy (prop body "target_api_method") = true.

Definition parameter_request (body : jsval) : Prop :=
  prop body "type" = VStr "parameter_response".

Definition well_formed (p : Pending) : Prop :=
  match resume p with
  | ResumeFetchOps =>
      url p = Api.OPERATIONS_ENDPOINT /\ requestBody p = VUndefined
  | ResumeHandleUserInput =>
      url p = Api.CHAT_ENDPOINT
      /\ prop (requestBody p) "user_id" = VStr Api.USER_ID
      /\ (intent_request (requestBody p) \/ parameter_request (requestBody p))
  end.

(** [null], or an operation with a path and a method that are truthy. *)
Definition usable_operation (v : jsval) : Prop :=
  v = VNull
  \/ (truthy (prop v "path") = true /\ truthy (prop v "method") = true).

(** What the [catch] block of [handleUserInput] is entered with: the message
    of the error [fetchApi] threw, or of the [TypeError] of reading [type] of
    a reply that is [null] (a 204) or [undefined]. *)
Definition failure_text (r : result jsval) : option string :=
  match r with
  | Throw e => Some (error_message e)
  | Ok VNull => Some "Cannot read properties of null (reading 'type')"
  | Ok VUndefined => Some "Cannot read properties of undefined (reading 'type')"
  | Ok _ => None
  end.

(** A settled call whose outcome [handleUserInput] has a branch for: an
    error, a [null] reply, or a reply of one of the three known types. *)
Definition recognised (fetched : result Api.Response) : bool :=
  match Api.outcome (Api.fetchApi fetched) with
  | Throw _ => true
  | Ok v => nullish v || known_type (prop v "type")
  end.

(** The event does not settle a chat call with an outcome outside those. *)
Definition recognised_at (w : World) (ev : event) : bool :=
  match ev with
  | Settle i fetched =>
      match nth_error (inflight w) i with
      | Some p => if is_chat p then recognised fetched else true
      | None => true
      end
  | _ => true
  end.

Fixpoint recognised_run (w : World) (evs : list event) : bool :=
  match evs with
  | [] => true
  | ev :: rest => recognised_at w ev && recognised_run (step w ev) rest
  end.

(** The event is not a selection that takes the early branch of
    [handleUserInput] with a label its template literal cannot convert: an
    object with an own [toString] key, or an array that holds one.  (No such
    label can be picked: the selector shows the label in its [<option>], and
    React refuses an object there.) *)
Definition label_converts_at (w : World) (ev : event) : bool :=
  match ev with
  | SelectOperation opId =>
      select_disabled (operations (ui w)) (selector_disabled (ui w))
      || match handleChange (operations (ui w)) opId with
         | Some input => negb (aborts input)
         | None => true
         end
  | _ => true
  end.

Fixpoint labels_convert (w : World) (evs : list event) : bool :=
  match evs with
  | [] => true
  | ev :: rest => label_converts_at w ev && labels_convert (step w ev) rest
  end.

(** The typing flag, and the lock, follow the outstanding round trip. *)
Definition typing_invariant (w : World) : Prop :=
  lock_invariant w /\ isAssistantTyping (ui w) = busy w.

Definition release_invariant (w : World) : Prop :=
  lock_invariant w /\ currentInteractionDisabled (ui w) = busy w.

(** A conversation of scenario A to C, every reply recognised. *)
Definition full_flow : list event :=
  (bind_op1
   ++ [Settle 0 (Ok (Api.mkResponse 200 (Ok name_instruction)));
       WidgetSubmit (VStr "name") (VStr "Rex");
       Settle 0 (Ok (Api.mkResponse 200 (Ok scenario_C)))])%list.

Definition no_content : Api.Response :=
  Api.mkResponse 204 (Throw (SyntaxError "Unexpected end of JSON input")).

(** The events of [bind_op1] followed by a reply of an unrecognized type. *)
Definition stuck_events : list event :=
  (bind_op1
   ++ [Settle 0 (Ok (Api.mkResponse 200 (Ok unrecognized_reply)))])%list.

End Flow.

(** ** Vocabulary for the further properties of the selector *)
Module Catalog.

Import OperationSelector ChatInterface System.

(** A catalog entry whose [id] can be read and is not the string [opId]. *)
Definition other_entry (opId : string) (op : jsval) : bool :=
  negb (nullish op) && negb (strict_eqb (prop op "id") (VStr opId)).

(** What [handleChange] passes on for the entry [op]. *)
Definition intent_of (op : jsval) : Input :=
  mkInput (VStr "intent") (prop op "summary")
    (VObj [("path", prop op "path"); ("method", prop op "method")])
    VUndefined.

Definition pets_catalog : list jsval :=
  [VObj [("id", VStr "op0"); ("method", VStr "get");
         ("path", VStr "/pets"); ("summary", VStr "List Pets")];
   VObj [("id", VStr "op1"); ("method", VStr "post");
         ("path", VStr "/pets"); ("summary", VStr "Create Pet")];
   VObj [("id", VStr "op1"); ("method", VStr "put");
         ("path", VStr "/pets"); ("summary", VStr "Shadowed")]].

End Catalog.

(** ** Vocabulary for the further properties of the widgets *)
Module TagFacts.

(** A tag the widget itself commits: a string or a number. *)
Definition is_scalar (v : jsval) : bool :=
  match v with
  | VStr _ | VNum _ => true
  | _ => false
  end.

Definition is_number (v : jsval) : bool :=
  match v with
  | VNum _ => true
  | _ => false
  end.

(** Tags that are strings and numbers, none of them twice. *)
Definition clean (tags : list jsval) : Prop :=
  Forall (fun v => is_scalar v = true) tags /\ NoDup tags.

Definition number_tags : jsval :=
  VObj [("type", VStr "tags_input"); ("parameter_name", VStr "sizes");
        ("item_type", VStr "number");
        ("default", VArr [VNum (NFin false "5" 0); VNum (NFin false "75" (-1))])].

End TagFacts.

(** ** Vocabulary for the further properties of the render *)
Module RenderFacts.

Import ChatInterface Render.

(** The widgets of an element with their props, in document order. *)
Fixpoint widgets (e : element) : list (widget * jsval * bool) :=
  match e with
  | Widget w componentDetails disabled => [(w, componentDetails, disabled)]
  | Div children =>
      flat_map (fun c => match c with
                         | Some e' => widgets e'
                         | None => []
                         end) children
  | P _ _ | PJson _ _ => []
  end.

Definition bubble_widgets (b : Sender * option element)
  : list (widget * jsval * bool) :=
  match snd b with
  | Some e => widgets e
  | None => []
  end.

(** The widgets of all the bubbles of a view. *)
Definition view_widgets (v : View) : list (widget * jsval * bool) :=
  flat_map bubble_widgets (bubbles v).

Definition checkbox_instruction : jsval :=
  VObj [("prompt", VStr "Notify?");
        ("ui_component",
         VObj [("type", VStr "checkbox");
               ("parameter_name", VStr "send_notification")])].

Definition two_widget_state : State :=
  mkState
    [mkMessage assistant
       (VObj [("ui_component",
               VObj [("type", VStr "text_input");
                     ("parameter_name", VStr "name")])]);
     mkMessage user (VStr "Rex");
     mkMessage assistant checkbox_instruction]
    true true (VArr []) VNull
    (VObj [("path", VStr "/pets"); ("method", VStr "post")]).

End RenderFacts.

(** ** The number widget *)
Module ChatNumberInput.

Definition parameter_name (componentDetails : jsval) : jsval :=
  prop componentDetails "parameter_name".

(** The text the input starts with: [String(componentDetails.default)], or
    the empty text when there is no default; the conversion can throw. *)
Definition initial (componentDetails : jsval) : result string :=
  match prop componentDetails "default" with
  | VUndefined => Ok EmptyString
  | d => to_string d
  end.

(** [handleSubmit] with the text [value] in the input: the number it parses
    to, or the text itself when [parseFloat] gives [NaN]. *)
Definition handleSubmit (componentDetails : jsval) (value : string)
  : list ui_effect :=
  [PreventDefault;
   OnSubmit (parameter_name componentDetails)
     (match parseFloat value with
      | Some numValue => VNum numValue
      | None => VStr value
      end)].

End ChatNumberInput.

(** ** Vocabulary for the properties of numbers in text *)
Module NumberText.

Fixpoint all_chars (p : ascii -> bool) (s : string) : bool :=
  match s with
  | EmptyString => true
  | String c rest => p c && all_chars p rest
  end.

Definition starts_nonzero (s : string) : bool :=
  match s with
  | EmptyString => false
  | String c _ => negb (is_zero_char c)
  end.

(** The digits of a number in canonical form: decimal digits, at least one,
    the first and the last of them not [0]. *)
Definition canonical_digits (ds : string) : bool :=
  all_chars is_digit ds && starts_nonzero ds && starts_nonzero (string_rev ds).

(** A number as [parseFloat] and JSON produce it. *)
Definition canonical (n : jsnum) : bool :=
  match n with
  | NFin _ ds _ => canonical_digits ds
  | NZero | NInf _ => true
  end.

(** A character that ends a decimal literal with no fraction and no
    exponent. *)
Definition ends_number (c : ascii) : bool :=
  negb (is_digit c) && negb (Ascii.eqb c ".")
  && negb (Ascii.eqb c "e") && negb (Ascii.eqb c "E").

(** The sign [num_to_string] prints in front of the digits. *)
Definition sign_text (neg : bool) : string :=
  if neg then "-" else EmptyString.

(** The text after the digits of a printed number: nothing, or an exponent. *)
Definition no_fraction_left (rest : string) : Prop :=
  rest = EmptyString \/ exists r, rest = String "e" r.

Definition price_widget : jsval :=
  VObj [("type", VStr "number_input"); ("parameter_name", VStr "price");
        ("default", VNum (NFin true "1995" (-5)))].

End NumberText.

(** ** Sanity checks of the built-ins and of [fetchApi] *)

Example parseFloat_12 : parseFloat "12" = Some (NFin false "12" 0).
Proof. reflexivity. Qed.

Example parseFloat_abc : parseFloat "abc" = None.
Proof. reflexivity. Qed.

Example parseFloat_prefix : parseFloat "12.50e1x" = Some (NFin false "125" 0).
Proof. reflexivity. Qed.

Example num_to_string_frac :
  option_map num_to_string (parseFloat "-0.0012") = Some "-0.0012".
Proof. reflexivity. Qed.

Example trim_both : trim "  ab c  " = "ab c".
Proof. reflexivity. Qed.

Example fetchApi_scenario_E :
  Api.outcome (Api.fetchApi (Ok Api.scenario_E))
  = Throw (Error "body.priority: must be >=1").
Proof. reflexivity. Qed.

Example fetchApi_no_detail :
  Api.outcome (Api.fetchApi (Ok (Api.mkResponse 500 (Ok (VObj [])))))
  = Throw (Error "API Error: 500").
Proof. reflexivity. Qed.

Example fetchApi_loc_index :
  Api.error_detail
    (VObj [("detail",
            VArr [VObj [("loc", VArr [VStr "body"; VNum (NFin false "3" 0)]);
                        ("msg", VStr "bad")];
                  VObj [("msg", VStr "worse")]])])
    VNull
  = VStr "body.3: bad; undefined: worse".
Proof. reflexivity. Qed.

(** An action that is none of the listed ones. *)
Ltac absent H :=
  simpl in H; repeat (destruct H as [H|H]; [discriminate|]); contradiction.

(** ** Conversion to a string, and what React shows *)
Section Conversion.

Import ApiText React.

Lemma to_string_array (items : list jsval) :
  to_string (VArr items)
  = bind (item_texts items) (fun parts => Ok (String.concat "," parts)).
Proof. reflexivity. Qed.

Lemma item_texts_printable (items : list jsval) :
  Forall (fun v => to_string v
                   = if printable v then Ok (text v) else Throw cannot_convert)
    items ->
  (forallb (fun x => nullish x || printable x) items = true ->
   exists parts, item_texts items = Ok parts)
  /\ (forallb (fun x => nullish x || printable x) items = false ->
      item_texts items = Throw cannot_convert).
Proof.
  induction 1 as [|x items Hx _ [IHok IHbad]]; simpl.
  - split; [eauto|discriminate].
  - destruct (nullish x) eqn:Hn; simpl.
    + split; intros H.
      * destruct (IHok H) as [parts ->]. simpl. eauto.
      * now rewrite (IHbad H).
    + rewrite Hx. destruct (printable x); simpl.
      * split; intros H.
        -- destruct (IHok H) as [parts ->]. simpl. eauto.
        -- now rewrite (IHbad H).
      * split; [discriminate|reflexivity].
Qed.

(** [ToString] returns exactly for the printable values. *)
Lemma to_string_printable (v : jsval) :
  to_string v
  = if printable v then Ok (text v) else Throw cannot_convert.
Proof.
  induction v using jsval_items_ind; try reflexivity.
  - destruct (item_texts_printable items H) as [Hok Hbad].
    unfold text. rewrite to_string_array. simpl printable.
    destruct (forallb (fun x => nullish x || printable x) items).
    + destruct (Hok eq_refl) as [parts ->]. reflexivity.
    + now rewrite (Hbad eq_refl).
  - unfold text. simpl. now destruct (has_key "toString" fields).
Qed.

Lemma join_printable (sep : string) (items : list jsval) :
  join sep items
  = if printable (VArr items) then Ok (joined sep items)
    else Throw cannot_convert.
Proof.
  pose proof (to_string_printable (VArr items)) as H.
  rewrite to_string_array in H. unfold joined, join.
  destruct (item_texts items) as [parts|e]; simpl in *.
  - destruct (forallb _ items); [reflexivity|discriminate].
  - destruct (forallb _ items); [discriminate|exact H].
Qed.

Lemma child_texts_cons (x : jsval) (items : list jsval) :
  child_texts (VArr (x :: items))
  = bind (child_texts x) (fun texts =>
      bind (child_texts (VArr items)) (fun more => Ok (texts ++ more)%list)).
Proof. reflexivity. Qed.

Lemma children_texts_cons (x : jsval) (rest : list jsval) :
  children_texts (x :: rest)
  = bind (child_texts x) (fun texts =>
      bind (children_texts rest) (fun more => Ok (texts ++ more)%list)).
Proof. reflexivity. Qed.

Lemma items_shown_printable (items : list jsval) (shown : list string) :
  Forall (fun v => forall texts, child_texts v = Ok texts -> printable v = true)
    items ->
  child_texts (VArr items) = Ok shown ->
  forallb (fun x => nullish x || printable x) items = true.
Proof.
  intros Hall. revert shown.
  induction Hall as [|x items Hx _ IH]; intros shown H; [reflexivity|].
  rewrite child_texts_cons in H.
  destruct (child_texts x) as [texts|e] eqn:Htexts; cbn [bind] in H;
    [|discriminate H].
  destruct (child_texts (VArr items)) as [more|e] eqn:Hmore; cbn [bind] in H;
    [|discriminate H].
  simpl. rewrite (Hx _ eq_refl), orb_true_r. simpl. now apply (IH more).
Qed.

(** What React shows as a child converts to a string. *)
Lemma shown_is_printable (v : jsval) (shown : list string) :
  child_texts v = Ok shown -> printable v = true.
Proof.
  revert shown. induction v using jsval_items_ind; intros shown Hs;
    try reflexivity.
  - now apply (items_shown_printable items shown).
  - discriminate.
Qed.

End Conversion.

(** ** [fetchApi] *)
Section FetchApi.

Import Api ChatInterface.

Lemma item_texts_strings (l : list string) : item_texts (map VStr l) = Ok l.
Proof.
  induction l as [|s l IH]; simpl; [reflexivity|]. now rewrite IH.
Qed.

Lemma join_strings (sep : string) (l : list string) :
  join sep (map VStr l) = Ok (String.concat sep l).
Proof. unfold join. now rewrite item_texts_strings. Qed.

Lemma detail_line_of_pair (item : jsval) (p : list string * string) :
  is_pair item p -> detail_line item = Ok (pair_line p).
Proof.
  intros (fields & -> & Hloc & Hmsg).
  unfold detail_line, loc_join, pair_line. simpl.
  rewrite Hloc, Hmsg. simpl. rewrite join_strings. reflexivity.
Qed.

Lemma detail_lines_of_pairs (items : list jsval)
  (pairs : list (list string * string)) :
  Forall2 is_pair items pairs ->
  map_result detail_line items = Ok (map pair_line pairs).
Proof.
  induction 1 as [|item p items pairs Hp _ IH]; simpl.
  - reflexivity.
  - now rewrite (detail_line_of_pair _ _ Hp), IH.
Qed.

Lemma error_detail_of_pairs (errorData default : jsval) (items : list jsval)
  (pairs : list (list string * string)) :
  prop errorData "detail" = VArr items ->
  Forall2 is_pair items pairs ->
  error_detail errorData default = VStr (joined_detail pairs).
Proof.
  intros Hd Hp. unfold error_detail.
  assert (Hg : get_prop errorData "detail" = Ok (VArr items)).
  { destruct errorData; simpl in Hd; try discriminate.
    unfold get_prop, prop. now rewrite Hd. }
  rewrite Hg. simpl. now rewrite (detail_lines_of_pairs _ _ Hp).
Qed.

Lemma fetchApi_throws_joined_detail (response : Response) (errorData : jsval)
  (items : list jsval) (pairs : list (list string * string)) :
  ok response = false ->
  json response = Ok errorData ->
  prop errorData "detail" = VArr items ->
  Forall2 is_pair items pairs ->
  outcome (fetchApi (Ok response)) = Throw (Error (joined_detail pairs)).
Proof.
  intros Hok Hjson Hd Hp.
  unfold fetchApi. rewrite Hok, Hjson. simpl.
  now rewrite (error_detail_of_pairs _ _ _ _ Hd Hp).
Qed.

(** C3 (as stated, refuted): the text surfaced for the 422 of scenario E is
    not the joined pairs alone: the bubble the controller appends reads
    [Error: ] before them. *)
Lemma scenario_E_is_surfaced_behind_a_prefix :
  messages (run (handleUserInput_resume (outcome (fetchApi (Ok scenario_E))))
              collecting_state)
  = [mkMessage user (VStr "Create Pet");
     mkMessage assistant
       (text_instruction (VStr "Error: body.priority: must be >=1"))].
Proof. reflexivity. Qed.

(** C3 (amended): for a response whose status is outside 2xx and whose body
    carries a [detail] that is an array of [{loc, msg}] pairs, the error
    [fetchApi] throws has as its message the pairs printed as the location
    joined with dots, a colon and the message, joined with [; ]; what is
    surfaced is that message behind a prefix: the chat controller appends
    [Error: ] followed by it, the catalog fetch stores and appends
    [Failed to load available API operations: ] followed by it; and a response
    of status 204 is returned as [null] without its body being read. *)
Theorem detail_is_surfaced_behind_a_prefix (response : Response) :
  (forall errorData items pairs,
      ok response = false ->
      json response = Ok errorData ->
      prop errorData "detail" = VArr items ->
      Forall2 is_pair items pairs ->
      outcome (fetchApi (Ok response)) = Throw (Error (joined_detail pairs))
      /\ (forall st,
             messages
               (run (handleUserInput_resume (outcome (fetchApi (Ok response))))
                  st)
             = (messages st
                ++ [mkMessage assistant
                      (text_instruction
                         (VStr ("Error: " ++ joined_detail pairs)))])%list)
      /\ (forall st,
             let st' :=
               run (fetchOps_resume (outcome (fetchApi (Ok response)))) st in
             fetchError st'
             = VStr ("Failed to load available API operations: "
                     ++ joined_detail pairs)
             /\ messages st'
                = (messages st
                   ++ [mkMessage assistant
                         (text_instruction
                            (VStr ("Failed to load available API operations: "
                                   ++ joined_detail pairs)))])%list))
  /\ (status response = 204%Z ->
      fetchApi (Ok response) = mkRun false (Ok VNull)).
Proof.
  split.
  - intros errorData items pairs Hok Hjson Hd Hp.
    rewrite (fetchApi_throws_joined_detail _ _ _ _ Hok Hjson Hd Hp).
    repeat split.
  - intros Hs. unfold fetchApi, ok. now rewrite Hs.
Qed.

Lemma detail_is_surfaced_behind_a_prefix_witness :
  (outcome (fetchApi (Ok scenario_E))
   = Throw (Error "body.priority: must be >=1")
   /\ (forall st,
          messages
            (run (handleUserInput_resume (outcome (fetchApi (Ok scenario_E))))
               st)
          = (messages st
             ++ [mkMessage assistant
                   (text_instruction
                      (VStr "Error: body.priority: must be >=1"))])%list)
   /\ (forall st,
          let st' :=
            run (fetchOps_resume (outcome (fetchApi (Ok scenario_E)))) st in
          fetchError st'
          = VStr "Failed to load available API operations: body.priority: must be >=1"
          /\ messages st'
             = (messages st
                ++ [mkMessage assistant
                      (text_instruction
                         (VStr "Failed to load available API operations: body.priority: must be >=1"))])%list))
  /\ fetchApi (Ok (mkResponse 204 (Throw (SyntaxError "Unexpected end of JSON input"))))
     = mkRun false (Ok VNull).
Proof.
  split.
  - apply (proj1 (detail_is_surfaced_behind_a_prefix scenario_E)
             (VObj [("detail",
                     VArr [VObj [("loc", VArr [VStr "body"; VStr "priority"]);
                                 ("msg", VStr "must be >=1")]])])
             [VObj [("loc", VArr [VStr "body"; VStr "priority"]);
                    ("msg", VStr "must be >=1")]]
             [(["body"; "priority"], "must be >=1")]).
    + reflexivity.
    + reflexivity.
    + reflexivity.
    + constructor; [|constructor].
      eexists. split; [reflexivity|]. split; reflexivity.
  - apply (proj2 (detail_is_surfaced_behind_a_prefix
                    (mkResponse 204
                       (Throw (SyntaxError "Unexpected end of JSON input"))))).
    reflexivity.
Defined.

End FetchApi.

(** ** The controller: what one handler run does to the state *)
Section Controller.

Import OperationSelector ChatInterface.

Lemma run_app (a b : list action) (st : State) :
  run (a ++ b) st = run b (run a st).
Proof. apply fold_left_app. Qed.

Lemma calls_app (a b : list action) : calls (a ++ b) = (calls a ++ calls b)%list.
Proof. apply filter_app. Qed.

Lemma resume_terminal (backendResponse : jsval) :
  terminal_type (prop backendResponse "type") = true ->
  handleUserInput_resume (Ok backendResponse)
  = [addMessage assistant (text_instruction (prop backendResponse "text"));
     setCurrentInteractionDisabled false;
     setCurrentApiOperation VNull;
     setIsAssistantTyping false].
Proof.
  intros Hty. unfold handleUserInput_resume, on_response. simpl.
  destruct backendResponse; simpl in *; try discriminate.
  unfold terminal_type in Hty.
  destruct (strict_eqb (lookup "type" fields) (VStr "ui_instruction")) eqn:Hui.
  - destruct (lookup "type" fields); simpl in *; try discriminate.
    apply String.eqb_eq in Hui. subst s. discriminate.
  - now rewrite Hty.
Qed.

(** C4: a reply of type [final_message] or [error_message] appends exactly one
    assistant message that holds the reply's text and no widget, clears the
    bound operation and unlocks input, after which the selector is enabled
    again. *)
Theorem final_reply_ends_flow (st : State) (backendResponse : jsval) :
  terminal_type (prop backendResponse "type") = true ->
  let st' := run (handleUserInput_resume (Ok backendResponse)) st in
  messages st'
  = (messages st
     ++ [mkMessage assistant
           (VObj [("prompt", prop backendResponse "text");
                  ("ui_component", VNull)])])%list
  /\ currentApiOperation st' = VNull
  /\ currentInteractionDisabled st' = false
  /\ isAssistantTyping st' = false
  /\ selector_disabled st' = false
  /\ calls (handleUserInput_resume (Ok backendResponse)) = [].
Proof.
  intros Hty. rewrite (resume_terminal _ Hty). cbn. repeat split.
Qed.

Lemma final_reply_ends_flow_witness :
  let st' := run (handleUserInput_resume (Ok scenario_C)) collecting_state in
  messages st'
  = [mkMessage user (VStr "Create Pet");
     mkMessage assistant
       (VObj [("prompt", VStr "Pet created"); ("ui_component", VNull)])]
  /\ currentApiOperation st' = VNull
  /\ currentInteractionDisabled st' = false
  /\ isAssistantTyping st' = false
  /\ selector_disabled st' = false
  /\ calls (handleUserInput_resume (Ok scenario_C)) = [].
Proof.
  apply (final_reply_ends_flow collecting_state scenario_C). reflexivity.
Defined.

Lemma map_result_In {A B} (f : A -> result B) (l : list A) (out : list B)
  (a : A) :
  Api.map_result f l = Ok out -> In a l -> exists b, f a = Ok b.
Proof.
  revert out. induction l as [|x l IH]; intros out H Hin; [contradiction|].
  simpl in H. destruct (f x) as [b|e] eqn:Hx; simpl in H; [|discriminate H].
  destruct (Api.map_result f l) as [bs|e]; simpl in H; [|discriminate H].
  destruct Hin as [<-|Hin]; [eauto|]. now apply (IH bs).
Qed.

Lemma find_by_id_In (ops : list jsval) (opId : string) (op : jsval) :
  find_by_id ops opId = Ok op -> truthy op = true -> In op ops.
Proof.
  induction ops as [|x ops IH]; simpl; intros H Ht.
  - injection H as <-. discriminate Ht.
  - destruct (get_prop x "id") as [id|e]; simpl in H; [|discriminate H].
    destruct (strict_eqb id (VStr opId)).
    + injection H as <-. now left.
    + right. now apply IH.
Qed.

(** An option on the page shows the summary of its entry. *)
Lemma option_shows_summary (op : jsval) (shown : list string) :
  option_texts op = Ok shown ->
  exists texts, React.child_texts (prop op "summary") = Ok texts.
Proof.
  unfold option_texts, option_children. intros H.
  destruct (nullish op) eqn:Hn.
  { destruct op; try discriminate Hn; discriminate H. }
  assert (Hg : forall k, get_prop op k = Ok (prop op k))
    by (intros k; destruct op; try discriminate Hn; reflexivity).
  rewrite !Hg in H. cbn [bind] in H.
  destruct (call_toUpperCase (prop op "method")) as [m|e]; cbn [bind] in H;
    [|discriminate H].
  destruct (React.element_key (prop op "id")) as [k|e]; cbn [bind] in H;
    [|discriminate H].
  rewrite children_texts_cons in H. cbn [React.child_texts bind] in H.
  rewrite children_texts_cons in H.
  destruct (React.child_texts (prop op "summary")) as [texts|e];
    [eauto|discriminate H].
Qed.

(** Every label the selector passes on, having shown its options, converts
    to a string. *)
Lemma shown_label_converts
  (ops : list jsval) (opId : string) (input : Input)
  (shown : list (list string)) :
  options ops = Ok shown ->
  handleChange ops opId = Some input ->
  exists label, to_string (value input) = Ok label.
Proof.
  unfold options, handleChange. intros Hs Hc.
  destruct (find_by_id ops opId) as [op|e] eqn:Hf; [|discriminate Hc].
  destruct (truthy op) eqn:Ht; [|discriminate Hc].
  injection Hc as <-. cbn [value].
  destruct (map_result_In _ _ _ op Hs (find_by_id_In _ _ _ Hf Ht))
    as [texts Htexts].
  destruct (option_shows_summary _ _ Htexts) as [summary Hsummary].
  rewrite to_string_printable, (shown_is_printable _ _ Hsummary). eauto.
Qed.

(** The early branch with a label that does not convert: the handler ends at
    the template literal, after the echo and the lock, with nothing appended
    for the assistant and no call made. *)
Example unconvertible_label_ends_handler :
  handleUserInput unconvertible_intent
  = [addMessage user (value unconvertible_intent);
     setCurrentApiOperation (apiDetails unconvertible_intent);
     setIsAssistantTyping true; setCurrentInteractionDisabled true;
     setFetchError VNull].
Proof. reflexivity. Qed.

(** C5: an intent whose operation has no usable path or method makes no
    network call; after the echo of the intent it appends one assistant error
    message, and it leaves input unlocked, no operation bound and the typing
    flag off.  The message quotes the label of the intent converted to a
    string, so the statement is for a label that converts; the label of every
    intent the selector passes on does: the selector has shown it in an
    [<option>], where React refuses an object, and every other value
    converts. *)
Theorem unresolved_intent_short_circuits (st : State) (input : Input) :
  is_intent input = true ->
  unresolved input = true ->
  (forall label,
      to_string (value input) = Ok label ->
      let st' := run (handleUserInput input) st in
      calls (handleUserInput input) = []
      /\ messages st'
         = (messages st
            ++ [mkMessage user (value input);
                mkMessage assistant
                  (text_instruction (VStr (unmapped_text label)))])%list
      /\ currentInteractionDisabled st' = false
      /\ currentApiOperation st' = VNull
      /\ isAssistantTyping st' = false)
  /\ (forall ops opId shown,
         options ops = Ok shown ->
         handleChange ops opId = Some input ->
         exists label, to_string (value input) = Ok label).
Proof.
  intros Hi Hu. split.
  - intros label Hl. unfold handleUserInput. rewrite Hi, Hu, Hl. cbn.
    rewrite <- app_assoc. repeat split.
  - intros ops opId shown. apply shown_label_converts.
Qed.

Lemma unresolved_intent_short_circuits_witness :
  let st' := run (handleUserInput pathless_intent) initial_state in
  calls (handleUserInput pathless_intent) = []
  /\ messages st'
     = [mkMessage user (VStr "Ping");
        mkMessage assistant
          (text_instruction
             (VStr "Sorry, I couldn't map 'Ping' to a known API action. Please select from the list."))]
  /\ currentInteractionDisabled st' = false
  /\ currentApiOperation st' = VNull
  /\ isAssistantTyping st' = false.
Proof.
  apply (proj1 (unresolved_intent_short_circuits initial_state pathless_intent
                  eq_refl eq_refl) "Ping").
  reflexivity.
Defined.

(** A reply whose [type] is none of the three the [if] chain names runs the
    empty [else] branch: only [finally] acts. *)
Lemma resume_unrecognized (backendResponse : jsval) :
  nullish backendResponse = false ->
  known_type (prop backendResponse "type") = false ->
  handleUserInput_resume (Ok backendResponse) = [setIsAssistantTyping false].
Proof.
  intros Hn Hk. unfold handleUserInput_resume, on_response. simpl.
  unfold known_type, terminal_type in Hk.
  apply orb_false_iff in Hk as [Hui Hterm].
  destruct backendResponse; try discriminate; simpl in *;
    rewrite ?Hui, ?Hterm; reflexivity.
Qed.

(** C1 (what the code does): after a reply of an unrecognized type no message
    is appended, the operation stays bound and input stays locked; the selector
    stays disabled as well. *)
Theorem unrecognized_reply_leaves_flow_locked :
  let st' := run (handleUserInput_resume (Ok unrecognized_reply)) collecting_state in
  messages st' = messages collecting_state
  /\ currentApiOperation st' = currentApiOperation collecting_state
  /\ currentInteractionDisabled st' = true
  /\ selector_disabled st' = true.
Proof. cbn. repeat split. Qed.

End Controller.

(** ** The component in its environment: locking *)
Section Locking.

Import OperationSelector ChatInterface System.

Lemma handleUserInput_calling (input : Input) :
  short_circuits input = false ->
  handleUserInput input
  = (prelude input ++ [callFetchApi Api.CHAT_ENDPOINT (body_of input)])%list.
Proof.
  unfold short_circuits, handleUserInput, prelude, body_of.
  destruct (is_intent input); simpl.
  - intros ->. reflexivity.
  - intros _. destruct (is_parameter input); reflexivity.
Qed.

Lemma prelude_order (input : Input) :
  calls (prelude input) = []
  /\ In (setCurrentInteractionDisabled true) (prelude input)
  /\ ~ In (setCurrentInteractionDisabled false) (prelude input)
  /\ (is_intent input = true -> In (addMessage user (value input)) (prelude input)).
Proof.
  unfold prelude.
  destruct (is_intent input); simpl;
    (split; [reflexivity|]); (split; [tauto|]);
    (split; [intros H; absent H|]);
    intros H; try discriminate; tauto.
Qed.

Lemma locked_after (input : Input) (st : State) :
  currentInteractionDisabled (run (handleUserInput input) st)
  = negb (short_circuits input) || aborts input.
Proof.
  unfold aborts, short_circuits, handleUserInput.
  destruct (is_intent input); simpl.
  - destruct (unresolved input); [|reflexivity].
    destruct (to_string (value input)); reflexivity.
  - destruct (is_parameter input); reflexivity.
Qed.

Lemma pendings_handleUserInput (k : continuation) (input : Input) :
  pendings k (handleUserInput input)
  = if short_circuits input then []
    else [mkPending Api.CHAT_ENDPOINT (body_of input) k].
Proof.
  unfold short_circuits, handleUserInput, body_of.
  destruct (is_intent input); simpl.
  - destruct (unresolved input); [|reflexivity].
    destruct (to_string (value input)); reflexivity.
  - destruct (is_parameter input); reflexivity.
Qed.

Lemma resume_order (r : result jsval) :
  appends_then_unlocks (handleUserInput_resume r)
  \/ leaves_lock (handleUserInput_resume r).
Proof.
  unfold handleUserInput_resume.
  assert (Herr : forall e,
             appends_then_unlocks (on_error e ++ [setIsAssistantTyping false])).
  { intros e. do 2 eexists. split; [reflexivity|].
    intros H. absent H. }
  destruct r as [backendResponse|e]; simpl; [|left; apply Herr].
  unfold on_response.
  destruct (get_prop backendResponse "type") as [ty|e] eqn:Hty; simpl;
    [|left; apply Herr].
  destruct (strict_eqb ty (VStr "ui_instruction")).
  - left. do 2 eexists. split; [reflexivity|].
    intros H. absent H.
  - destruct (strict_eqb ty (VStr "final_message")
              || strict_eqb ty (VStr "error_message")).
    + left. do 2 eexists. split; [reflexivity|].
      intros H. absent H.
    + right. intros b H. absent H.
Qed.

Lemma fetchOps_resume_keeps_lock (r : result jsval) (st : State) :
  currentInteractionDisabled (run (fetchOps_resume r) st)
  = currentInteractionDisabled st.
Proof. destruct r; reflexivity. Qed.

Lemma filter_remove_at_false {A} (f : A -> bool) (i : nat) (l : list A) (p : A) :
  nth_error l i = Some p -> f p = false ->
  filter f (remove_at i l) = filter f l.
Proof.
  revert i. induction l as [|x l IH]; intros [|i] H Hf; simpl in *;
    try discriminate.
  - injection H as ->. now rewrite Hf.
  - now rewrite (IH i H Hf).
Qed.

Lemma filter_remove_at_true {A} (f : A -> bool) (i : nat) (l : list A) (p : A) :
  nth_error l i = Some p -> f p = true ->
  S (List.length (filter f (remove_at i l))) = List.length (filter f l).
Proof.
  revert i. induction l as [|x l IH]; intros [|i] H Hf; simpl in *;
    try discriminate.
  - injection H as ->. now rewrite Hf.
  - destruct (f x); simpl; now rewrite (IH i H Hf).
Qed.

Lemma unlocked_idle (w : World) :
  lock_invariant w -> currentInteractionDisabled (ui w) = false ->
  outstanding w = [].
Proof.
  intros [_ H] Hu. destruct (outstanding w) eqn:Ho; [reflexivity|].
  rewrite H in Hu; [discriminate|]. discriminate.
Qed.

Lemma invariant_dispatch (w : World) (input : Input) :
  lock_invariant w -> currentInteractionDisabled (ui w) = false ->
  lock_invariant (dispatch ResumeHandleUserInput (handleUserInput input) w).
Proof.
  intros Hinv Hu. pose proof (unlocked_idle w Hinv Hu) as Hidle.
  unfold lock_invariant, outstanding, dispatch in *. simpl.
  rewrite filter_app, Hidle, pendings_handleUserInput, locked_after. simpl.
  destruct (short_circuits input); simpl; split; auto; congruence.
Qed.

Lemma invariant_step (w : World) (ev : event) :
  lock_invariant w -> lock_invariant (step w ev).
Proof.
  intros Hinv. destruct ev as [opId|parameterName value|i fetched]; simpl.
  - destruct (select_disabled _ _) eqn:Hd; [assumption|].
    destruct (handleChange _ opId) as [input|]; [|assumption].
    apply invariant_dispatch; [assumption|].
    unfold select_disabled, selector_disabled in Hd.
    apply orb_false_iff in Hd as [Hd _].
    apply orb_false_iff in Hd as [Hd _].
    apply orb_false_iff in Hd as [_ Hd]. exact Hd.
  - destruct (currentInteractionDisabled (ui w)) eqn:Hd; [assumption|].
    now apply invariant_dispatch.
  - destruct (nth_error (inflight w) i) as [p|] eqn:Hp; [|assumption].
    destruct Hinv as [Hlen Hlock].
    unfold lock_invariant, outstanding in *. simpl.
    destruct (is_chat p) eqn:Hc.
    + pose proof (filter_remove_at_true is_chat i _ p Hp Hc) as Hs.
      destruct (filter is_chat (remove_at i (inflight w))); simpl in *.
      * split; [lia|congruence].
      * lia.
    + rewrite (filter_remove_at_false is_chat i _ p Hp Hc).
      split; [assumption|]. intros Hne.
      unfold settle, is_chat in *.
      destruct (resume p); [|discriminate].
      rewrite fetchOps_resume_keeps_lock. now apply Hlock.
Qed.

Lemma invariant_steps (evs : list event) (w : World) :
  lock_invariant w -> lock_invariant (steps w evs).
Proof.
  revert w. induction evs as [|ev evs IH]; intros w H; simpl.
  - exact H.
  - apply IH. now apply invariant_step.
Qed.

Lemma invariant_mounted : lock_invariant mounted.
Proof.
  assert (H : outstanding mounted = []) by reflexivity.
  unfold lock_invariant. rewrite H. simpl. split; [lia|congruence].
Qed.

Lemma locked_ignores (w : World) (ev : event) :
  currentInteractionDisabled (ui w) = true ->
  match ev with Settle _ _ => False | _ => True end ->
  step w ev = w.
Proof.
  intros Hl Hev. destruct ev; simpl; try contradiction.
  - unfold select_disabled, selector_disabled. rewrite Hl.
    now rewrite !orb_true_r.
  - now rewrite Hl.
Qed.

(** C2: in [handleUserInput] the echo of the user's message (for an intent)
    and the lock come before the call of [fetchApi], which is the last action
    before the [await], and nothing before it unlocks; when the call settles
    the reply or the error is appended first and input unlocked after it;
    whatever the events, input is locked while a chat round trip is
    outstanding and at most one is; and while input is locked a widget
    submission or an operation selection changes nothing and calls nothing. *)
Theorem input_locked_during_round_trip :
  (forall input,
      short_circuits input = false ->
      exists pre,
        handleUserInput input
        = (pre ++ [callFetchApi Api.CHAT_ENDPOINT (body_of input)])%list
        /\ calls pre = []
        /\ In (setCurrentInteractionDisabled true) pre
        /\ ~ In (setCurrentInteractionDisabled false) pre
        /\ (is_intent input = true -> In (addMessage user (value input)) pre))
  /\ (forall r,
         appends_then_unlocks (handleUserInput_resume r)
         \/ leaves_lock (handleUserInput_resume r))
  /\ (forall evs,
         let w := steps mounted evs in
         (List.length (outstanding w) <= 1)%nat
         /\ (outstanding w <> [] -> currentInteractionDisabled (ui w) = true))
  /\ (forall w parameterName value opId,
         currentInteractionDisabled (ui w) = true ->
         step w (WidgetSubmit parameterName value) = w
         /\ step w (SelectOperation opId) = w).
Proof.
  repeat split.
  - intros input Hs. exists (prelude input).
    split; [now apply handleUserInput_calling|apply prelude_order].
  - apply resume_order.
  - apply (invariant_steps evs mounted invariant_mounted).
  - apply (invariant_steps evs mounted invariant_mounted).
  - now apply locked_ignores.
  - now apply locked_ignores.
Qed.

Lemma input_locked_during_round_trip_witness :
  let w := steps mounted bind_op1 in
  step w (WidgetSubmit (VStr "name") (VStr "Rex")) = w
  /\ step w (SelectOperation "op1") = w.
Proof.
  apply (proj2 (proj2 (proj2 input_locked_during_round_trip))).
  reflexivity.
Defined.

End Locking.

(** ** What the state cells hold in every reachable world *)
Section Reachable.

Import OperationSelector ChatInterface System.

Lemma handleChange_input (ops : list jsval) (opId : string) (input : Input) :
  handleChange ops opId = Some input ->
  is_intent input = true /\ truthy (apiDetails input) = true.
Proof.
  unfold handleChange. destruct (find_by_id ops opId) as [op|]; [|discriminate].
  destruct (truthy op); [|discriminate].
  intros H. injection H as <-. split; reflexivity.
Qed.

Lemma cells_handleUserInput (input : Input) (st : State) :
  cells_invariant st ->
  (is_intent input = true -> truthy (apiDetails input) = true) ->
  cells_invariant (run (handleUserInput input) st).
Proof.
  intros [Hop Hfe] Hin. unfold handleUserInput, cells_invariant, null_or_truthy.
  destruct (is_intent input); simpl.
  - destruct (unresolved input); simpl; auto.
    destruct (to_string (value input)); simpl; auto.
  - destruct (is_parameter input); simpl; auto.
Qed.

Lemma cells_handleUserInput_resume (r : result jsval) (st : State) :
  cells_invariant st -> cells_invariant (run (handleUserInput_resume r) st).
Proof.
  intros [Hop Hfe]. unfold handleUserInput_resume, cells_invariant, null_or_truthy.
  destruct r as [resp|e]; simpl; auto.
  unfold on_response.
  destruct (get_prop resp "type") as [ty|e]; simpl; auto.
  destruct (strict_eqb ty (VStr "ui_instruction")); simpl; auto.
  destruct (strict_eqb ty (VStr "final_message")
            || strict_eqb ty (VStr "error_message")); simpl; auto.
Qed.

Lemma cells_fetchOps_resume (r : result jsval) (st : State) :
  cells_invariant st -> cells_invariant (run (fetchOps_resume r) st).
Proof.
  intros [Hop Hfe]. unfold cells_invariant, null_or_truthy.
  destruct r as [ops|e]; simpl; auto.
Qed.

Lemma cells_step (w : World) (ev : event) :
  cells_invariant (ui w) -> cells_invariant (ui (step w ev)).
Proof.
  intros H. destruct ev as [opId|parameterName value|i fetched]; simpl.
  - destruct (select_disabled _ _); [assumption|].
    destruct (handleChange _ opId) as [input|] eqn:Hc; [|assumption].
    unfold dispatch; cbn [ui]. apply cells_handleUserInput; [assumption|].
    intros _. apply (handleChange_input _ _ _ Hc).
  - destruct (currentInteractionDisabled (ui w)); [assumption|].
    unfold dispatch, handleDynamicInputSubmit; cbn [ui].
    apply cells_handleUserInput; [assumption|]. discriminate.
  - destruct (nth_error (inflight w) i) as [p|]; [|assumption].
    cbn [ui]. unfold settle. destruct (resume p).
    + now apply cells_fetchOps_resume.
    + now apply cells_handleUserInput_resume.
Qed.

Lemma cells_steps (evs : list event) (w : World) :
  cells_invariant (ui w) -> cells_invariant (ui (steps w evs)).
Proof.
  revert w. induction evs as [|ev evs IH]; intros w H; simpl.
  - exact H.
  - apply IH. now apply cells_step.
Qed.

Lemma cells_mounted : cells_invariant (ui mounted).
Proof. split; left; reflexivity. Qed.

Example scenario_A_intent_sent :
  inflight (steps mounted bind_op1)
  = [mkPending Api.CHAT_ENDPOINT
       (VObj [("user_id", VStr "ui_user_enh"); ("type", VStr "intent");
              ("intent_string", VStr "Create Pet");
              ("target_api_path", VStr "/pets");
              ("target_api_method", VStr "post")])
       ResumeHandleUserInput]
  /\ map content (messages (ui (steps mounted bind_op1)))
     = [text_instruction
          (VStr "Hello! Please select an API operation above to begin.");
        VStr "Create Pet"].
Proof. split; reflexivity. Qed.

Example scenario_B_parameter_sent :
  let w := steps (steps mounted bind_op1)
             [Settle 0 (Ok (Api.mkResponse 200 (Ok name_instruction)));
              WidgetSubmit (VStr "name") (VStr "Rex")] in
  inflight w
  = [mkPending Api.CHAT_ENDPOINT
       (VObj [("user_id", VStr "ui_user_enh");
              ("type", VStr "parameter_response");
              ("parameter_name", VStr "name");
              ("parameter_value", VStr "Rex")])
       ResumeHandleUserInput]
  /\ currentInteractionDisabled (ui w) = true.
Proof. split; reflexivity. Qed.

Example scenario_E_bubble :
  let w := steps (steps mounted bind_op1) [Settle 0 (Ok Api.scenario_E)] in
  map content (skipn 2 (messages (ui w)))
  = [text_instruction (VStr "Error: body.priority: must be >=1")]
  /\ currentApiOperation (ui w) = VNull
  /\ currentInteractionDisabled (ui w) = false.
Proof. repeat split; reflexivity. Qed.

(** C6: in every reachable world in which an operation is bound or input is
    locked, a selection in the operation selector is ignored: the world is
    unchanged, so no message is appended and no call is made; selecting the
    bound operation again is such a selection. *)
Theorem selection_ignored_while_bound_or_locked
  (evs : list event) (opId : string) :
  let w := steps mounted evs in
  currentApiOperation (ui w) <> VNull
  \/ currentInteractionDisabled (ui w) = true ->
  step w (SelectOperation opId) = w
  /\ messages (ui (step w (SelectOperation opId))) = messages (ui w)
  /\ inflight (step w (SelectOperation opId)) = inflight w.
Proof.
  intros w H.
  assert (Hd : selector_disabled (ui w) = true).
  { unfold selector_disabled. destruct H as [H|H].
    - destruct (cells_steps evs mounted cells_mounted) as [[Hn|Ht] _].
      + contradiction.
      + fold w in Ht. rewrite Ht. now rewrite !orb_true_r.
    - rewrite H. now rewrite orb_true_r. }
  assert (Hs : step w (SelectOperation opId) = w).
  { simpl. unfold select_disabled. now rewrite Hd. }
  rewrite Hs. repeat split.
Qed.

Lemma selection_ignored_while_bound_or_locked_witness :
  let w := steps mounted bind_op1 in
  step w (SelectOperation "op1") = w
  /\ messages (ui (step w (SelectOperation "op1"))) = messages (ui w)
  /\ inflight (step w (SelectOperation "op1")) = inflight w.
Proof.
  apply (selection_ignored_while_bound_or_locked bind_op1 "op1").
  left. discriminate.
Defined.

End Reachable.

(** ** The tag-list widget *)
Section TagList.

Import ChatTagsInput.

(** C7 (as stated, refuted): with a numeric item type, a token that is not a
    number is not discarded; it stays in the staging input, next to the
    unchanged tag list. *)
Lemma rejected_token_stays_staged :
  handleKeyDown integer_tags ","
    (handleInputChange "abc" (initial integer_tags))
  = (mkState "abc" [],
     [PreventDefault;
      Alert ("Tag " ++ dquote ++ "abc" ++ dquote ++ " is not a valid integer.")]).
Proof. reflexivity. Qed.

Example duplicate_token_is_cleared :
  handleKeyDown integer_tags "," (mkState "12" [VNum (NFin false "12" 0)])
  = (mkState EmptyString [VNum (NFin false "12" 0)], [PreventDefault]).
Proof. reflexivity. Qed.

Lemma handleKeyDown_commit (componentDetails : jsval) (key : string) (st : State) :
  is_delimiter key = true ->
  is_empty (trim (inputValue st)) = false ->
  handleKeyDown componentDetails key st
  = match coerce componentDetails (trim (inputValue st)) with
    | None =>
        (st, [PreventDefault;
              Alert (invalid_tag_alert (trim (inputValue st))
                       (item_type componentDetails))])
    | Some v =>
        if includes (tags st) v
        then (mkState EmptyString (tags st), [PreventDefault])
        else (mkState EmptyString (tags st ++ [v]),
              [PreventDefault;
               OnSubmit (parameter_name componentDetails)
                 (VArr (tags st ++ [v]))])
    end.
Proof.
  intros Hk Hne. unfold handleKeyDown, is_delimiter, coerce in *.
  rewrite Hk, Hne. simpl.
  destruct (is_numeric (item_type componentDetails)).
  - destruct (parseFloat (trim (inputValue st))); simpl; [|reflexivity].
    destruct (includes (tags st) (VNum j)); reflexivity.
  - destruct (includes (tags st) (VStr (trim (inputValue st)))); reflexivity.
Qed.

(** C7 (amended): the staged token is trimmed before anything else; with a
    numeric item type a token that does not parse to a number raises an alert
    and changes nothing, neither the tag list nor the staging input, and
    submits nothing; a token whose coerced value is already a tag clears the
    staging input and does nothing else; any other token is appended as its
    coerced value and the whole new sequence is submitted at once; removing a
    tag, and Backspace on an empty staging input while there are tags, submit
    the whole new sequence at once as well. *)
Theorem tag_list_commits_and_submits
  (componentDetails : jsval) (key : string) (st : State) (i : nat) :
  let token := trim (inputValue st) in
  let name := parameter_name componentDetails in
  (is_delimiter key = true -> is_empty token = false ->
   (coerce componentDetails token = None ->
    is_numeric (item_type componentDetails) = true
    /\ handleKeyDown componentDetails key st
       = (st, [PreventDefault;
               Alert (invalid_tag_alert token (item_type componentDetails))]))
   /\ (forall v,
          coerce componentDetails token = Some v ->
          includes (tags st) v = true ->
          handleKeyDown componentDetails key st
          = (mkState EmptyString (tags st), [PreventDefault]))
   /\ (forall v,
          coerce componentDetails token = Some v ->
          includes (tags st) v = false ->
          handleKeyDown componentDetails key st
          = (mkState EmptyString (tags st ++ [v]),
             [PreventDefault; OnSubmit name (VArr (tags st ++ [v]))])))
  /\ removeTag componentDetails i st
     = (mkState (inputValue st) (remove_at i (tags st)),
        [OnSubmit name (VArr (remove_at i (tags st)))])
  /\ (key = "Backspace" -> inputValue st = EmptyString -> tags st <> [] ->
      handleKeyDown componentDetails key st
      = (mkState EmptyString (removelast (tags st)),
         [PreventDefault; OnSubmit name (VArr (removelast (tags st)))])).
Proof.
  intros token name. split; [|split].
  - intros Hk Hne.
    pose proof (handleKeyDown_commit componentDetails key st Hk Hne) as H.
    fold token in H. repeat split.
    + unfold coerce in H0.
      destruct (is_numeric (item_type componentDetails)); [reflexivity|discriminate].
    + now rewrite H, H0.
    + intros v Hv Hin. now rewrite H, Hv, Hin.
    + intros v Hv Hin. now rewrite H, Hv, Hin.
  - reflexivity.
  - intros -> Hin Ht. unfold handleKeyDown. rewrite Hin. simpl.
    destruct (tags st) as [|t ts]; [contradiction|reflexivity].
Qed.

Lemma tag_list_commits_and_submits_witness :
  handleKeyDown integer_tags ","
    (handleInputChange " 12" (initial integer_tags))
  = (mkState EmptyString [VNum (NFin false "12" 0)],
     [PreventDefault;
      OnSubmit (VStr "ids") (VArr [VNum (NFin false "12" 0)])]).
Proof.
  apply (proj1 (tag_list_commits_and_submits integer_tags ","
                  (handleInputChange " 12" (initial integer_tags)) 0)
           eq_refl eq_refl).
  - reflexivity.
  - reflexivity.
Defined.

End TagList.

(** ** The structured (JSON) widget *)
Section JsonInput.

Import ChatJsonInput.

Variable JSON_parse : string -> result jsval.

(** C9: a submit of the JSON widget always calls the submit callback, once:
    with [null] for an input that is empty after trimming, with the parsed
    document for an input that parses, and with the raw text, after a warning,
    for any other input; the alert of the branch that would not call it never
    shows. *)
Theorem json_submit_never_blocked (componentDetails : jsval) (st : State) :
  let effects := snd (handleSubmit JSON_parse componentDetails st) in
  let name := parameter_name componentDetails in
  filter submitted effects
  = [OnSubmit name (expected_value JSON_parse (value st))]
  /\ ~ In (Alert must_fix_alert) effects
  /\ (is_empty (trim (value st)) = true ->
      effects = [PreventDefault; OnSubmit name VNull])
  /\ (forall doc,
         is_empty (trim (value st)) = false ->
         JSON_parse (value st) = Ok doc ->
         effects = [PreventDefault; OnSubmit name doc])
  /\ (forall e,
         is_empty (trim (value st)) = false ->
         JSON_parse (value st) = Throw e ->
         effects
         = [PreventDefault;
            ConsoleError ("Invalid JSON submitted: " ++ error_message e);
            Alert warning_alert;
            OnSubmit name (VStr (value st))]).
Proof.
  unfold handleSubmit, read_value, expected_value.
  destruct (is_empty (trim (value st))) eqn:He; simpl.
  - repeat split; try discriminate. intros H. absent H.
  - destruct (JSON_parse (value st)) as [doc|e] eqn:Hp; simpl.
    + repeat split; try discriminate.
      * intros H. absent H.
      * intros doc' _ H. now injection H as ->.
    + repeat split; try discriminate.
      * intros H. absent H.
      * intros e' _ H. now injection H as ->.
Qed.

End JsonInput.

Section JsonInputScenario.

Import ChatJsonInput.

Lemma json_submit_never_blocked_witness :
  snd (handleSubmit toy_parse json_widget (mkState "{oops" true))
  = [PreventDefault;
     ConsoleError "Invalid JSON submitted: Unexpected token";
     Alert warning_alert;
     OnSubmit (VStr "payload") (VStr "{oops")].
Proof.
  apply (proj2 (proj2 (proj2 (proj2
           (json_submit_never_blocked toy_parse json_widget
              (mkState "{oops" true)))))
           (SyntaxError "Unexpected token")); reflexivity.
Defined.

End JsonInputScenario.

(** ** Rendering *)
Section Rendering.

Import ChatInterface System Render ApiText React Page.

Lemma get_prop_truthy (v : jsval) (k : string) :
  truthy v = true -> get_prop v k = Ok (prop v k).
Proof. destruct v; simpl; intros H; try discriminate; reflexivity. Qed.

(** [renderDynamicComponent] returns an element for every argument. *)
Lemma renderDynamicComponent_total (disabled : bool) (instructionContent : jsval) :
  exists e, renderDynamicComponent disabled instructionContent = Ok e.
Proof.
  unfold renderDynamicComponent.
  destruct (is_string instructionContent); [eauto|].
  destruct (truthy instructionContent) eqn:Ht; simpl; [|eauto].
  rewrite !(get_prop_truthy _ _ Ht). simpl.
  destruct (truthy (prop instructionContent "prompt")); simpl;
    destruct (truthy (prop instructionContent "ui_component")) eqn:Hu; simpl;
    eauto; rewrite (get_prop_truthy _ _ Hu); simpl; eauto.
Qed.

Lemma children_texts_one (v : jsval) : children_texts [v] = child_texts v.
Proof.
  rewrite children_texts_cons.
  destruct (child_texts v) as [texts|e]; simpl; [|reflexivity].
  now rewrite app_nil_r.
Qed.

(** The only error [child_texts] throws is React's refusal of an object. *)
Lemma child_texts_throws (v : jsval) (e : error) :
  child_texts v = Throw e -> e = invalid_child.
Proof.
  revert e. induction v using jsval_items_ind; intros e Hv;
    try discriminate Hv.
  - revert e Hv. induction H as [|x items Hx _ IH]; intros e Hv;
      [discriminate Hv|].
    rewrite child_texts_cons in Hv.
    destruct (child_texts x) as [texts|e1]; cbn [bind] in Hv.
    + destruct (child_texts (VArr items)) as [more|e2]; cbn [bind] in Hv;
        [discriminate Hv|].
      injection Hv as <-. now apply IH.
    + injection Hv as <-. now apply Hx.
  - now injection Hv as <-.
Qed.

(** What is not an object (and no array) is a child React shows. *)
Lemma child_texts_scalar (v : jsval) :
  typeof_object v = false -> exists texts, child_texts v = Ok texts.
Proof. destruct v; try discriminate; simpl; eauto. Qed.

Section Mounting.

Variable dom : Type.
Variable render_widget : widget -> jsval -> bool -> result dom.

Lemma mount_paragraph (className : string) (v : jsval) :
  mount dom render_widget (P className [v])
  = bind (child_texts v) (fun texts => Ok (Paragraph className texts)).
Proof. cbn [mount]. now rewrite children_texts_one. Qed.

Lemma mount_unsupported_marker (componentType : jsval) :
  mount dom render_widget (unsupported_marker componentType)
  = bind (child_texts componentType) (fun tag =>
      Ok (Paragraph "text-sm text-red-500 italic"
            ("(Unsupported UI type: " :: tag ++ [")"])%list)).
Proof.
  unfold unsupported_marker. cbn [mount].
  rewrite children_texts_cons. cbn [child_texts bind].
  rewrite children_texts_cons.
  destruct (child_texts componentType) as [tag|e]; reflexivity.
Qed.

(** The page for an unsupported type: the paragraph of the prompt, if any,
    then the marker with the texts of the type between its brackets. *)
Lemma mount_unsupported (instructionContent componentType : jsval) :
  mount dom render_widget
    (Div [prompt_element instructionContent;
          Some (unsupported_marker componentType)])
  = bind (prompt_nodes dom instructionContent) (fun prompt =>
      bind (child_texts componentType) (fun tag =>
        Ok (Block
              (prompt
               ++ [Paragraph "text-sm text-red-500 italic"
                     ("(Unsupported UI type: " :: tag ++ [")"])])%list))).
Proof.
  pose proof (mount_unsupported_marker componentType) as Hm.
  unfold prompt_element, prompt_nodes.
  destruct (truthy (prop instructionContent "prompt")).
  - pose proof (mount_paragraph "mb-1" (prop instructionContent "prompt"))
      as Hp.
    cbn [mount]. cbn [mount] in Hp, Hm. rewrite Hp, Hm.
    destruct (child_texts (prop instructionContent "prompt")) as [texts|e];
      [|reflexivity].
    now destruct (child_texts componentType).
  - cbn [mount]. cbn [mount] in Hm. rewrite Hm.
    now destruct (child_texts componentType).
Qed.

End Mounting.




Example scenario_F_bubble :
  render_message false (mkMessage assistant scenario_F)
  = Ok (Some invalid_marker).
Proof. reflexivity. Qed.

Lemma isLoading_unbound (st : State) : assoc "isLoading" (scope st) = None.
Proof. reflexivity. Qed.

Lemma banner_throws (st : State) :
  truthy (fetchError st) = true ->
  banner st = Throw (ReferenceError "isLoading is not defined").
Proof.
  intros H. unfold banner.
  assert (Hfe : read st "fetchError" = Ok (Data (fetchError st))) by reflexivity.
  rewrite Hfe. simpl. rewrite H. reflexivity.
Qed.

(** C10: the name [isLoading] is bound in no scope of the component; in every
    reachable world whose [fetchError] is not [null] (the catalog fetch has
    failed), and right after any failure of the catalog fetch, the render of
    [ChatInterface] throws the [ReferenceError] of reading that name, while
    with [fetchError] at [null] the banner expression evaluates to nothing. *)
Theorem render_fails_after_catalog_failure :
  (forall st, assoc "isLoading" (scope st) = None)
  /\ (forall evs,
         let st := ui (steps mounted evs) in
         fetchError st <> VNull ->
         render st = Throw (ReferenceError "isLoading is not defined"))
  /\ (forall st e,
         render (run (fetchOps_resume (Throw e)) st)
         = Throw (ReferenceError "isLoading is not defined"))
  /\ (forall st, fetchError st = VNull -> banner st = Ok None).
Proof.
  split; [|split; [|split]].
  - apply isLoading_unbound.
  - intros evs st Hne. unfold render.
    destruct (cells_steps evs mounted cells_mounted) as [_ [Hn|Ht]].
    + contradiction.
    + fold st in Ht. now rewrite (banner_throws st Ht).
  - intros st e. unfold render. rewrite banner_throws; reflexivity.
  - intros st H. unfold banner.
    assert (Hfe : read st "fetchError" = Ok (Data (fetchError st))) by reflexivity.
    rewrite Hfe. simpl. now rewrite H.
Qed.

Lemma render_fails_after_catalog_failure_witness :
  render (ui (steps mounted catalog_down))
  = Throw (ReferenceError "isLoading is not defined").
Proof.
  apply (proj1 (proj2 render_fails_after_catalog_failure) catalog_down).
  intros H. vm_compute in H. discriminate.
Defined.

Example failed_catalog_banner_text :
  fetchError (ui (steps mounted catalog_down))
  = VStr "Failed to load available API operations: Failed to fetch".
Proof. reflexivity. Qed.

End Rendering.

(** ** Further properties of [fetchApi] *)
Section FetchApiText.

Import Api ApiText.

Lemma detail_line_good (item : jsval) :
  bad_item item = false -> detail_line item = Ok (line_text item).
Proof.
  unfold bad_item, bad_loc, detail_line, loc_join, line_text. intros H.
  apply orb_false_iff in H as [H Hmsg]. apply orb_false_iff in H as [Hn Hloc].
  apply negb_false_iff in Hmsg.
  assert (Hg : forall k, get_prop item k = Ok (prop item k)).
  { intros k. destruct item; simpl in *; try discriminate; reflexivity. }
  rewrite !Hg. cbn [bind].
  rewrite (to_string_printable (prop item "msg")), Hmsg.
  destruct (prop item "loc") as [| | | | |path|];
    cbn [nullish isArray negb andb orb] in Hloc;
    try discriminate; try reflexivity.
  apply negb_false_iff in Hloc.
  cbn [nullish bind]. rewrite join_printable, Hloc. reflexivity.
Qed.

Lemma detail_line_bad (item : jsval) :
  bad_item item = true -> exists e, detail_line item = Throw e.
Proof.
  unfold bad_item, bad_loc, detail_line, loc_join. intros H.
  destruct (nullish item) eqn:Hn.
  { destruct item; try discriminate; simpl; eauto. }
  assert (Hg : forall k, get_prop item k = Ok (prop item k)).
  { intros k. destruct item; simpl in *; try discriminate; reflexivity. }
  rewrite !Hg. cbn [bind]. cbn [orb] in H.
  rewrite (to_string_printable (prop item "msg")).
  assert (Hmsg : forall (path : string),
             negb (printable (prop item "msg")) = true ->
             exists e,
               bind (if printable (prop item "msg")
                     then Ok (text (prop item "msg"))
                     else Throw cannot_convert)
                 (fun text : string => Ok (path ++ ": " ++ text))
               = Throw e).
  { intros path Hm. apply negb_true_iff in Hm. rewrite Hm. simpl. eauto. }
  destruct (prop item "loc") as [| | | | |path|];
    cbn [nullish isArray negb andb orb bind to_string] in *;
    try (eexists; reflexivity); try (now apply Hmsg).
  rewrite join_printable.
  destruct (printable (VArr path)); cbn [negb orb bind to_string] in *;
    [now apply Hmsg|eauto].
Qed.

Lemma detail_lines_good (items : list jsval) :
  existsb bad_item items = false ->
  map_result detail_line items = Ok (map line_text items).
Proof.
  induction items as [|item items IH]; simpl; [reflexivity|].
  intros H. apply orb_false_iff in H as [Hi Hrest].
  now rewrite (detail_line_good _ Hi), (IH Hrest).
Qed.

Lemma detail_lines_bad (items : list jsval) :
  existsb bad_item items = true ->
  exists e, map_result detail_line items = Throw e.
Proof.
  induction items as [|item items IH]; simpl; [discriminate|].
  intros H. destruct (bad_item item) eqn:Hb.
  - destruct (detail_line_bad _ Hb) as [e He]. rewrite He. simpl. eauto.
  - simpl in H. destruct (IH H) as [e He].
    rewrite (detail_line_good _ Hb), He. simpl. eauto.
Qed.

(** X1: for a response outside 2xx [fetchApi] reads the body; the error it
    throws is an [Error] with the message [API Error: <status>] when the body
    is not JSON, is [null], or has no truthy [detail]; for a truthy [detail]
    that is not an array it is an [Error] with the printed [detail] (a string
    is used as it is), unless [detail] is an object with an own [toString]
    key: building the [Error] then throws a [TypeError] in its place. *)
Theorem fetchApi_error_text (response : Response) :
  ok response = false ->
  body_read (fetchApi (Ok response)) = true
  /\ (forall e,
         json response = Throw e ->
         outcome (fetchApi (Ok response))
         = Throw (Error (default_text response)))
  /\ (forall errorData,
         json response = Ok errorData ->
         isArray (prop errorData "detail") = false ->
         outcome (fetchApi (Ok response))
         = Throw (if truthy (prop errorData "detail")
                  then if printable (prop errorData "detail")
                       then Error (text (prop errorData "detail"))
                       else cannot_convert
                  else Error (default_text response))).
Proof.
  intros Hok. unfold fetchApi, default_text. rewrite Hok. simpl.
  split; [reflexivity|]. split.
  - intros e ->. reflexivity.
  - intros errorData -> Harr. unfold error_detail.
    assert (Hd : match get_prop errorData "detail" with
                 | Ok detail => detail = prop errorData "detail"
                 | Throw _ => prop errorData "detail" = VUndefined
                 end).
    { destruct errorData; reflexivity. }
    destruct (get_prop errorData "detail") as [detail|e].
    + subst detail.
      destruct (truthy (prop errorData "detail")) eqn:Ht.
      * assert (Hsame : match prop errorData "detail" with
                        | VArr items =>
                            match map_result detail_line items with
                            | Ok lines => VStr (String.concat "; " lines)
                            | Throw _ => prop errorData "detail"
                            end
                        | _ => prop errorData "detail"
                        end = prop errorData "detail").
        { destruct (prop errorData "detail"); try discriminate Harr;
            reflexivity. }
        rewrite Hsame, to_string_printable.
        destruct (printable (prop errorData "detail")); reflexivity.
      * destruct (prop errorData "detail"); try discriminate Harr;
          reflexivity.
    + rewrite Hd. reflexivity.
Qed.

Lemma fetchApi_error_text_witness :
  outcome (fetchApi (Ok (mkResponse 503
                           (Ok (VObj [("detail", VStr "down for repair")])))))
  = Throw (Error "down for repair")
  /\ outcome (fetchApi (Ok (mkResponse 502 (Throw (SyntaxError "bad body")))))
     = Throw (Error "API Error: 502")
  /\ outcome
       (fetchApi
          (Ok (mkResponse 500
                 (Ok (VObj [("detail",
                             VObj [("toString", VNum (NFin false "1" 0))])])))))
     = Throw (TypeError "Cannot convert object to primitive value").
Proof.
  split; [|split].
  - apply (proj2 (proj2
             (fetchApi_error_text
                (mkResponse 503
                   (Ok (VObj [("detail", VStr "down for repair")])))
                eq_refl))
             (VObj [("detail", VStr "down for repair")]));
      reflexivity.
  - apply (proj1 (proj2
             (fetchApi_error_text
                (mkResponse 502 (Throw (SyntaxError "bad body"))) eq_refl))
             (SyntaxError "bad body")).
    reflexivity.
  - apply (proj2 (proj2
             (fetchApi_error_text
                (mkResponse 500
                   (Ok (VObj [("detail",
                               VObj [("toString", VNum (NFin false "1" 0))])])))
                eq_refl))
             (VObj [("detail",
                     VObj [("toString", VNum (NFin false "1" 0))])]));
      reflexivity.
Defined.

(** X2: for a response outside 2xx whose [detail] is an array, the thrown
    error is an [Error] with the lines of the items joined with [; ] when no
    item is bad (an item without [loc] prints [undefined] for it); as soon as
    one item is bad ([null], a [loc] that is not an array or has an item that
    does not print, a [msg] that does not print) the message is the array
    itself printed, not the status text, and when the array does not print
    either the error is the [TypeError] of that conversion. *)
Theorem fetchApi_array_detail
  (response : Response) (errorData : jsval) (items : list jsval) :
  ok response = false ->
  json response = Ok errorData ->
  prop errorData "detail" = VArr items ->
  outcome (fetchApi (Ok response))
  = Throw (if existsb bad_item items
           then if printable (VArr items)
                then Error (text (VArr items))
                else cannot_convert
           else Error (String.concat "; " (map line_text items))).
Proof.
  intros Hok Hjson Hd. unfold fetchApi. rewrite Hok, Hjson. simpl.
  unfold error_detail.
  assert (Hg : get_prop errorData "detail" = Ok (VArr items)).
  { destruct errorData; simpl in Hd; try discriminate.
    unfold get_prop, prop. now rewrite Hd. }
  rewrite Hg. cbn [truthy].
  destruct (existsb bad_item items) eqn:Hb.
  - destruct (detail_lines_bad _ Hb) as [e ->].
    rewrite (to_string_printable (VArr items)).
    change (forallb (fun x : jsval => nullish x || printable x) items)
      with (printable (VArr items)).
    now destruct (printable (VArr items)).
  - now rewrite (detail_lines_good _ Hb).
Qed.

Lemma fetchApi_array_detail_witness :
  outcome
    (fetchApi
       (Ok (mkResponse 422
              (Ok (VObj [("detail",
                          VArr [VObj [("msg", VStr "field required")];
                                VObj [("loc", VArr [VStr "a"]);
                                      ("msg",
                                       VObj [("toString", VNull)])]])])))))
  = Throw (Error "[object Object],[object Object]").
Proof.
  apply (fetchApi_array_detail
           (mkResponse 422
              (Ok (VObj [("detail",
                          VArr [VObj [("msg", VStr "field required")];
                                VObj [("loc", VArr [VStr "a"]);
                                      ("msg",
                                       VObj [("toString", VNull)])]])])))
           (VObj [("detail",
                   VArr [VObj [("msg", VStr "field required")];
                         VObj [("loc", VArr [VStr "a"]);
                               ("msg", VObj [("toString", VNull)])]])])
           [VObj [("msg", VStr "field required")];
            VObj [("loc", VArr [VStr "a"]);
                  ("msg", VObj [("toString", VNull)])]]);
    reflexivity.
Defined.

End FetchApiText.

(** ** Further properties of the controller *)
Section FlowFacts.

Import OperationSelector ChatInterface System Flow.

Lemma messages_run (actions : list action) (st : State) :
  messages (run actions st) = (messages st ++ appended actions)%list.
Proof.
  revert st. induction actions as [|a actions IH]; intros st.
  - simpl. now rewrite app_nil_r.
  - change (run (a :: actions) st) with (run actions (apply_action a st)).
    rewrite IH.
    destruct a; simpl; try reflexivity.
    now rewrite <- app_assoc.
Qed.

Lemma appended_handleUserInput (input : Input) :
  appended (handleUserInput input)
  = if is_intent input then
      if unresolved input then
        match to_string (value input) with
        | Ok label =>
            [mkMessage user (value input);
             mkMessage assistant
               (text_instruction (VStr (unmapped_text label)))]
        | Throw _ => [mkMessage user (value input)]
        end
      else [mkMessage user (value input)]
    else [].
Proof.
  unfold handleUserInput. destruct (is_intent input); simpl.
  - destruct (unresolved input); [|reflexivity].
    destruct (to_string (value input)); reflexivity.
  - destruct (is_parameter input); reflexivity.
Qed.

Lemma appended_resume (r : result jsval) :
  appended (handleUserInput_resume r) = []
  \/ exists c, appended (handleUserInput_resume r) = [mkMessage assistant c].
Proof.
  unfold handleUserInput_resume.
  destruct r as [resp|e]; simpl; [|right; eauto].
  unfold on_response.
  destruct (get_prop resp "type") as [ty|e]; simpl; [|right; eauto].
  destruct (strict_eqb ty (VStr "ui_instruction")); simpl; [right; eauto|].
  destruct (strict_eqb ty (VStr "final_message")
            || strict_eqb ty (VStr "error_message")); simpl; eauto.
Qed.

Lemma appended_fetchOps_resume (r : result jsval) :
  appended (fetchOps_resume r) = []
  \/ exists c, appended (fetchOps_resume r) = [mkMessage assistant c].
Proof. destruct r; simpl; eauto. Qed.

(** X3: the message log only grows, whatever the events; one event appends
    nothing for a widget submission (the value is not echoed), at most the
    echo of the intent and one assistant message for a selection, and at most
    one assistant message when a call settles. *)
Theorem log_is_append_only (w : World) :
  (forall ev,
      exists added,
        messages (ui (step w ev)) = (messages (ui w) ++ added)%list
        /\ match ev with
           | WidgetSubmit _ _ => added = []
           | SelectOperation _ =>
               added = []
               \/ (exists u, added = [mkMessage user u])
               \/ (exists u a, added = [mkMessage user u; mkMessage assistant a])
           | Settle _ _ =>
               added = [] \/ exists a, added = [mkMessage assistant a]
           end)
  /\ (forall evs,
         exists added,
           messages (ui (steps w evs)) = (messages (ui w) ++ added)%list).
Proof.
  assert (Hstep : forall w ev,
             exists added,
               messages (ui (step w ev)) = (messages (ui w) ++ added)%list
               /\ match ev with
                  | WidgetSubmit _ _ => added = []
                  | SelectOperation _ =>
                      added = []
                      \/ (exists u, added = [mkMessage user u])
                      \/ (exists u a,
                             added = [mkMessage user u; mkMessage assistant a])
                  | Settle _ _ =>
                      added = [] \/ exists a, added = [mkMessage assistant a]
                  end).
  { clear w. intros w [opId|parameterName value|i fetched]; simpl.
    - destruct (select_disabled _ _);
        [exists []; rewrite app_nil_r; auto|].
      destruct (handleChange _ opId) as [input|];
        [|exists []; rewrite app_nil_r; auto].
      unfold dispatch; cbn [ui]. rewrite messages_run, appended_handleUserInput.
      eexists. split; [reflexivity|].
      destruct (is_intent input); [|auto].
      destruct (unresolved input); [|eauto].
      destruct (to_string (value input)); eauto.
    - destruct (currentInteractionDisabled (ui w));
        [exists []; rewrite app_nil_r; auto|].
      unfold dispatch, handleDynamicInputSubmit; cbn [ui].
      rewrite messages_run, appended_handleUserInput. simpl.
      exists []. auto.
    - destruct (nth_error (inflight w) i) as [p|];
        [|exists []; rewrite app_nil_r; auto].
      cbn [ui]. rewrite messages_run. eexists. split; [reflexivity|].
      unfold settle. destruct (resume p).
      + apply appended_fetchOps_resume.
      + apply appended_resume. }
  split; [apply Hstep|].
  intros evs. revert w. induction evs as [|ev evs IH]; intros w; simpl.
  - exists []. now rewrite app_nil_r.
  - destruct (IH (step w ev)) as [a2 H2].
    destruct (Hstep w ev) as [a1 [H1 _]].
    exists (a1 ++ a2)%list. fold (steps (step w ev) evs).
    now rewrite H2, H1, app_assoc.
Qed.

Lemma typing_after (input : Input) (st : State) :
  isAssistantTyping (run (handleUserInput input) st)
  = negb (short_circuits input) || aborts input.
Proof.
  unfold aborts, short_circuits, handleUserInput.
  destruct (is_intent input); simpl.
  - destruct (unresolved input); [|reflexivity].
    destruct (to_string (value input)); reflexivity.
  - destruct (is_parameter input); reflexivity.
Qed.

Lemma parameter_never_aborts (parameterName value : jsval) :
  aborts (mkInput (VStr "parameter") value VUndefined parameterName) = false.
Proof. reflexivity. Qed.

Lemma label_converts_selection (w : World) (opId : string) (input : Input) :
  label_converts_at w (SelectOperation opId) = true ->
  select_disabled (operations (ui w)) (selector_disabled (ui w)) = false ->
  handleChange (operations (ui w)) opId = Some input ->
  aborts input = false.
Proof.
  unfold label_converts_at. intros H Hd Hc. rewrite Hd, Hc in H.
  now apply negb_true_iff in H.
Qed.

Lemma typing_after_resume (r : result jsval) (st : State) :
  isAssistantTyping (run (handleUserInput_resume r) st) = false.
Proof.
  unfold handleUserInput_resume. rewrite run_app. reflexivity.
Qed.

Lemma typing_after_fetchOps (r : result jsval) (st : State) :
  isAssistantTyping (run (fetchOps_resume r) st) = isAssistantTyping st.
Proof. destruct r; reflexivity. Qed.

Lemma typing_dispatch (w : World) (input : Input) :
  aborts input = false ->
  typing_invariant w -> currentInteractionDisabled (ui w) = false ->
  typing_invariant (dispatch ResumeHandleUserInput (handleUserInput input) w).
Proof.
  intros Ha [Hinv Ht] Hu. split; [now apply invariant_dispatch|].
  pose proof (unlocked_idle w Hinv Hu) as Hidle.
  unfold busy, outstanding, dispatch in *. simpl.
  rewrite filter_app, Hidle, pendings_handleUserInput, typing_after, Ha.
  simpl. destruct (short_circuits input); reflexivity.
Qed.

Lemma typing_step (w : World) (ev : event) :
  label_converts_at w ev = true ->
  typing_invariant w -> typing_invariant (step w ev).
Proof.
  intros Hev Hinv. pose proof Hinv as [Hlock Ht].
  destruct ev as [opId|parameterName value|i fetched]; simpl.
  - destruct (select_disabled _ _) eqn:Hd; [assumption|].
    destruct (handleChange _ opId) as [input|] eqn:Hc; [|assumption].
    apply typing_dispatch;
      [now apply (label_converts_selection w opId)|assumption|].
    unfold select_disabled, selector_disabled in Hd.
    apply orb_false_iff in Hd as [Hd _].
    apply orb_false_iff in Hd as [Hd _].
    apply orb_false_iff in Hd as [_ Hd]. exact Hd.
  - destruct (currentInteractionDisabled (ui w)) eqn:Hd; [assumption|].
    apply typing_dispatch; [apply parameter_never_aborts|assumption|exact Hd].
  - destruct (nth_error (inflight w) i) as [p|] eqn:Hp; [|assumption].
    split.
    + pose proof (invariant_step w (Settle i fetched) Hlock) as H.
      simpl in H. now rewrite Hp in H.
    + destruct Hlock as [Hlen _].
      unfold busy, outstanding in *. cbn [ui inflight].
      destruct (is_chat p) eqn:Hc.
      * pose proof (filter_remove_at_true is_chat i _ p Hp Hc) as Hs.
        unfold settle, is_chat in *.
        destruct (resume p); [discriminate|].
        rewrite typing_after_resume.
        destruct (filter _ (remove_at i (inflight w))); [reflexivity|].
        simpl in Hs. lia.
      * rewrite (filter_remove_at_false is_chat i _ p Hp Hc).
        unfold settle, is_chat in *.
        destruct (resume p); [|discriminate].
        now rewrite typing_after_fetchOps.
Qed.

Lemma typing_steps (evs : list event) (w : World) :
  labels_convert w evs = true ->
  typing_invariant w -> typing_invariant (steps w evs).
Proof.
  revert w. induction evs as [|ev evs IH]; intros w Hall H; simpl.
  - exact H.
  - simpl in Hall. apply andb_true_iff in Hall as [Hev Hall].
    apply IH; [assumption|]. now apply typing_step.
Qed.

(** X4: whatever the events since the mount, as long as every label picked
    is one the error message of the early branch can quote (one that converts
    to a string, as every label the selector can show does), the typing flag
    is on exactly while a chat round trip is outstanding, and then input is
    locked and the selector disabled. *)
Theorem typing_while_outstanding (evs : list event) :
  labels_convert mounted evs = true ->
  let w := steps mounted evs in
  isAssistantTyping (ui w) = busy w
  /\ (busy w = true ->
      currentInteractionDisabled (ui w) = true
      /\ selector_disabled (ui w) = true).
Proof.
  intros Hall w.
  destruct (typing_steps evs mounted Hall) as [[_ Hlock] Ht].
  { split; [apply invariant_mounted|reflexivity]. }
  fold w in Hlock, Ht. split; [exact Ht|].
  intros Hb. unfold busy in Hb.
  assert (Hl : currentInteractionDisabled (ui w) = true).
  { apply Hlock. destruct (outstanding w); [discriminate|congruence]. }
  split; [exact Hl|]. unfold selector_disabled. rewrite Hl.
  now rewrite orb_true_r.
Qed.

Lemma typing_while_outstanding_witness :
  currentInteractionDisabled (ui (steps mounted bind_op1)) = true
  /\ selector_disabled (ui (steps mounted bind_op1)) = true.
Proof.
  apply (proj2 (typing_while_outstanding bind_op1 eq_refl)). reflexivity.
Defined.

End FlowFacts.

Section FlowEnds.

Import OperationSelector ChatInterface System Flow.

Lemma stuck_step (w : World) (ev : event) :
  currentInteractionDisabled (ui w) = true -> outstanding w = [] ->
  currentInteractionDisabled (ui (step w ev)) = true
  /\ outstanding (step w ev) = []
  /\ currentApiOperation (ui (step w ev)) = currentApiOperation (ui w).
Proof.
  intros Hl Ho. destruct ev as [opId|parameterName value|i fetched].
  - rewrite (locked_ignores w (SelectOperation opId) Hl I). auto.
  - rewrite (locked_ignores w (WidgetSubmit parameterName value) Hl I). auto.
  - simpl. destruct (nth_error (inflight w) i) as [p|] eqn:Hp; [|auto].
    assert (Hc : is_chat p = false).
    { destruct (is_chat p) eqn:Hc; [|reflexivity].
      pose proof (filter_remove_at_true is_chat i _ p Hp Hc) as Hs.
      unfold outstanding in Ho. rewrite Ho in Hs. discriminate. }
    unfold outstanding in *. cbn [ui inflight].
    rewrite (filter_remove_at_false is_chat i _ p Hp Hc).
    unfold settle, is_chat in *. destruct (resume p); [|discriminate].
    rewrite fetchOps_resume_keeps_lock.
    repeat split; try assumption. now destruct (Api.outcome _).
Qed.

(** X5: a world in which input is locked while no chat round trip is
    outstanding (as after a reply of an unrecognized type) stays so for every
    further sequence of events: input is never unlocked again, no call is
    made, and the bound operation is never cleared. *)
Theorem locked_without_call_is_final (w : World) (evs : list event) :
  currentInteractionDisabled (ui w) = true ->
  outstanding w = [] ->
  let w' := steps w evs in
  currentInteractionDisabled (ui w') = true
  /\ outstanding w' = []
  /\ currentApiOperation (ui w') = currentApiOperation (ui w).
Proof.
  revert w. induction evs as [|ev evs IH]; intros w Hl Ho; simpl.
  - auto.
  - destruct (stuck_step w ev Hl Ho) as (Hl' & Ho' & Hop).
    destruct (IH (step w ev) Hl' Ho') as (H1 & H2 & H3).
    repeat split; try assumption. now rewrite <- Hop.
Qed.

Lemma locked_without_call_is_final_witness :
  let w' := steps (steps mounted stuck_events)
              [SelectOperation "op1"; WidgetSubmit (VStr "name") (VStr "Rex")] in
  currentInteractionDisabled (ui w') = true
  /\ outstanding w' = []
  /\ currentApiOperation (ui w')
     = currentApiOperation (ui (steps mounted stuck_events)).
Proof.
  apply (locked_without_call_is_final (steps mounted stuck_events)
           [SelectOperation "op1"; WidgetSubmit (VStr "name") (VStr "Rex")]);
    reflexivity.
Defined.

(** X6: when the awaited call fails (it threw, or it returned the [null] of
    a 204, whose [type] cannot be read), [handleUserInput] appends one
    assistant message that reads [Error: ] followed by the message of the
    error, clears the bound operation, unlocks input and turns the typing flag
    off, so that the selector is enabled again. *)
Theorem failed_call_ends_flow (st : State) (r : result jsval) (text : string) :
  failure_text r = Some text ->
  let st' := run (handleUserInput_resume r) st in
  messages st'
  = (messages st
     ++ [mkMessage assistant (text_instruction (VStr ("Error: " ++ text)))])%list
  /\ currentApiOperation st' = VNull
  /\ currentInteractionDisabled st' = false
  /\ isAssistantTyping st' = false
  /\ selector_disabled st' = false.
Proof.
  intros H.
  destruct r as [[]|e]; simpl in H; try discriminate;
    injection H as <-; cbn; repeat split.
Qed.

Lemma failed_call_ends_flow_witness :
  let st' := run (handleUserInput_resume
                    (Api.outcome (Api.fetchApi (Ok no_content))))
               collecting_state in
  messages st'
  = (messages collecting_state
     ++ [mkMessage assistant
           (text_instruction
              (VStr "Error: Cannot read properties of null (reading 'type')"))])%list
  /\ currentApiOperation st' = VNull
  /\ currentInteractionDisabled st' = false
  /\ isAssistantTyping st' = false
  /\ selector_disabled st' = false.
Proof.
  apply (failed_call_ends_flow collecting_state
           (Api.outcome (Api.fetchApi (Ok no_content)))).
  reflexivity.
Defined.

Lemma unlocked_after_recognised (fetched : result Api.Response) (st : State) :
  recognised fetched = true ->
  currentInteractionDisabled
    (run (handleUserInput_resume (Api.outcome (Api.fetchApi fetched))) st)
  = false.
Proof.
  unfold recognised, handleUserInput_resume.
  destruct (Api.outcome (Api.fetchApi fetched)) as [v|e]; [|reflexivity].
  intros H. destruct (nullish v) eqn:Hn.
  - destruct v; try discriminate; reflexivity.
  - simpl in H. unfold known_type, terminal_type in H. simpl. unfold on_response.
    assert (Hg : get_prop v "type" = Ok (prop v "type"))
      by (destruct v; try discriminate; reflexivity).
    rewrite Hg. simpl.
    destruct (strict_eqb (prop v "type") (VStr "ui_instruction"));
      [reflexivity|].
    simpl in H. rewrite H. reflexivity.
Qed.

Lemma release_dispatch (w : World) (input : Input) :
  aborts input = false ->
  release_invariant w -> currentInteractionDisabled (ui w) = false ->
  release_invariant (dispatch ResumeHandleUserInput (handleUserInput input) w).
Proof.
  intros Ha [Hinv Ht] Hu. split; [now apply invariant_dispatch|].
  pose proof (unlocked_idle w Hinv Hu) as Hidle.
  unfold busy, outstanding, dispatch in *. simpl.
  rewrite filter_app, Hidle, pendings_handleUserInput, locked_after, Ha.
  simpl. destruct (short_circuits input); reflexivity.
Qed.

Lemma release_step (w : World) (ev : event) :
  recognised_at w ev = true ->
  label_converts_at w ev = true ->
  release_invariant w -> release_invariant (step w ev).
Proof.
  intros Hev Hlabel Hinv. pose proof Hinv as [Hlock Ht].
  destruct ev as [opId|parameterName value|i fetched]; simpl.
  - destruct (select_disabled _ _) eqn:Hd; [assumption|].
    destruct (handleChange _ opId) as [input|] eqn:Hc; [|assumption].
    apply release_dispatch;
      [now apply (label_converts_selection w opId)|assumption|].
    unfold select_disabled, selector_disabled in Hd.
    apply orb_false_iff in Hd as [Hd _].
    apply orb_false_iff in Hd as [Hd _].
    apply orb_false_iff in Hd as [_ Hd]. exact Hd.
  - destruct (currentInteractionDisabled (ui w)) eqn:Hd; [assumption|].
    apply release_dispatch; [apply parameter_never_aborts|assumption|exact Hd].
  - simpl in Hev.
    destruct (nth_error (inflight w) i) as [p|] eqn:Hp; [|assumption].
    split.
    + pose proof (invariant_step w (Settle i fetched) Hlock) as H.
      simpl in H. now rewrite Hp in H.
    + destruct Hlock as [Hlen _].
      unfold busy, outstanding in *. cbn [ui inflight].
      destruct (is_chat p) eqn:Hc.
      * pose proof (filter_remove_at_true is_chat i _ p Hp Hc) as Hs.
        unfold settle, is_chat in *.
        destruct (resume p); [discriminate|].
        rewrite (unlocked_after_recognised _ _ Hev).
        destruct (filter _ (remove_at i (inflight w))); [reflexivity|].
        simpl in Hs. lia.
      * rewrite (filter_remove_at_false is_chat i _ p Hp Hc).
        unfold settle, is_chat in *.
        destruct (resume p); [|discriminate].
        now rewrite fetchOps_resume_keeps_lock.
Qed.

(** X21: as long as every chat call settles with an outcome the controller
    has a branch for (an error, a [null] reply, or a reply of one of the three
    known types) and every label picked converts to a string (as every label
    the selector can show does), input is locked exactly while a chat round
    trip is outstanding: every such round trip ends with input unlocked. *)
Theorem lock_is_released_after_recognised_replies (evs : list event) :
  recognised_run mounted evs = true ->
  labels_convert mounted evs = true ->
  let w := steps mounted evs in
  currentInteractionDisabled (ui w) = busy w.
Proof.
  assert (H : forall evs w,
             recognised_run w evs = true ->
             labels_convert w evs = true ->
             release_invariant w -> release_invariant (steps w evs)).
  { clear evs. induction evs as [|ev evs IH]; intros w Hall Hlabels Hw; simpl.
    - exact Hw.
    - simpl in Hall, Hlabels.
      apply andb_true_iff in Hall as [Hev Hall].
      apply andb_true_iff in Hlabels as [Hlabel Hlabels].
      apply IH; [assumption|assumption|]. now apply release_step. }
  intros Hall Hlabels. apply (H evs mounted Hall Hlabels).
  split; [apply invariant_mounted|reflexivity].
Qed.

Lemma lock_is_released_after_recognised_replies_witness :
  let w := steps mounted full_flow in
  currentInteractionDisabled (ui w) = busy w.
Proof.
  apply (lock_is_released_after_recognised_replies full_flow); reflexivity.
Defined.

End FlowEnds.

(** ** Requests, the catalog and the selector *)
Section Requests.

Import OperationSelector ChatInterface System Flow Catalog.

Lemma remove_at_Forall {A} (P : A -> Prop) (i : nat) (l : list A) :
  Forall P l -> Forall P (remove_at i l).
Proof.
  intros H. revert i. induction H as [|x l Hx Hl IH]; intros [|i]; simpl;
    try constructor; auto.
Qed.

Lemma operation_after (input : Input) (st : State) :
  currentApiOperation (run (handleUserInput input) st)
  = if is_intent input
    then if unresolved input && negb (aborts input)
         then VNull else apiDetails input
    else currentApiOperation st.
Proof.
  unfold aborts, short_circuits, handleUserInput.
  destruct (is_intent input); simpl.
  - destruct (unresolved input); [|reflexivity].
    destruct (to_string (value input)); reflexivity.
  - destruct (is_parameter input); reflexivity.
Qed.

Lemma operation_after_resume (r : result jsval) (st : State) :
  currentApiOperation (run (handleUserInput_resume r) st) = VNull
  \/ currentApiOperation (run (handleUserInput_resume r) st)
     = currentApiOperation st.
Proof.
  unfold handleUserInput_resume.
  destruct r as [resp|e]; simpl; auto.
  unfold on_response.
  destruct (get_prop resp "type") as [ty|e]; simpl; auto.
  destruct (strict_eqb ty (VStr "ui_instruction")); simpl; auto.
  destruct (strict_eqb ty (VStr "final_message")
            || strict_eqb ty (VStr "error_message")); simpl; auto.
Qed.

Lemma unresolved_false (input : Input) :
  unresolved input = false ->
  truthy (prop (apiDetails input) "path") = true
  /\ truthy (prop (apiDetails input) "method") = true.
Proof.
  unfold unresolved. intros H.
  apply orb_false_iff in H as [H Hm]. apply orb_false_iff in H as [_ Hp].
  apply negb_false_iff in Hm, Hp. auto.
Qed.

Lemma well_formed_dispatch (w : World) (input : Input) :
  Forall well_formed (inflight w) ->
  is_intent input = true \/ (is_intent input = false /\ is_parameter input = true) ->
  Forall well_formed
    (inflight (dispatch ResumeHandleUserInput (handleUserInput input) w)).
Proof.
  intros Hwf Hin. unfold dispatch. cbn [inflight].
  rewrite pendings_handleUserInput. unfold short_circuits, body_of.
  destruct Hin as [Hi|[Hi Hp]]; rewrite Hi; simpl.
  - destruct (unresolved input) eqn:Hu; simpl.
    + now rewrite app_nil_r.
    + destruct (unresolved_false _ Hu) as [Hpath Hmeth].
      apply Forall_app. split; [assumption|]. constructor; [|constructor].
      unfold well_formed. simpl. repeat split. left.
      unfold intent_request. simpl. auto.
  - rewrite Hp.
    apply Forall_app. split; [assumption|]. constructor; [|constructor].
    unfold well_formed. simpl. repeat split. right. reflexivity.
Qed.

Lemma well_formed_step (w : World) (ev : event) :
  Forall well_formed (inflight w) -> Forall well_formed (inflight (step w ev)).
Proof.
  intros Hwf. destruct ev as [opId|parameterName value|i fetched]; simpl.
  - destruct (select_disabled _ _); [assumption|].
    destruct (handleChange _ opId) as [input|] eqn:Hc; [|assumption].
    apply well_formed_dispatch; [assumption|].
    left. apply (handleChange_input _ _ _ Hc).
  - destruct (currentInteractionDisabled (ui w)); [assumption|].
    apply well_formed_dispatch; [assumption|]. right. split; reflexivity.
  - destruct (nth_error (inflight w) i) as [p|]; [|assumption].
    cbn [inflight]. now apply remove_at_Forall.
Qed.

Lemma usable_dispatch (w : World) (input : Input) :
  aborts input = false ->
  usable_operation (currentApiOperation (ui w)) ->
  usable_operation
    (currentApiOperation
       (ui (dispatch ResumeHandleUserInput (handleUserInput input) w))).
Proof.
  intros Ha Hop. unfold dispatch. cbn [ui].
  rewrite operation_after, Ha.
  destruct (is_intent input); [|assumption].
  destruct (unresolved input) eqn:Hu; simpl; [now left|].
  right. now apply unresolved_false.
Qed.

Lemma usable_step (w : World) (ev : event) :
  label_converts_at w ev = true ->
  usable_operation (currentApiOperation (ui w)) ->
  usable_operation (currentApiOperation (ui (step w ev))).
Proof.
  intros Hev Hop. destruct ev as [opId|parameterName value|i fetched]; simpl.
  - destruct (select_disabled _ _) eqn:Hd; [assumption|].
    destruct (handleChange _ opId) as [input|] eqn:Hc; [|assumption].
    apply usable_dispatch; [|assumption].
    now apply (label_converts_selection w opId).
  - destruct (currentInteractionDisabled (ui w)); [assumption|].
    apply usable_dispatch; [apply parameter_never_aborts|assumption].
  - destruct (nth_error (inflight w) i) as [p|]; [|assumption].
    cbn [ui]. unfold settle. destruct (resume p).
    + now destruct (Api.outcome _).
    + destruct (operation_after_resume
                  (Api.outcome (Api.fetchApi fetched)) (ui w)) as [H|H];
        rewrite H; [now left|assumption].
Qed.

(** X7: whatever the events since the mount, every outstanding call is one
    the handlers build: the catalog call, or a chat call whose body carries
    the user id and is an intent with a truthy path and method or a parameter
    response (the branch that sends no body is never taken); and as long as
    every label picked converts to a string (as every label the selector can
    show does), the bound operation, when there is one, has a truthy path and
    method. *)
Theorem requests_are_well_formed (evs : list event) :
  let w := steps mounted evs in
  Forall well_formed (inflight w)
  /\ (labels_convert mounted evs = true ->
      usable_operation (currentApiOperation (ui w))).
Proof.
  assert (Hwf : forall evs w, Forall well_formed (inflight w) ->
                              Forall well_formed (inflight (steps w evs))).
  { clear evs. induction evs as [|ev evs IH]; intros w Hw; simpl.
    - exact Hw.
    - apply IH. now apply well_formed_step. }
  assert (Hop : forall evs w,
             labels_convert w evs = true ->
             usable_operation (currentApiOperation (ui w)) ->
             usable_operation (currentApiOperation (ui (steps w evs)))).
  { clear evs Hwf. induction evs as [|ev evs IH]; intros w Hall Hw; simpl.
    - exact Hw.
    - simpl in Hall. apply andb_true_iff in Hall as [Hev Hall].
      apply IH; [assumption|]. now apply usable_step. }
  split.
  - apply Hwf. repeat constructor.
  - intros Hall. apply Hop; [assumption|now left].
Qed.

Lemma requests_are_well_formed_witness :
  usable_operation (currentApiOperation (ui (steps mounted bind_op1))).
Proof.
  apply (proj2 (requests_are_well_formed bind_op1)). reflexivity.
Defined.

Lemma pendings_not_catalog (actions : list action) :
  filter (fun p => negb (is_chat p)) (pendings ResumeHandleUserInput actions)
  = [].
Proof.
  induction actions as [|a actions IH]; simpl; [reflexivity|].
  destruct a; simpl; assumption.
Qed.

Lemma filter_remove_at_le {A} (f : A -> bool) (i : nat) (l : list A) :
  (List.length (filter f (remove_at i l)) <= List.length (filter f l))%nat.
Proof.
  revert i. induction l as [|x l IH]; intros [|i]; simpl; try lia.
  - destruct (f x); simpl; lia.
  - specialize (IH i). destruct (f x); simpl; lia.
Qed.

Lemma operations_after (input : Input) (st : State) :
  availableOperations (run (handleUserInput input) st) = availableOperations st.
Proof.
  unfold handleUserInput. destruct (is_intent input); simpl.
  - destruct (unresolved input); [|reflexivity].
    destruct (to_string (value input)); reflexivity.
  - destruct (is_parameter input); reflexivity.
Qed.

Lemma operations_after_resume (r : result jsval) (st : State) :
  availableOperations (run (handleUserInput_resume r) st)
  = availableOperations st.
Proof.
  unfold handleUserInput_resume.
  destruct r as [resp|e]; simpl; auto.
  unfold on_response.
  destruct (get_prop resp "type") as [ty|e]; simpl; auto.
  destruct (strict_eqb ty (VStr "ui_instruction")); simpl; auto.
  destruct (strict_eqb ty (VStr "final_message")
            || strict_eqb ty (VStr "error_message")); simpl; auto.
Qed.

Lemma catalog_step (w : World) (ev : event) :
  (List.length (catalog_calls (step w ev)) <= List.length (catalog_calls w))%nat
  /\ (catalog_calls w = [] ->
      availableOperations (ui (step w ev)) = availableOperations (ui w)).
Proof.
  unfold catalog_calls.
  destruct ev as [opId|parameterName value|i fetched]; simpl.
  - destruct (select_disabled _ _); [auto|].
    destruct (handleChange _ opId) as [input|]; [|auto].
    unfold dispatch. cbn [ui inflight].
    rewrite filter_app, pendings_not_catalog, app_nil_r, operations_after. auto.
  - destruct (currentInteractionDisabled (ui w)); [auto|].
    unfold dispatch, handleDynamicInputSubmit. cbn [ui inflight].
    rewrite filter_app, pendings_not_catalog, app_nil_r, operations_after. auto.
  - destruct (nth_error (inflight w) i) as [p|] eqn:Hp; [|auto].
    cbn [ui inflight]. split; [apply filter_remove_at_le|].
    intros Hnone. unfold settle.
    destruct (resume p) eqn:Hr; [|apply operations_after_resume].
    exfalso.
    assert (Hin : In p (filter (fun p => negb (is_chat p)) (inflight w))).
    { apply filter_In. split; [now apply nth_error_In with i|].
      unfold is_chat. now rewrite Hr. }
    now rewrite Hnone in Hin.
Qed.

(** X8: the catalog is fetched once and never again: no event adds a catalog
    call, so at most the one of the mount is ever outstanding, and once none
    is outstanding neither an event nor a sequence of events changes the
    list of operations. *)
Theorem catalog_is_fetched_once (w : World) (evs : list event) :
  (List.length (catalog_calls (steps w evs)) <= List.length (catalog_calls w))%nat
  /\ (List.length (catalog_calls (steps mounted evs)) <= 1)%nat
  /\ (catalog_calls w = [] ->
      catalog_calls (steps w evs) = []
      /\ availableOperations (ui (steps w evs)) = availableOperations (ui w)).
Proof.
  assert (Hle : forall evs w,
             (List.length (catalog_calls (steps w evs))
              <= List.length (catalog_calls w))%nat).
  { clear. induction evs as [|ev evs IH]; intros w; simpl; [lia|].
    specialize (IH (step w ev)). fold (steps (step w ev) evs).
    pose proof (proj1 (catalog_step w ev)). lia. }
  split; [apply Hle|]. split; [apply (Hle evs mounted)|].
  revert w. induction evs as [|ev evs IH]; intros w Hnone; simpl; [auto|].
  fold (steps (step w ev) evs).
  destruct (catalog_step w ev) as [Hlen Hops].
  assert (Hnone' : catalog_calls (step w ev) = []).
  { rewrite Hnone in Hlen. destruct (catalog_calls (step w ev)); [reflexivity|].
    simpl in Hlen. lia. }
  destruct (IH (step w ev) Hnone') as [H1 H2].
  split; [assumption|]. now rewrite H2, Hops.
Qed.

Lemma catalog_is_fetched_once_witness :
  let w := steps mounted [Settle 0 (Ok (Api.mkResponse 200 (Ok catalog_A)))] in
  catalog_calls (steps w [SelectOperation "op1"]) = []
  /\ availableOperations (ui (steps w [SelectOperation "op1"]))
     = availableOperations (ui w).
Proof.
  apply (proj2 (proj2
           (catalog_is_fetched_once
              (steps mounted [Settle 0 (Ok (Api.mkResponse 200 (Ok catalog_A)))])
              [SelectOperation "op1"]))).
  reflexivity.
Defined.

End Requests.

Section Selector.

Import OperationSelector ChatInterface System Flow Catalog.

Lemma find_skips (opId : string) (pre rest : list jsval) :
  forallb (other_entry opId) pre = true ->
  find_by_id (pre ++ rest) opId = find_by_id rest opId.
Proof.
  induction pre as [|x pre IH]; simpl; [reflexivity|].
  intros H. apply andb_true_iff in H as [Hx Hpre].
  unfold other_entry in Hx. apply andb_true_iff in Hx as [Hn Hid].
  apply negb_true_iff in Hn, Hid.
  destruct x; simpl in *; try discriminate; rewrite ?Hid; auto.
Qed.

Lemma handleChange_found
  (opId : string) (pre post : list jsval) (op : jsval) :
  forallb (other_entry opId) pre = true ->
  prop op "id" = VStr opId ->
  handleChange (pre ++ op :: post) opId = Some (intent_of op).
Proof.
  intros Hpre Hid. unfold handleChange. rewrite (find_skips _ _ _ Hpre).
  destruct op; simpl in Hid; try discriminate.
  cbn [find_by_id get_prop prop bind]. rewrite Hid.
  cbn [strict_eqb]. rewrite String.eqb_refl. reflexivity.
Qed.

(** X9: [handleChange] looks the selected id up from the front of the
    catalog: when no entry has that id nothing is selected; the first entry
    that has it is the one whose summary, path and method are passed on, later
    entries with the same id notwithstanding; and a [null] entry met before
    any match stops the lookup with nothing selected. *)
Theorem handleChange_first_match
  (opId : string) (pre post : list jsval) (op : jsval) :
  forallb (other_entry opId) pre = true ->
  handleChange pre opId = None
  /\ (prop op "id" = VStr opId ->
      handleChange (pre ++ op :: post) opId = Some (intent_of op))
  /\ (nullish op = true -> handleChange (pre ++ op :: post) opId = None).
Proof.
  intros Hpre. unfold handleChange. repeat split.
  - rewrite <- (app_nil_r pre), (find_skips _ _ _ Hpre). reflexivity.
  - intros Hid. now apply (handleChange_found opId pre post op).
  - intros Hn. rewrite (find_skips _ _ _ Hpre).
    destruct op; simpl in Hn; try discriminate; reflexivity.
Qed.

Lemma handleChange_first_match_witness :
  handleChange [] "op1" = None
  /\ handleChange pets_catalog "op1"
     = Some (mkInput (VStr "intent") (VStr "Create Pet")
               (VObj [("path", VStr "/pets"); ("method", VStr "post")])
               VUndefined).
Proof.
  split.
  - apply (proj1 (handleChange_first_match "op1" [] [] VNull eq_refl)).
  - apply (proj1 (proj2
             (handleChange_first_match "op1"
                [VObj [("id", VStr "op0"); ("method", VStr "get");
                       ("path", VStr "/pets"); ("summary", VStr "List Pets")]]
                [VObj [("id", VStr "op1"); ("method", VStr "put");
                       ("path", VStr "/pets"); ("summary", VStr "Shadowed")]]
                (VObj [("id", VStr "op1"); ("method", VStr "post");
                       ("path", VStr "/pets"); ("summary", VStr "Create Pet")])
                eq_refl))).
    reflexivity.
Defined.

(** X10: a selection made while the selector is enabled, of an entry with a
    truthy path and method, starts a flow: the summary is echoed as one user
    message, the entry's path and method become the bound operation, input is
    locked, the typing flag is set, the fetch error is reset and exactly one
    intent request for that path and method is outstanding in addition. *)
Theorem selection_starts_flow
  (w : World) (opId : string) (pre post : list jsval) (op : jsval) :
  selector_disabled (ui w) = false ->
  operations (ui w) = (pre ++ op :: post)%list ->
  forallb (other_entry opId) pre = true ->
  prop op "id" = VStr opId ->
  truthy (prop op "path") = true ->
  truthy (prop op "method") = true ->
  step w (SelectOperation opId)
  = mkWorld
      (mkState (messages (ui w) ++ [mkMessage user (prop op "summary")])
         true true (availableOperations (ui w)) VNull
         (VObj [("path", prop op "path"); ("method", prop op "method")]))
      (inflight w
       ++ [mkPending Api.CHAT_ENDPOINT
             (VObj [("user_id", VStr Api.USER_ID); ("type", VStr "intent");
                    ("intent_string", prop op "summary");
                    ("target_api_path", prop op "path");
                    ("target_api_method", prop op "method")])
             ResumeHandleUserInput]).
Proof.
  intros Hd Hops Hpre Hid Hp Hm. simpl. unfold select_disabled.
  rewrite Hd, Hops.
  replace (List.length (pre ++ op :: post) =? 0)%nat with false
    by (symmetry; apply Nat.eqb_neq; rewrite length_app; simpl; lia).
  simpl.
  rewrite (handleChange_found opId pre post op Hpre Hid).
  unfold dispatch, handleUserInput, intent_of, is_intent, unresolved. simpl.
  rewrite Hp, Hm. reflexivity.
Qed.

Lemma selection_starts_flow_witness :
  let w := steps mounted [Settle 0 (Ok (Api.mkResponse 200 (Ok catalog_A)))] in
  step w (SelectOperation "op1")
  = mkWorld
      (mkState (messages (ui w) ++ [mkMessage user (VStr "Create Pet")])
         true true catalog_A VNull
         (VObj [("path", VStr "/pets"); ("method", VStr "post")]))
      [mkPending Api.CHAT_ENDPOINT
         (VObj [("user_id", VStr "ui_user_enh"); ("type", VStr "intent");
                ("intent_string", VStr "Create Pet");
                ("target_api_path", VStr "/pets");
                ("target_api_method", VStr "post")])
         ResumeHandleUserInput].
Proof.
  apply (selection_starts_flow
           (steps mounted [Settle 0 (Ok (Api.mkResponse 200 (Ok catalog_A)))])
           "op1" [] []
           (VObj [("id", VStr "op1"); ("method", VStr "post");
                  ("path", VStr "/pets"); ("summary", VStr "Create Pet")]));
    reflexivity.
Defined.

(** X22: the labels of the catalog entries the selector shows all convert to
    a string, so that a selection in a world whose options React has rendered
    (each entry's summary, its method in capitals and its path, its [id] as
    key) never stops [handleUserInput] at the template literal of its early
    branch; and what is passed on is an intent. *)
Theorem shown_selection_converts
  (w : World) (opId : string) (shown : list (list string)) :
  options (operations (ui w)) = Ok shown ->
  label_converts_at w (SelectOperation opId) = true
  /\ (forall input,
         handleChange (operations (ui w)) opId = Some input ->
         is_intent input = true /\ aborts input = false).
Proof.
  intros Hs.
  assert (Hin : forall input,
             handleChange (operations (ui w)) opId = Some input ->
             is_intent input = true /\ aborts input = false).
  { intros input Hc. split; [apply (handleChange_input _ _ _ Hc)|].
    destruct (shown_label_converts _ _ _ _ Hs Hc) as [label Hl].
    unfold aborts. rewrite Hl. apply andb_false_r. }
  split; [|exact Hin].
  unfold label_converts_at.
  destruct (handleChange (operations (ui w)) opId) as [input|] eqn:Hc.
  - rewrite (proj2 (Hin input eq_refl)). apply orb_true_r.
  - apply orb_true_r.
Qed.

Lemma shown_selection_converts_witness :
  label_converts_at
    (steps mounted [Settle 0 (Ok (Api.mkResponse 200 (Ok catalog_A)))])
    (SelectOperation "op1")
  = true.
Proof.
  apply (proj1 (shown_selection_converts
                  (steps mounted
                     [Settle 0 (Ok (Api.mkResponse 200 (Ok catalog_A)))])
                  "op1" [[" "; "Create Pet"; " ("; "POST"; " "; "/pets"; ") "]]
                  eq_refl)).
Defined.

End Selector.

(** ** Further properties of the tag-list widget *)
Section TagListFacts.

Import ChatTagsInput TagFacts.

Lemma jsnum_eqb_refl (n : jsnum) : jsnum_eqb n n = true.
Proof.
  destruct n; simpl; try reflexivity.
  - now rewrite Bool.eqb_reflx, String.eqb_refl, Z.eqb_refl.
  - apply Bool.eqb_reflx.
Qed.

Lemma strict_eqb_refl (v : jsval) : is_scalar v = true -> strict_eqb v v = true.
Proof.
  destruct v; simpl; try discriminate; intros _.
  - apply jsnum_eqb_refl.
  - apply String.eqb_refl.
Qed.

Lemma not_included (tags : list jsval) (v : jsval) :
  is_scalar v = true -> includes tags v = false -> ~ In v tags.
Proof.
  intros Hs Hi Hin. unfold includes in Hi.
  assert (H : existsb (fun x => strict_eqb x v) tags = true).
  { apply existsb_exists. exists v. split; [assumption|now apply strict_eqb_refl]. }
  congruence.
Qed.

Lemma coerce_scalar (componentDetails : jsval) (token : string) (v : jsval) :
  coerce componentDetails token = Some v ->
  is_scalar v = true
  /\ (is_numeric (item_type componentDetails) = true -> is_number v = true).
Proof.
  unfold coerce. destruct (is_numeric (item_type componentDetails)).
  - destruct (parseFloat token); simpl; [|discriminate].
    intros H. injection H as <-. auto.
  - intros H. injection H as <-. split; [reflexivity|discriminate].
Qed.

Lemma clean_snoc (tags : list jsval) (v : jsval) :
  clean tags -> is_scalar v = true -> includes tags v = false ->
  clean (tags ++ [v]).
Proof.
  intros [Hs Hn] Hv Hi. split.
  - apply Forall_app. split; [assumption|]. now constructor.
  - apply NoDup_app; [assumption|repeat constructor; auto|].
    intros a Ha [<-|[]]. now apply (not_included tags v Hv Hi).
Qed.

Lemma clean_remove_at (i : nat) (tags : list jsval) :
  clean tags -> clean (remove_at i tags).
Proof.
  assert (Hin : forall (l : list jsval) i x, In x (remove_at i l) -> In x l).
  { induction l as [|y l IHl]; intros [|j] x H; simpl in *; auto.
    destruct H as [->|H]; [now left|right; eauto]. }
  intros [Hs Hn]. split.
  - apply Forall_forall. intros x Hx.
    rewrite Forall_forall in Hs. apply Hs. now apply (Hin _ i).
  - clear Hs. revert i. induction Hn as [|x l Hx Hl IH]; intros [|i]; simpl.
    + constructor.
    + constructor.
    + assumption.
    + constructor; [|apply IH]. intros H. apply Hx. now apply (Hin _ i).
Qed.

Lemma clean_removelast (tags : list jsval) : clean tags -> clean (removelast tags).
Proof.
  intros H. destruct tags as [|t ts] using rev_ind; [exact H|].
  rewrite removelast_last. destruct H as [Hs Hn]. split.
  - apply Forall_app in Hs. tauto.
  - now apply NoDup_app_remove_r in Hn.
Qed.

(** The three cases of [handleKeyDown] besides the rejected token. *)
Lemma handleKeyDown_cases (componentDetails : jsval) (key : string) (st : State) :
  let r := handleKeyDown componentDetails key st in
  (tags (fst r) = tags st /\ filter submitted (snd r) = [])
  \/ (exists v,
         coerce componentDetails (trim (inputValue st)) = Some v
         /\ includes (tags st) v = false
         /\ r = (mkState EmptyString (tags st ++ [v]),
                 [PreventDefault;
                  OnSubmit (parameter_name componentDetails)
                    (VArr (tags st ++ [v]))]))
  \/ (tags st <> []
      /\ r = (mkState (inputValue st) (removelast (tags st)),
              [PreventDefault;
               OnSubmit (parameter_name componentDetails)
                 (VArr (removelast (tags st)))])).
Proof.
  intros r. subst r.
  destruct (is_delimiter key && negb (is_empty (trim (inputValue st)))) eqn:Hc.
  - apply andb_true_iff in Hc as [Hk Hne]. apply negb_true_iff in Hne.
    rewrite (handleKeyDown_commit _ _ _ Hk Hne).
    destruct (coerce componentDetails (trim (inputValue st))) as [v|] eqn:Hv.
    + destruct (includes (tags st) v) eqn:Hi.
      * left. split; reflexivity.
      * right. left. exists v. auto.
    + left. split; reflexivity.
  - unfold handleKeyDown. unfold is_delimiter in Hc. rewrite Hc.
    destruct (String.eqb key "Backspace" && is_empty (inputValue st)
              && (0 <? List.length (tags st))%nat) eqn:Hb.
    + right. right. split; [|reflexivity].
      apply andb_true_iff in Hb as [_ Hb]. apply Nat.ltb_lt in Hb.
      intros E. rewrite E in Hb. simpl in Hb. lia.
    + left. split; reflexivity.
Qed.

(** X11: the tag list stays free of repetitions: when the tags are strings
    and numbers with none of them twice, they are so again after any key
    event and after the removal of any tag; and with a numeric item type a key
    event turns a list of numbers into a list of numbers. *)
Theorem tags_stay_distinct
  (componentDetails : jsval) (key : string) (i : nat) (st : State) :
  clean (tags st) ->
  clean (tags (fst (handleKeyDown componentDetails key st)))
  /\ clean (tags (fst (removeTag componentDetails i st)))
  /\ (is_numeric (item_type componentDetails) = true ->
      Forall (fun v => is_number v = true) (tags st) ->
      Forall (fun v => is_number v = true)
        (tags (fst (handleKeyDown componentDetails key st)))).
Proof.
  intros Hc. split; [|split].
  - destruct (handleKeyDown_cases componentDetails key st)
      as [[Ht _]|[(v & Hv & Hi & Hr)|[Hne Hr]]].
    + now rewrite Ht.
    + rewrite Hr. simpl. destruct (coerce_scalar _ _ _ Hv) as [Hs _].
      now apply clean_snoc.
    + rewrite Hr. simpl. now apply clean_removelast.
  - simpl. now apply clean_remove_at.
  - intros Hn Hall.
    destruct (handleKeyDown_cases componentDetails key st)
      as [[Ht _]|[(v & Hv & Hi & Hr)|[Hne Hr]]].
    + now rewrite Ht.
    + rewrite Hr. simpl. destruct (coerce_scalar _ _ _ Hv) as [_ Hnum].
      apply Forall_app. split; [assumption|].
      constructor; [now apply Hnum|constructor].
    + rewrite Hr. simpl.
      destruct (tags st) as [|t ts] using rev_ind; [contradiction|].
      rewrite removelast_last. apply Forall_app in Hall. tauto.
Qed.

Lemma tags_stay_distinct_witness :
  clean (tags (fst (handleKeyDown number_tags " "
                      (handleInputChange "7.50" (initial number_tags)))))
  /\ clean (tags (fst (removeTag number_tags 0
                         (handleInputChange "7.50" (initial number_tags)))))
  /\ (is_numeric (item_type number_tags) = true ->
      Forall (fun v => is_number v = true)
        (tags (handleInputChange "7.50" (initial number_tags))) ->
      Forall (fun v => is_number v = true)
        (tags (fst (handleKeyDown number_tags " "
                      (handleInputChange "7.50" (initial number_tags)))))).
Proof.
  apply (tags_stay_distinct number_tags " " 0
           (handleInputChange "7.50" (initial number_tags))).
  split.
  - repeat constructor.
  - repeat constructor; simpl; intros H;
      repeat (destruct H as [H|H]; [discriminate|]); contradiction.
Defined.

Example duplicate_number_by_value :
  handleKeyDown number_tags " "
    (handleInputChange "7.50" (initial number_tags))
  = (mkState EmptyString
       [VNum (NFin false "5" 0); VNum (NFin false "75" (-1))],
     [PreventDefault]).
Proof. reflexivity. Qed.

(** X12: a key event of the tag list submits exactly when it changes the
    tags, and what it submits is the new list, one tag longer or one tag
    shorter than before; otherwise it submits nothing and leaves the tags as
    they were. *)
Theorem tags_submit_what_they_hold
  (componentDetails : jsval) (key : string) (st : State) :
  let st' := fst (handleKeyDown componentDetails key st) in
  let effects := snd (handleKeyDown componentDetails key st) in
  (tags st' = tags st /\ filter submitted effects = [])
  \/ (filter submitted effects
      = [OnSubmit (parameter_name componentDetails) (VArr (tags st'))]
      /\ (List.length (tags st') = S (List.length (tags st))
          \/ S (List.length (tags st')) = List.length (tags st))).
Proof.
  intros st' effects. subst st' effects.
  destruct (handleKeyDown_cases componentDetails key st)
    as [H|[(v & _ & _ & Hr)|[Hne Hr]]].
  - now left.
  - right. rewrite Hr. simpl. split; [reflexivity|].
    left. rewrite length_app. simpl. lia.
  - right. rewrite Hr. simpl. split; [reflexivity|].
    right. destruct (tags st) as [|t ts] using rev_ind; [contradiction|].
    rewrite removelast_last, length_app. simpl. lia.
Qed.

(** X13: Backspace on the empty staging input undoes the add before it: after
    a token is committed, one Backspace submits and restores the tags as they
    were before the add. *)
Theorem backspace_undoes_add
  (componentDetails : jsval) (key : string) (st : State) (v : jsval) :
  is_delimiter key = true ->
  is_empty (trim (inputValue st)) = false ->
  coerce componentDetails (trim (inputValue st)) = Some v ->
  includes (tags st) v = false ->
  handleKeyDown componentDetails "Backspace"
    (fst (handleKeyDown componentDetails key st))
  = (mkState EmptyString (tags st),
     [PreventDefault;
      OnSubmit (parameter_name componentDetails) (VArr (tags st))]).
Proof.
  intros Hk Hne Hv Hi.
  rewrite (handleKeyDown_commit _ _ _ Hk Hne), Hv, Hi. simpl.
  unfold handleKeyDown. simpl.
  rewrite length_app. simpl.
  replace (0 <? List.length (tags st) + 1)%nat with true
    by (symmetry; apply Nat.ltb_lt; lia).
  now rewrite removelast_last.
Qed.

Lemma backspace_undoes_add_witness :
  handleKeyDown integer_tags "Backspace"
    (fst (handleKeyDown integer_tags "Enter"
            (mkState "12" [VNum (NFin false "3" 0)])))
  = (mkState EmptyString [VNum (NFin false "3" 0)],
     [PreventDefault;
      OnSubmit (VStr "ids") (VArr [VNum (NFin false "3" 0)])]).
Proof.
  apply (backspace_undoes_add integer_tags "Enter"
           (mkState "12" [VNum (NFin false "3" 0)])
           (VNum (NFin false "12" 0))); reflexivity.
Defined.

End TagListFacts.

(** ** Further properties of the JSON widget *)
Section JsonInputFacts.

Import ChatJsonInput.

Variable JSON_parse : string -> result jsval.

(** X14: the validity flag the JSON widget shows after a change of the text
    is false exactly when a submit of that text warns about invalid JSON, and
    the submit changes neither the text nor that flag. *)
Theorem json_live_validity_matches_submit
  (componentDetails : jsval) (text : string) (st : State) :
  let st1 := handleChange JSON_parse text st in
  value st1 = text
  /\ fst (handleSubmit JSON_parse componentDetails st1) = st1
  /\ (isValidJson st1 = false
      <-> In (Alert warning_alert)
            (snd (handleSubmit JSON_parse componentDetails st1))).
Proof.
  unfold handleChange, handleSubmit, read_value. simpl.
  destruct (is_empty (trim text)) eqn:He; simpl.
  - destruct (JSON_parse text); simpl; repeat split;
      try discriminate; intros H; absent H.
  - destruct (JSON_parse text); simpl; repeat split;
      try discriminate; try (intros H; absent H); auto.
Qed.

End JsonInputFacts.

(** ** Further properties of the render *)
Section RenderingFacts.

Import ChatInterface System Render RenderFacts.

Lemma renderDynamicComponent_some (disabled : bool) (ic : jsval) :
  exists e, renderDynamicComponent disabled ic = Ok (Some e).
Proof.
  unfold renderDynamicComponent.
  destruct (is_string ic); [eauto|].
  destruct (truthy ic) eqn:Ht; simpl; [|eauto].
  rewrite !(get_prop_truthy _ _ Ht). simpl.
  destruct (truthy (prop ic "prompt")); simpl;
    destruct (truthy (prop ic "ui_component")) eqn:Hu; simpl;
    eauto; rewrite (get_prop_truthy _ _ Hu); simpl; eauto.
Qed.

Lemma render_message_some (disabled : bool) (msg : Message) :
  exists e, render_message disabled msg = Ok (Some e).
Proof.
  unfold render_message.
  destruct (sender msg); destruct (typeof_object (content msg)); eauto.
  apply renderDynamicComponent_some.
Qed.

(** X15: [renderDynamicComponent] returns an element for every argument: it
    neither throws nor returns [null]; and so does the bubble content of every
    message of the log, whoever sent it and whatever it holds. *)
Theorem every_instruction_renders
  (disabled : bool) (instructionContent : jsval) (msg : Message) :
  (exists e, renderDynamicComponent disabled instructionContent = Ok (Some e))
  /\ (exists e, render_message disabled msg = Ok (Some e)).
Proof.
  split; [apply renderDynamicComponent_some|apply render_message_some].
Qed.

Lemma rendered_widgets (disabled : bool) (ic : jsval) (e : element) :
  renderDynamicComponent disabled ic = Ok (Some e) ->
  widgets e = []
  \/ exists w,
       widget_of (prop (prop ic "ui_component") "type") = Some w
       /\ widgets e = [(w, prop ic "ui_component", disabled)].
Proof.
  unfold renderDynamicComponent.
  destruct (is_string ic).
  { intros H. injection H as <-. now left. }
  destruct (truthy ic) eqn:Ht; simpl.
  2:{ intros H. injection H as <-. now left. }
  rewrite !(get_prop_truthy _ _ Ht). simpl.
  destruct (truthy (prop ic "ui_component")) eqn:Hu; simpl.
  - rewrite andb_false_r. rewrite (get_prop_truthy _ _ Hu). simpl.
    destruct (widget_of (prop (prop ic "ui_component") "type")) as [w|] eqn:Hw;
      intros H; injection H as <-; simpl.
    + right. exists w. split; [reflexivity|].
      now destruct (truthy (prop ic "prompt")).
    + left. now destruct (truthy (prop ic "prompt")).
  - destruct (truthy (prop ic "prompt")); simpl;
      intros H; injection H as <-; now left.
Qed.

Lemma message_widgets (disabled : bool) (msg : Message) (e : option element) :
  render_message disabled msg = Ok e ->
  Forall (fun x => snd x = disabled)
    (match e with Some e' => widgets e' | None => [] end).
Proof.
  unfold render_message.
  destruct (sender msg); destruct (typeof_object (content msg));
    try (intros H; injection H as <-; constructor).
  destruct e as [e|]; [|constructor].
  intros H. destruct (rendered_widgets _ _ _ H) as [->|(w & _ & ->)];
    repeat constructor.
Qed.

Lemma map_result_Forall {A B} (f : A -> result B) (P : B -> Prop) (l : list A)
  (out : list B) :
  (forall a b, f a = Ok b -> P b) ->
  Api.map_result f l = Ok out -> Forall P out.
Proof.
  intros Hf. revert out. induction l as [|a l IH]; simpl; intros out H.
  - injection H as <-. constructor.
  - destruct (f a) as [b|] eqn:Hb; simpl in H; [|discriminate].
    destruct (Api.map_result f l) as [bs|]; simpl in H; [|discriminate].
    injection H as <-. constructor; eauto.
Qed.

(** X16: every widget in what [ChatInterface] renders, in old bubbles as in
    the newest, has as its [disabled] prop the one lock flag of the state; a
    widget appears only for a [ui_component] whose type is one of the known
    ones, with that component as its [componentDetails]. *)
Theorem widgets_share_the_lock
  (st : State) (v : View) (disabled : bool) (ic : jsval) (e : element) :
  (render st = Ok v ->
   Forall (fun x => snd x = currentInteractionDisabled st) (view_widgets v))
  /\ (renderDynamicComponent disabled ic = Ok (Some e) ->
      widgets e = []
      \/ exists w,
           widget_of (prop (prop ic "ui_component") "type") = Some w
           /\ widgets e = [(w, prop ic "ui_component", disabled)]).
Proof.
  split; [|apply rendered_widgets].
  unfold render. destruct (banner st) as [b|]; simpl; [|discriminate].
  destruct (Api.map_result (render_bubble st) (messages st)) as [bs|] eqn:Hbs;
    simpl; [|discriminate].
  intros H. injection H as <-. unfold view_widgets. simpl.
  assert (Hall : Forall (fun b => Forall (fun x => snd x = currentInteractionDisabled st)
                                    (bubble_widgets b)) bs).
  { apply (map_result_Forall (render_bubble st) _ (messages st)); [|exact Hbs].
    intros msg b' Hb. unfold render_bubble in Hb.
    destruct (render_message (currentInteractionDisabled st) msg) as [e'|] eqn:He;
      simpl in Hb; [|discriminate].
    injection Hb as <-. unfold bubble_widgets. simpl.
    now apply (message_widgets _ msg). }
  clear Hbs. induction Hall as [|b' bs' Hb _ IH]; simpl; [constructor|].
  apply Forall_app. split; assumption.
Qed.

Lemma widgets_share_the_lock_witness :
  (forall v, render two_widget_state = Ok v ->
             Forall (fun x => snd x = true) (view_widgets v))
  /\ widgets (Div [Some (P "mb-1" [VStr "Notify?"]);
                   Some (Widget ChatCheckbox
                           (prop checkbox_instruction "ui_component") false)])
     = [(ChatCheckbox, prop checkbox_instruction "ui_component", false)].
Proof.
  split.
  - intros v.
    apply (proj1 (widgets_share_the_lock two_widget_state v false VNull
                    invalid_marker)).
  - destruct (proj2 (widgets_share_the_lock two_widget_state
                       (mkView VNull false VNull None [] false)
                       false checkbox_instruction
                       (Div [Some (P "mb-1" [VStr "Notify?"]);
                             Some (Widget ChatCheckbox
                                     (prop checkbox_instruction "ui_component")
                                     false)]))
                eq_refl) as [H|(w & Hw & H)].
    + discriminate H.
    + reflexivity.
Defined.

End RenderingFacts.

(** ** Numbers in text: [parseFloat] on the texts the widgets meet *)
Section NumberTextFacts.

Import NumberText.

Lemma span_all (p : ascii -> bool) (a b : string) :
  all_chars p a = true ->
  span p (a ++ b) = (a ++ fst (span p b), snd (span p b)).
Proof.
  induction a as [|c a IH]; simpl; intros H.
  - now destruct (span p b).
  - apply andb_true_iff in H as [Hc Ha]. rewrite Hc, (IH Ha). reflexivity.
Qed.

Lemma span_all_nil (p : ascii -> bool) (a : string) :
  all_chars p a = true -> span p a = (a, EmptyString).
Proof.
  induction a as [|c a IH]; simpl; intros H; [reflexivity|].
  apply andb_true_iff in H as [Hc Ha]. now rewrite Hc, (IH Ha).
Qed.

Lemma span_stop (p : ascii -> bool) (c : ascii) (rest : string) :
  p c = false -> span p (String c rest) = (EmptyString, String c rest).
Proof. intros H. simpl. now rewrite H. Qed.

Lemma append_nil_r (s : string) : s ++ EmptyString = s.
Proof. induction s as [|c s IH]; simpl; [reflexivity|now rewrite IH]. Qed.

Lemma append_assoc (a b c : string) : (a ++ b) ++ c = a ++ (b ++ c).
Proof. induction a as [|x a IH]; simpl; [reflexivity|now rewrite IH]. Qed.

(** What [parseFloat] does with a text that starts with a digit, up to the
    split in integer part and rest. *)
Lemma parseFloat_digit_first (c : ascii) (s : string) :
  is_digit c = true ->
  parseFloat (String c s)
  = (let (ip, r1) := span is_digit (String c s) in
     let (fp, r2) :=
       match r1 with
       | String "."%char r1' => span is_digit r1'
       | _ => (EmptyString, r1)
       end in
     if is_empty ip && is_empty fp then None
     else Some (make_num false (ip ++ fp)
                  (read_exponent r2 - Z.of_nat (String.length fp))%Z)).
Proof.
  intros Hd. unfold parseFloat.
  destruct c as [[] [] [] [] [] [] [] []]; try discriminate Hd; reflexivity.
Qed.

Lemma ends_number_rest (c : ascii) (rest : string) :
  ends_number c = true ->
  match String c rest with
  | String "."%char r1' => span is_digit r1'
  | _ => (EmptyString, String c rest)
  end = (EmptyString, String c rest)
  /\ read_exponent (String c rest) = 0%Z.
Proof.
  unfold ends_number. intros H.
  apply andb_true_iff in H as [H HE]. apply andb_true_iff in H as [H He].
  apply andb_true_iff in H as [_ Hdot].
  apply negb_true_iff in HE, He, Hdot. split.
  - destruct c as [[] [] [] [] [] [] [] []]; try discriminate Hdot; reflexivity.
  - unfold read_exponent. now rewrite He, HE.
Qed.

Lemma parseFloat_prefix_digits (ds : string) (c : ascii) (rest : string) :
  all_chars is_digit ds = true -> ds <> EmptyString ->
  ends_number c = true ->
  parseFloat (ds ++ String c rest) = Some (make_num false ds 0)
  /\ parseFloat ds = Some (make_num false ds 0).
Proof.
  intros Hd Hne Hc. destruct ds as [|d ds]; [contradiction|].
  pose proof Hd as Hd'. simpl in Hd'. apply andb_true_iff in Hd' as [Hd0 _].
  assert (Hnd : is_digit c = false).
  { unfold ends_number in Hc. repeat (apply andb_true_iff in Hc as [Hc _]).
    now apply negb_true_iff in Hc. }
  split.
  - change (String d ds ++ String c rest) with (String d (ds ++ String c rest)).
    rewrite (parseFloat_digit_first _ _ Hd0).
    change (String d (ds ++ String c rest)) with (String d ds ++ String c rest).
    rewrite (span_all _ _ _ Hd), (span_stop _ _ _ Hnd). cbn [fst snd].
    destruct (ends_number_rest c rest Hc) as [-> ->].
    rewrite !append_nil_r. reflexivity.
  - rewrite (parseFloat_digit_first _ _ Hd0), (span_all_nil _ _ Hd).
    rewrite !append_nil_r. reflexivity.
Qed.

(** X18: the numeric check of the widgets accepts a numeric prefix: a text
    that starts with decimal digits followed by any character other than a
    digit, a dot or an exponent letter parses to the number of the digits
    alone; the tag list with a numeric item type commits that number without
    any alert, and the number widget submits it in place of the text. *)
Theorem numeric_prefix_is_accepted
  (componentDetails : jsval) (key : string) (st : ChatTagsInput.State)
  (ds : string) (c : ascii) (rest : string) :
  ChatTagsInput.is_delimiter key = true ->
  ChatTagsInput.is_numeric (ChatTagsInput.item_type componentDetails) = true ->
  trim (ChatTagsInput.inputValue st) = ds ++ String c rest ->
  all_chars is_digit ds = true -> ds <> EmptyString ->
  ends_number c = true ->
  parseFloat (ds ++ String c rest) = parseFloat ds
  /\ ChatTagsInput.coerce componentDetails (trim (ChatTagsInput.inputValue st))
     = Some (VNum (make_num false ds 0))
  /\ filter alerted (snd (ChatTagsInput.handleKeyDown componentDetails key st))
     = []
  /\ ChatNumberInput.handleSubmit componentDetails (ds ++ String c rest)
     = [PreventDefault;
        OnSubmit (ChatNumberInput.parameter_name componentDetails)
          (VNum (make_num false ds 0))].
Proof.
  intros Hk Hnum Htok Hd Hne Hc.
  destruct (parseFloat_prefix_digits ds c rest Hd Hne Hc) as [Hp Hp'].
  assert (Hco : ChatTagsInput.coerce componentDetails
                  (trim (ChatTagsInput.inputValue st))
                = Some (VNum (make_num false ds 0))).
  { unfold ChatTagsInput.coerce. now rewrite Hnum, Htok, Hp. }
  repeat split.
  - now rewrite Hp, Hp'.
  - exact Hco.
  - rewrite handleKeyDown_commit; [|assumption|].
    + rewrite Hco.
      now destruct (includes (ChatTagsInput.tags st) (VNum (make_num false ds 0))).
    + rewrite Htok. destruct ds; [contradiction|reflexivity].
  - unfold ChatNumberInput.handleSubmit. now rewrite Hp.
Qed.

Lemma numeric_prefix_is_accepted_witness :
  parseFloat "12abc" = parseFloat "12"
  /\ ChatTagsInput.coerce ChatTagsInput.integer_tags
       (trim (ChatTagsInput.inputValue (ChatTagsInput.mkState " 12abc " [])))
     = Some (VNum (make_num false "12" 0))
  /\ filter alerted
       (snd (ChatTagsInput.handleKeyDown ChatTagsInput.integer_tags "Enter"
               (ChatTagsInput.mkState " 12abc " [])))
     = []
  /\ ChatNumberInput.handleSubmit ChatTagsInput.integer_tags "12abc"
     = [PreventDefault;
        OnSubmit (VStr "ids") (VNum (make_num false "12" 0))].
Proof.
  apply (numeric_prefix_is_accepted ChatTagsInput.integer_tags "Enter"
           (ChatTagsInput.mkState " 12abc " []) "12" "a"%char "bc");
    try reflexivity.
  discriminate.
Defined.

End NumberTextFacts.

(** ** Numbers in text: printing and parsing back *)
Section NumberRoundTrip.

Import NumberText.

Lemma string_rev_onto_spec (s acc : string) :
  string_rev_onto s acc = string_rev s ++ acc.
Proof.
  unfold string_rev. revert acc. induction s as [|c s IH]; intros acc; simpl.
  - reflexivity.
  - rewrite (IH (String c acc)), (IH (String c EmptyString)).
    now rewrite append_assoc.
Qed.

Lemma string_rev_cons (c : ascii) (s : string) :
  string_rev (String c s) = string_rev s ++ String c EmptyString.
Proof. unfold string_rev at 1. simpl. apply string_rev_onto_spec. Qed.

Lemma string_rev_app (a b : string) :
  string_rev (a ++ b) = string_rev b ++ string_rev a.
Proof.
  induction a as [|c a IH]; simpl.
  - now rewrite append_nil_r.
  - now rewrite !string_rev_cons, IH, append_assoc.
Qed.

Lemma string_rev_involutive (s : string) : string_rev (string_rev s) = s.
Proof.
  induction s as [|c s IH]; [reflexivity|].
  now rewrite string_rev_cons, string_rev_app, IH.
Qed.

Lemma zeros_snoc (n : nat) : zeros n ++ "0" = zeros (S n).
Proof.
  unfold zeros. induction n as [|n IH]; simpl; [reflexivity|].
  now rewrite IH.
Qed.

Lemma string_rev_zeros (n : nat) : string_rev (zeros n) = zeros n.
Proof.
  induction n as [|n IH]; [reflexivity|].
  change (zeros (S n)) with (String "0" (zeros n)) at 1.
  now rewrite string_rev_cons, IH, zeros_snoc.
Qed.

Lemma length_zeros (n : nat) : String.length (zeros n) = n.
Proof. unfold zeros. induction n; simpl; auto. Qed.

Lemma all_zeros (n : nat) : all_chars is_zero_char (zeros n) = true.
Proof. unfold zeros. induction n; simpl; auto. Qed.

Lemma digits_zeros (n : nat) : all_chars is_digit (zeros n) = true.
Proof. unfold zeros. induction n; simpl; auto. Qed.

Lemma all_chars_app (p : ascii -> bool) (a b : string) :
  all_chars p (a ++ b) = all_chars p a && all_chars p b.
Proof.
  induction a as [|c a IH]; simpl; [reflexivity|].
  now rewrite IH, andb_assoc.
Qed.

Lemma length_append (a b : string) :
  String.length (a ++ b) = (String.length a + String.length b)%nat.
Proof. induction a as [|c a IH]; simpl; auto. Qed.

Lemma span_nonzero_first (s : string) :
  starts_nonzero s = true -> span is_zero_char s = (EmptyString, s).
Proof.
  destruct s as [|c s]; simpl; [discriminate|].
  intros H. apply negb_true_iff in H. now rewrite H.
Qed.

(** [make_num] on canonical digits between leading and trailing zeros. *)
Lemma make_num_canonical (neg : bool) (lead : nat) (ds : string) (trail : nat)
  (e : Z) :
  canonical_digits ds = true ->
  make_num neg (zeros lead ++ ds ++ zeros trail) e
  = NFin neg ds (e + Z.of_nat trail).
Proof.
  unfold canonical_digits. intros H.
  apply andb_true_iff in H as [H Hlast]. apply andb_true_iff in H as [_ Hfirst].
  unfold make_num.
  assert (Hf : starts_nonzero (ds ++ zeros trail) = true).
  { destruct ds; [discriminate|exact Hfirst]. }
  rewrite (span_all _ _ _ (all_zeros lead)), (span_nonzero_first _ Hf).
  cbn [fst snd].
  rewrite string_rev_app, string_rev_zeros.
  rewrite (span_all _ _ _ (all_zeros trail)), (span_nonzero_first _ Hlast).
  cbn [fst snd]. rewrite append_nil_r, string_rev_involutive, length_zeros.
  destruct ds; [discriminate|reflexivity].
Qed.

Lemma take_drop (n : nat) (s : string) : take n s ++ drop n s = s.
Proof.
  revert s. induction n as [|n IH]; intros [|c s]; simpl; auto.
  now rewrite IH.
Qed.

Lemma all_chars_take (p : ascii -> bool) (n : nat) (s : string) :
  all_chars p s = true -> all_chars p (take n s) = true.
Proof.
  revert s. induction n as [|n IH]; intros [|c s]; simpl; auto.
  intros H. apply andb_true_iff in H as [-> H]. now apply IH.
Qed.

Lemma all_chars_drop (p : ascii -> bool) (n : nat) (s : string) :
  all_chars p s = true -> all_chars p (drop n s) = true.
Proof.
  revert s. induction n as [|n IH]; intros [|c s]; simpl; auto.
  intros H. apply andb_true_iff in H as [_ H]. now apply IH.
Qed.

Lemma length_drop (n : nat) (s : string) :
  String.length (drop n s) = (String.length s - n)%nat.
Proof.
  revert s. induction n as [|n IH]; intros [|c s]; simpl; auto.
Qed.

(** The decimal digits [string_of_Z] prints for a number that is not
    negative, read back by [digits_value]. *)
Lemma digits_value_acc (d : Decimal.uint) (acc : positive) :
  digits_value (NilEmpty.string_of_uint d) (Z.pos acc)
  = Z.pos (Pos.of_uint_acc d acc).
Proof.
  revert acc.
  induction d; intros acc;
    cbn [NilEmpty.string_of_uint digits_value Pos.of_uint_acc];
    try reflexivity;
    rewrite <- IHd; f_equal; simpl (Z.of_nat _); lia.
Qed.

Lemma digits_value_uint (d : Decimal.uint) :
  digits_value (NilEmpty.string_of_uint d) 0 = Z.of_N (Pos.of_uint d).
Proof.
  induction d;
    cbn [NilEmpty.string_of_uint digits_value Pos.of_uint Z.of_N];
    try reflexivity; simpl (_ + Z.of_nat _)%Z; try exact IHd;
    apply (digits_value_acc d).
Qed.

Lemma digits_uint (d : Decimal.uint) :
  all_chars is_digit (NilEmpty.string_of_uint d) = true.
Proof. induction d; simpl; auto. Qed.

Lemma string_of_Z_digits (z : Z) :
  (0 <= z)%Z ->
  all_chars is_digit (string_of_Z z) = true
  /\ is_empty (string_of_Z z) = false
  /\ digits_value (string_of_Z z) 0 = z.
Proof.
  intros Hz. destruct z as [|p|p]; [repeat split| |lia].
  unfold string_of_Z. simpl.
  pose proof (DecimalPos.Unsigned.to_uint_nonnil p) as Hnn.
  assert (Hs : NilZero.string_of_uint (Pos.to_uint p)
               = NilEmpty.string_of_uint (Pos.to_uint p)).
  { destruct (Pos.to_uint p); [contradiction|reflexivity..]. }
  rewrite Hs. repeat split.
  - apply digits_uint.
  - destruct (Pos.to_uint p); [contradiction|reflexivity..].
  - now rewrite digits_value_uint, DecimalPos.Unsigned.of_to.
Qed.

Lemma parseFloat_signed (neg : bool) (c : ascii) (s : string) :
  is_digit c = true ->
  parseFloat (sign_text neg ++ String c s)
  = (let (ip, r1) := span is_digit (String c s) in
     let (fp, r2) :=
       match r1 with
       | String "."%char r1' => span is_digit r1'
       | _ => (EmptyString, r1)
       end in
     if is_empty ip && is_empty fp then None
     else Some (make_num neg (ip ++ fp)
                  (read_exponent r2 - Z.of_nat (String.length fp))%Z)).
Proof.
  intros Hd. unfold parseFloat, sign_text.
  destruct neg;
    destruct c as [[] [] [] [] [] [] [] []]; try discriminate Hd; reflexivity.
Qed.

Lemma span_rest (rest : string) :
  no_fraction_left rest ->
  span is_digit rest = (EmptyString, rest)
  /\ match rest with
     | String "."%char r1' => span is_digit r1'
     | _ => (EmptyString, rest)
     end = (EmptyString, rest).
Proof. intros [->|[r ->]]; split; reflexivity. Qed.

Lemma parse_no_dot (neg : bool) (ip rest : string) :
  all_chars is_digit ip = true -> is_empty ip = false ->
  no_fraction_left rest ->
  parseFloat (sign_text neg ++ ip ++ rest)
  = Some (make_num neg ip (read_exponent rest)).
Proof.
  intros Hd Hne Hrest. destruct ip as [|c ip]; [discriminate|].
  pose proof Hd as Hd'. simpl in Hd'. apply andb_true_iff in Hd' as [Hc _].
  change (String c ip ++ rest) with (String c (ip ++ rest)).
  rewrite (parseFloat_signed _ _ _ Hc).
  change (String c (ip ++ rest)) with (String c ip ++ rest).
  destruct (span_rest rest Hrest) as [Hs Hm].
  rewrite (span_all _ _ _ Hd), Hs. cbn [fst snd]. rewrite Hm.
  rewrite !append_nil_r. simpl. f_equal. f_equal. lia.
Qed.

Lemma parse_dot (neg : bool) (ip fp rest : string) :
  all_chars is_digit ip = true -> is_empty ip = false ->
  all_chars is_digit fp = true ->
  no_fraction_left rest ->
  parseFloat (sign_text neg ++ ip ++ String "." (fp ++ rest))
  = Some (make_num neg (ip ++ fp)
            (read_exponent rest - Z.of_nat (String.length fp))).
Proof.
  intros Hd Hne Hf Hrest. destruct ip as [|c ip]; [discriminate|].
  pose proof Hd as Hd'. simpl in Hd'. apply andb_true_iff in Hd' as [Hc _].
  change (String c ip ++ String "." (fp ++ rest))
    with (String c (ip ++ String "." (fp ++ rest))).
  rewrite (parseFloat_signed _ _ _ Hc).
  change (String c (ip ++ String "." (fp ++ rest)))
    with (String c ip ++ String "." (fp ++ rest)).
  destruct (span_rest rest Hrest) as [Hs _].
  rewrite (span_all _ _ _ Hd), (span_stop is_digit "." _ eq_refl).
  cbn [fst snd]. rewrite (span_all _ _ _ Hf), Hs. cbn [fst snd].
  rewrite !append_nil_r. reflexivity.
Qed.

Lemma read_exponent_printed (ex : Z) :
  read_exponent
    (String "e" ((if (ex <? 0)%Z then "-" else "+")
                 ++ string_of_Z (Z.abs ex)))
  = ex.
Proof.
  destruct (string_of_Z_digits (Z.abs ex) (Z.abs_nonneg ex)) as (Hd & Hne & Hv).
  unfold read_exponent. cbn [Ascii.eqb Bool.eqb orb].
  destruct (ex <? 0)%Z eqn:Hneg; cbn [append read_sign];
    rewrite (span_all_nil _ _ Hd), Hne, Hv.
  - apply Z.ltb_lt in Hneg. lia.
  - apply Z.ltb_ge in Hneg. lia.
Qed.

Lemma make_num_digits (neg : bool) (ds : string) (e : Z) :
  canonical_digits ds = true -> make_num neg ds e = NFin neg ds e.
Proof.
  intros H. pose proof (make_num_canonical neg 0 ds 0 e H) as Hm.
  cbn [zeros repeat_char append] in Hm. rewrite append_nil_r in Hm.
  rewrite Hm. f_equal. lia.
Qed.

Lemma num_to_string_signed (neg : bool) (ds : string) (e : Z) :
  exists body,
    num_to_string (NFin neg ds e) = sign_text neg ++ body
    /\ body
       = (let k := Z.of_nat (String.length ds) in
          let n := (e + k)%Z in
          if ((k <=? n) && (n <=? 21))%Z then ds ++ zeros (Z.to_nat (n - k))
          else if ((0 <? n) && (n <=? 21))%Z then
            take (Z.to_nat n) ds ++ "." ++ drop (Z.to_nat n) ds
          else if ((-6 <? n) && (n <=? 0))%Z then
            "0." ++ zeros (Z.to_nat (- n)) ++ ds
          else
            let ex := (n - 1)%Z in
            let sgn := if (ex <? 0)%Z then "-" else "+" in
            let mant :=
              if (k =? 1)%Z then ds else take 1 ds ++ "." ++ drop 1 ds in
            mant ++ "e" ++ sgn ++ string_of_Z (Z.abs ex)).
Proof. eexists. split; [|reflexivity]. now destruct neg. Qed.

Lemma canonical_digits_parts (ds : string) :
  canonical_digits ds = true ->
  all_chars is_digit ds = true /\ is_empty ds = false
  /\ (1 <= Z.of_nat (String.length ds))%Z.
Proof.
  unfold canonical_digits. intros H.
  apply andb_true_iff in H as [H _]. apply andb_true_iff in H as [Hd Hf].
  destruct ds; [discriminate|]. repeat split; [assumption|simpl; lia].
Qed.

Lemma is_empty_take (n : nat) (s : string) :
  (0 < n)%nat -> is_empty s = false -> is_empty (take n s) = false.
Proof. destruct n, s; simpl; intros; try lia; congruence. Qed.

(** [parseFloat] reads back what [num_to_string] prints. *)
Lemma parseFloat_num_to_string (n : jsnum) :
  canonical n = true -> parseFloat (num_to_string n) = Some n.
Proof.
  destruct n as [|neg ds e|[]]; try reflexivity.
  intros Hc. simpl in Hc.
  destruct (canonical_digits_parts ds Hc) as (Hd & Hne & Hk).
  destruct (num_to_string_signed neg ds e) as (body & -> & ->).
  cbv zeta.
  set (k := Z.of_nat (String.length ds)) in *.
  destruct ((k <=? e + k) && (e + k <=? 21))%Z eqn:HA.
  { apply andb_true_iff in HA as [H1 H2]. apply Z.leb_le in H1, H2.
    rewrite <- (append_nil_r (ds ++ zeros _)).
    rewrite parse_no_dot; [| |destruct ds; [discriminate|reflexivity]|now left].
    - pose proof (make_num_canonical neg 0 ds (Z.to_nat (e + k - k))
                    (read_exponent EmptyString) Hc) as Hm.
      cbn [zeros repeat_char append] in Hm. fold (zeros (Z.to_nat (e + k - k))) in Hm.
      rewrite Hm. simpl (read_exponent _). f_equal. f_equal. lia.
    - rewrite all_chars_app, Hd, digits_zeros. reflexivity. }
  destruct ((0 <? e + k) && (e + k <=? 21))%Z eqn:HB.
  { apply andb_true_iff in HB as [H1 H2]. apply Z.ltb_lt in H1.
    apply Z.leb_le in H2.
    assert (Hlt : (e + k < k)%Z).
    { apply andb_false_iff in HA as [HA|HA];
        [apply Z.leb_gt in HA|apply Z.leb_gt in HA]; lia. }
    cbn [append].
    rewrite <- (append_nil_r (drop _ ds)).
    rewrite parse_dot; [| | | |now left].
    - rewrite take_drop, (make_num_digits _ _ _ Hc), length_drop.
      simpl (read_exponent _). f_equal. f_equal. subst k. lia.
    - now apply all_chars_take.
    - apply is_empty_take; [lia|assumption].
    - now apply all_chars_drop. }
  assert (Hout : (e + k <= 0 \/ 21 < e + k)%Z).
  { apply andb_false_iff in HB as [HB|HB];
      [apply Z.ltb_ge in HB|apply Z.leb_gt in HB]; lia. }
  destruct ((-6 <? e + k) && (e + k <=? 0))%Z eqn:HC.
  { apply andb_true_iff in HC as [H1 H2]. apply Z.ltb_lt in H1.
    apply Z.leb_le in H2.
    change ("0." ++ zeros (Z.to_nat (- (e + k))) ++ ds)
      with ("0" ++ String "." (zeros (Z.to_nat (- (e + k))) ++ ds)).
    rewrite <- (append_nil_r (zeros _ ++ ds)).
    rewrite parse_dot; [|reflexivity|reflexivity| |now left].
    - pose proof (make_num_canonical neg (S (Z.to_nat (- (e + k)))) ds 0
                    (read_exponent EmptyString
                     - Z.of_nat (String.length
                                   (zeros (Z.to_nat (- (e + k))) ++ ds))) Hc)
        as Hm.
      cbn [zeros repeat_char append] in Hm.
      fold (zeros (Z.to_nat (- (e + k)))) in Hm.
      rewrite append_nil_r in Hm. cbn [append]. rewrite Hm.
      rewrite length_append, length_zeros. simpl (read_exponent _).
      f_equal. f_equal. subst k. lia.
    - rewrite all_chars_app, Hd, digits_zeros. reflexivity. }
  destruct (k =? 1)%Z eqn:Hk1.
  - apply Z.eqb_eq in Hk1.
    change (ds ++ "e" ++ ?x) with (ds ++ String "e" x).
    rewrite parse_no_dot; [|assumption|assumption|right; eauto].
    rewrite read_exponent_printed, (make_num_digits _ _ _ Hc).
    f_equal. f_equal. lia.
  - apply Z.eqb_neq in Hk1.
    rewrite append_assoc. cbn [append].
    rewrite parse_dot; [| | | |right; eauto].
    + rewrite take_drop, read_exponent_printed, (make_num_digits _ _ _ Hc).
      rewrite length_drop. f_equal. f_equal. subst k. lia.
    + now apply all_chars_take.
    + apply is_empty_take; [lia|assumption].
    + now apply all_chars_drop.
Qed.

Lemma span_fst_all (p : ascii -> bool) (s : string) :
  all_chars p (fst (span p s)) = true.
Proof.
  induction s as [|c s IH]; simpl; [reflexivity|].
  destruct (p c) eqn:Hc; [|reflexivity].
  destruct (span p s). simpl in *. now rewrite Hc.
Qed.

Lemma span_parts (p : ascii -> bool) (s : string) :
  fst (span p s) ++ snd (span p s) = s.
Proof.
  induction s as [|c s IH]; simpl; [reflexivity|].
  destruct (p c); [|reflexivity].
  destruct (span p s). simpl in *. now rewrite IH.
Qed.

Lemma span_snd_start (s : string) :
  snd (span is_zero_char s) = EmptyString
  \/ starts_nonzero (snd (span is_zero_char s)) = true.
Proof.
  induction s as [|c s IH]; simpl; [now left|].
  destruct (is_zero_char c) eqn:Hc.
  - destruct (span is_zero_char s). exact IH.
  - right. simpl. now rewrite Hc.
Qed.

Lemma all_chars_rev (p : ascii -> bool) (s : string) :
  all_chars p (string_rev s) = all_chars p s.
Proof.
  induction s as [|c s IH]; [reflexivity|].
  rewrite string_rev_cons, all_chars_app, IH. simpl.
  now rewrite andb_true_r, andb_comm.
Qed.

Lemma all_chars_snd (p q : ascii -> bool) (s : string) :
  all_chars p s = true -> all_chars p (snd (span q s)) = true.
Proof.
  intros H. rewrite <- (span_parts q s), all_chars_app in H.
  now apply andb_true_iff in H.
Qed.

Lemma make_num_is_canonical (neg : bool) (m : string) (e : Z) :
  all_chars is_digit m = true -> canonical (make_num neg m e) = true.
Proof.
  intros Hm. unfold make_num.
  set (m1 := snd (span is_zero_char m)).
  assert (Hm1 : all_chars is_digit m1 = true) by now apply all_chars_snd.
  pose proof (span_parts is_zero_char (string_rev m1)) as Hparts.
  pose proof (span_snd_start (string_rev m1)) as Hstart.
  assert (Hrs : all_chars is_digit (snd (span is_zero_char (string_rev m1))) = true).
  { apply all_chars_snd. now rewrite all_chars_rev. }
  destruct (span is_zero_char (string_rev m1)) as [tz rs]. cbn [fst snd] in *.
  destruct (is_empty (string_rev rs)) eqn:He; [reflexivity|].
  simpl. unfold canonical_digits.
  rewrite all_chars_rev, Hrs, string_rev_involutive. simpl.
  assert (Hrsne : rs <> EmptyString) by (intros ->; discriminate).
  destruct Hstart as [->|Hstart]; [contradiction|]. rewrite Hstart, andb_true_r.
  assert (Hsplit : m1 = string_rev rs ++ string_rev tz).
  { rewrite <- string_rev_app, Hparts. now rewrite string_rev_involutive. }
  destruct (span_snd_start m) as [Hnil|Hnz];
    [fold m1 in Hnil|fold m1 in Hnz].
  - rewrite Hnil in Hsplit. destruct (string_rev rs); discriminate.
  - rewrite Hsplit in Hnz. destruct (string_rev rs); [discriminate|exact Hnz].
Qed.

(** Every number [parseFloat] returns is in canonical form. *)
Lemma parseFloat_canonical (s : string) (n : jsnum) :
  parseFloat s = Some n -> canonical n = true.
Proof.
  unfold parseFloat. destruct (read_sign (trimStart s)) as [neg r].
  destruct (starts_with "Infinity" r).
  { intros H. now injection H as <-. }
  pose proof (span_fst_all is_digit r) as Hip.
  destruct (span is_digit r) as [ip r1]. cbn [fst] in Hip.
  assert (Hfp : forall fp r2,
             match r1 with
             | String "."%char r1' => span is_digit r1'
             | _ => (EmptyString, r1)
             end = (fp, r2) -> all_chars is_digit fp = true).
  { intros fp r2 H.
    assert (Hcases : (exists r1', (fp, r2) = span is_digit r1')
                     \/ fp = EmptyString).
    { destruct r1 as [|c r1']; [right; congruence|].
      destruct c as [[] [] [] [] [] [] [] []];
        try (right; congruence); left; exists r1'; now rewrite <- H. }
    destruct Hcases as [[r1' Heq]| ->]; [|reflexivity].
    pose proof (span_fst_all is_digit r1') as Hf. rewrite <- Heq in Hf.
    exact Hf. }
  destruct (match r1 with
            | String "."%char r1' => span is_digit r1'
            | _ => (EmptyString, r1)
            end) as [fp r2] eqn:Hm.
  specialize (Hfp fp r2 eq_refl).
  destruct (is_empty ip && is_empty fp); [discriminate|].
  intros H. injection H as <-.
  apply make_num_is_canonical. now rewrite all_chars_app, Hip, Hfp.
Qed.

End NumberRoundTrip.

(** ** The widgets and the numbers they show *)
Section NumberWidgets.

Import NumberText.

(** X19: the number widget returns an untouched default: when the default of
    its descriptor is a number, the input starts with the printed default, and
    submitting that text submits that same number. *)
Theorem number_default_round_trip (componentDetails : jsval) (n : jsnum) :
  prop componentDetails "default" = VNum n ->
  canonical n = true ->
  exists text,
    ChatNumberInput.initial componentDetails = Ok text
    /\ ChatNumberInput.handleSubmit componentDetails text
       = [PreventDefault;
          OnSubmit (ChatNumberInput.parameter_name componentDetails) (VNum n)].
Proof.
  intros Hd Hc. exists (num_to_string n).
  unfold ChatNumberInput.handleSubmit, ChatNumberInput.initial.
  rewrite Hd. cbn [to_string]. now rewrite (parseFloat_num_to_string n Hc).
Qed.

Lemma number_default_round_trip_witness :
  exists text,
    ChatNumberInput.initial price_widget = Ok text
    /\ ChatNumberInput.handleSubmit price_widget text
       = [PreventDefault;
          OnSubmit (VStr "price") (VNum (NFin true "1995" (-5)))].
Proof.
  apply (number_default_round_trip price_widget (NFin true "1995" (-5)));
    reflexivity.
Defined.

Lemma included_number (tags : list jsval) (n : jsnum) :
  In (VNum n) tags -> includes tags (VNum n) = true.
Proof.
  intros H. unfold includes. apply existsb_exists.
  exists (VNum n). split; [assumption|]. simpl. apply jsnum_eqb_refl.
Qed.

(** X20: the tag list compares numbers by value, not by the text typed: with
    a numeric item type every tag a key event commits is a number in
    canonical form, and typing the text a numeric tag is shown with (its
    printed value, blanks around it allowed) commits nothing, submits nothing
    and clears the staging input. *)
Theorem shown_number_is_a_duplicate
  (componentDetails : jsval) (key : string) (st : ChatTagsInput.State) :
  ChatTagsInput.is_numeric (ChatTagsInput.item_type componentDetails) = true ->
  (forall v,
      ChatTagsInput.coerce componentDetails
        (trim (ChatTagsInput.inputValue st)) = Some v ->
      exists n, v = VNum n /\ canonical n = true)
  /\ (forall n,
         ChatTagsInput.is_delimiter key = true ->
         In (VNum n) (ChatTagsInput.tags st) ->
         canonical n = true ->
         trim (ChatTagsInput.inputValue st) = num_to_string n ->
         ChatTagsInput.handleKeyDown componentDetails key st
         = (ChatTagsInput.mkState EmptyString (ChatTagsInput.tags st),
            [PreventDefault])).
Proof.
  intros Hnum. split.
  - intros v. unfold ChatTagsInput.coerce. rewrite Hnum.
    destruct (parseFloat (trim (ChatTagsInput.inputValue st))) as [n|] eqn:Hp;
      simpl; [|discriminate].
    intros H. injection H as <-. exists n. split; [reflexivity|].
    now apply (parseFloat_canonical _ _ Hp).
  - intros n Hk Hin Hc Htok.
    pose proof (parseFloat_num_to_string n Hc) as Hp.
    rewrite handleKeyDown_commit; [|assumption|].
    + unfold ChatTagsInput.coerce. rewrite Hnum, Htok, Hp. simpl.
      now rewrite (included_number _ _ Hin).
    + rewrite Htok. destruct (num_to_string n); [discriminate|reflexivity].
Qed.

Lemma shown_number_is_a_duplicate_witness :
  ChatTagsInput.handleKeyDown TagFacts.number_tags ","
    (ChatTagsInput.handleInputChange " 7.5"
       (ChatTagsInput.initial TagFacts.number_tags))
  = (ChatTagsInput.mkState EmptyString
       [VNum (NFin false "5" 0); VNum (NFin false "75" (-1))],
     [PreventDefault]).
Proof.
  apply (proj2 (shown_number_is_a_duplicate TagFacts.number_tags ","
                  (ChatTagsInput.handleInputChange " 7.5"
                     (ChatTagsInput.initial TagFacts.number_tags))
                  eq_refl)
           (NFin false "75" (-1))); try reflexivity.
  right. left. reflexivity.
Defined.

End NumberWidgets.
